(** * A shallow embedding of the astrodata FITS container model

    Source: [astrodata/fits.py].  The development follows the layout of
    that module: the header collection, the slicing proxy, cropping, the
    extension sort key, the reader and the writer, the windowed operator
    and the coordinate-transform codec. *)

From Stdlib Require Import ZArith QArith Lia List String Ascii Bool.
From stdpp Require Import gmap strings list sorting.

Local Open Scope Z_scope.

(** ** Python-level conventions shared by all components *)

(** The exception classes raised by the module. *)
Inductive exn : Type :=
| TypeError
| ValueError
| IndexError
| KeyError
| AssertionError
| AttributeError
| NotImplementedError
| NameError.

(** The outcome of a call: a value or a raised exception. *)
Inductive result (E A : Type) : Type :=
| Ok (a : A)
| Raise (e : E).
Arguments Ok {E A} a.
Arguments Raise {E A} e.

Definition rbind {E A B} (m : result E A) (k : A -> result E B) : result E B :=
  match m with
  | Ok a => k a
  | Raise e => Raise e
  end.

#[global] Instance result_ret {E} : MRet (result E) := fun _ a => Ok a.
#[global] Instance result_bind {E} : MBind (result E) := fun _ _ k m => rbind m k.

(** ** Header collection: [FitsHeaderCollection] *)

Module Headers.
Section WithValues.

(** The values stored in header cards. *)
Context {V : Type}.

(** A header is a keyword-indexed record. *)
#[local] Abbreviation header := (gmap string V).

(** [header[key]]: the value, or [KeyError]. *)
Definition header_getitem (h : header) (key : string) : option V := h !! key.

(** [del header[key]]: [None] stands for the [KeyError] raised when the
    keyword is absent. *)
Definition header_delitem (h : header) (key : string) : option header :=
  match h !! key with
  | Some _ => Some (delete key h)
  | None => None
  end.

Definition has_key (key : string) (h : header) : bool :=
  bool_decide (is_Some (h !! key)).

(** The [KeyError] raised by [__getitem__], with the two attributes the
    code attaches to it. *)
Record MissingKeyError : Type := mkMissing {
  missing_at : list nat;
  values : list (option V)
}.

(** The three locals of the loop of [__getitem__]. *)
Record getitem_state : Type := mkGetitem {
  gs_raised : bool;
  gs_missing_at : list nat;
  gs_ret : list (option V)
}.

(** One turn of [for n, header in enumerate(self.__headers)].  Python's
    [None] is [None] here, a value read from a header is [Some v]. *)
Definition getitem_step (key : string) (n : nat) (h : header)
    (st : getitem_state) : getitem_state :=
  match header_getitem h key with
  | Some v => mkGetitem (gs_raised st) (gs_missing_at st) (gs_ret st ++ [Some v])
  | None => mkGetitem true (gs_missing_at st ++ [n]) (gs_ret st ++ [None])
  end.

Fixpoint getitem_loop (key : string) (n : nat) (hs : list header)
    (st : getitem_state) : getitem_state :=
  match hs with
  | [] => st
  | h :: hs' => getitem_loop key (S n) hs' (getitem_step key n h st)
  end.

(** [FitsHeaderCollection.__getitem__] *)
Definition getitem (hs : list header) (key : string)
    : result MissingKeyError (list (option V)) :=
  let st := getitem_loop key 0 hs (mkGetitem false [] []) in
  if gs_raised st
  then Raise (mkMissing (gs_missing_at st) (gs_ret st))
  else Ok (gs_ret st).

(** [for n in err.missing_at: vals[n] = default] *)
Fixpoint fill_default (default : option V) (ns : list nat)
    (vals : list (option V)) : list (option V) :=
  match ns with
  | [] => vals
  | n :: ns' => fill_default default ns' (<[n := default]> vals)
  end.

(** [FitsHeaderCollection.get] *)
Definition get (hs : list header) (key : string) (default : option V)
    : list (option V) :=
  match getitem hs key with
  | Ok vals => vals
  | Raise err => fill_default default (missing_at err) (values err)
  end.

(** The locals and the mutated records of the loop of [remove]. *)
Fixpoint remove_loop (key : string) (hs : list header) (deleted : nat)
    : list header * nat :=
  match hs with
  | [] => ([], deleted)
  | h :: hs' =>
      match header_delitem h key with
      | Some h' =>
          let '(rest, d) := remove_loop key hs' (deleted + 1)%nat in
          (h' :: rest, d)
      | None =>
          let '(rest, d) := remove_loop key hs' deleted in
          (h :: rest, d)
      end
  end.

(** [FitsHeaderCollection.remove]: the records after the call, and its
    outcome. *)
Definition remove (hs : list header) (key : string)
    : list header * result exn unit :=
  let '(hs', deleted) := remove_loop key hs 0%nat in
  (hs', if Nat.eqb deleted 0 then Raise KeyError else Ok tt).

(** *** What the claims say, in their own words *)

(** The indices of the records that lack [key], in increasing order. *)
Definition lacks_at (hs : list header) (key : string) (n : nat) : bool :=
  match hs !! n with
  | Some h => negb (has_key key h)
  | None => false
  end.

Definition missing_indices (hs : list header) (key : string) : list nat :=
  List.filter (lacks_at hs key) (seq 0 (length hs)).

(** The value of each record, or [default] where the record lacks [key]. *)
Definition value_or (key : string) (default : option V) (h : header)
    : option V :=
  match h !! key with
  | Some v => Some v
  | None => default
  end.

End WithValues.
End Headers.

(** ** Python built-ins used by the module: [range], [slice], indexing *)

Module Py.

(** The number of elements of [range(start, stop, step)], [step] not 0. *)
Definition range_len (start stop step : Z) : Z :=
  if 0 <? step then
    if start <? stop then (stop - start - 1) / step + 1 else 0
  else if step <? 0 then
    if stop <? start then (start - stop - 1) / (- step) + 1 else 0
  else 0.

(** [list(range(start, stop, step))] *)
Definition range (start stop step : Z) : list Z :=
  map (fun k => start + Z.of_nat k * step)
      (seq 0 (Z.to_nat (range_len start stop step))).

(** [slice(start, stop, step)]; [None] for an omitted bound. *)
Record slice : Type := mkSlice {
  sl_start : option Z;
  sl_stop : option Z;
  sl_step : option Z
}.

(** One bound of [slice.indices]: an explicit bound is shifted by the
    length when negative and clipped to [lower, upper]. *)
Definition adjust_bound (len lower upper : Z) (b : Z) : Z :=
  if b <? 0 then Z.max (b + len) lower else Z.min b upper.

(** [slice.indices(len)]: [ValueError] for a zero step. *)
Definition slice_indices (s : slice) (len : Z) : result exn (Z * Z * Z) :=
  let step := default 1 (sl_step s) in
  if step =? 0 then Raise ValueError else
  let lower := if step <? 0 then -1 else 0 in
  let upper := if step <? 0 then len - 1 else len in
  let start := match sl_start s with
               | None => if step <? 0 then upper else lower
               | Some b => adjust_bound len lower upper b
               end in
  let stop := match sl_stop s with
              | None => if step <? 0 then lower else upper
              | Some b => adjust_bound len lower upper b
              end in
  Ok (start, stop, step).

(** [seq[i]] on a list or tuple: a negative index counts from the end,
    an index out of range raises [IndexError]. *)
Definition getitem {A} (l : list A) (i : Z) : result exn A :=
  let n := Z.of_nat (length l) in
  let j := if i <? 0 then i + n else i in
  if (j <? 0) || (n <=? j) then Raise IndexError
  else match l !! Z.to_nat j with
       | Some x => Ok x
       | None => Raise IndexError
       end.

(** [[f(i) for i in idxs]] where [f] may raise. *)
Fixpoint comprehension {A B} (f : A -> result exn B) (l : list A)
    : result exn (list B) :=
  match l with
  | [] => Ok []
  | x :: l' => y ← f x; ys ← comprehension f l'; Ok (y :: ys)
  end.

(** [seq[s]] for a slice [s]: the items at [range( *s.indices(len(seq)))]. *)
Definition getslice {A} (l : list A) (s : slice) : result exn (list A) :=
  '(start, stop, step) ← slice_indices s (Z.of_nat (length l));
  comprehension (getitem l) (range start stop step).

(** [range(n)[s]], as a list: again a range, over the adjusted bounds. *)
Definition range_getslice (n : Z) (s : slice) : result exn (list Z) :=
  '(start, stop, step) ← slice_indices s (range_len 0 n 1);
  Ok (range (0 + start * 1) (0 + stop * 1) (1 * step)).

End Py.

(** ** Selectors and their normalization *)

(** What is written between the brackets of [ad[...]]: an integer or a
    slice. *)
Inductive selector : Type :=
| SelInt (i : Z)
| SelSlice (s : Py.slice).

(** Modelled from the spec: [astrodata.utils.normalize_indices] is imported
    by [fits.py] and is not among the sources.  The spec has it normalize
    the selector against the number of units: a slice selects the indices
    of [range(nitems)[slc]] and gives a multi-view, an integer (counted
    from the end when negative) selects one unit and gives a single-view,
    and an index outside the units is an [IndexError]. *)
Definition normalize_indices (slc : selector) (nitems : Z)
    : result exn (list Z * bool) :=
  match slc with
  | SelSlice s =>
      indices ← Py.range_getslice nitems s; Ok (indices, true)
  | SelInt i =>
      let j := if i <? 0 then i + nitems else i in
      if (j <? 0) || (nitems <=? j) then Raise IndexError
      else Ok ([j], false)
  end.

(** ** Slicing proxy: [FitsProviderProxy] *)

Module Proxy.
Section WithProvider.

(** The provider a proxy points into; only its identity matters here. *)
Context {Provider : Type}.

(** Modelled from the spec: the constructor of [FitsProviderProxy] and its
    [__len__] are not among the sources.  The spec has a view made of a
    provider, an ordered list of unit indices and the single/multi flag;
    its length is the number of indices. *)
Record t : Type := mk {
  _provider : Provider;
  _mapping : list Z;
  _single : bool
}.

Definition is_single (p : t) : bool := _single p.

Definition len (p : t) : Z := Z.of_nat (length (_mapping p)).

(** [FitsProvider._slice]: [FitsProviderProxy(self, indices, single=not multi)] *)
Definition _slice (ad : Provider) (indices : list Z) (multi : bool) : t :=
  mk ad indices (negb multi).

(** [FitsProvider.__getitem__], for a provider of [nitems] units. *)
Definition provider_getitem (ad : Provider) (nitems : Z) (slc : selector)
    : result exn t :=
  '(indices, multiple) ← normalize_indices slc nitems;
  Ok (_slice ad indices multiple).

(** [FitsProviderProxy.__iter__], as the list of the views it yields. *)
Definition iter (p : t) : list t :=
  if _single p then [p]
  else map (fun n => _slice (_provider p) [n] false) (_mapping p).

(** [FitsProviderProxy.__getitem__] *)
Definition getitem (p : t) (slc : selector) : result exn t :=
  if is_single p then Raise TypeError else
  '(indices, multiple) ← normalize_indices slc (len p);
  mapped_indices ← Py.comprehension (Py.getitem (_mapping p)) indices;
  Ok (_slice (_provider p) mapped_indices multiple).

(** [FitsProviderProxy.__delitem__] *)
Definition delitem (p : t) (idx : selector) : result exn unit :=
  Raise TypeError.

End WithProvider.
Arguments t : clear implicits.
End Proxy.

(** ** Raw extensions: headers and HDUs *)

Definition DEFAULT_EXTENSION : string := "SCI".

(** The classes of [astropy.io.fits] extensions the module tells apart. *)
Inductive hdu_class : Type :=
| PrimaryHDU
| ImageHDU
| BinTableHDU
| TableHDU.

#[global] Instance hdu_class_eq_dec : EqDecision hdu_class.
Proof. solve_decision. Defined.

Section Fits.

(** The header cards other than [EXTNAME] and [EXTVER], and the data
    payload of an extension. *)
Context {Cards Payload : Type}.

(** A header: the two keywords the module inspects, and the rest. *)
Record header : Type := mkHeader {
  EXTNAME : option string;
  EXTVER : option Z;
  cards : Cards
}.

(** An extension object.  [hid] is its identity as a Python object: sets
    of extensions ([recognized], [seen]) hold identities. *)
Record hdu : Type := mkHdu {
  hid : nat;
  hclass : hdu_class;
  hheader : header;
  hdata : option Payload
}.

Definition is_primary (ext : hdu) : bool :=
  bool_decide (hclass ext = PrimaryHDU).

Definition is_image (ext : hdu) : bool :=
  bool_decide (hclass ext = ImageHDU).

Definition is_table (ext : hdu) : bool :=
  bool_decide (hclass ext = BinTableHDU) || bool_decide (hclass ext = TableHDU).

(** [ver in (-1, None)] *)
Definition no_version (ver : option Z) : bool :=
  match ver with
  | None => true
  | Some v => v =? -1
  end.

(** [fits_ext_comp_key]: the pair (integer, string) extensions are sorted
    by. *)
Definition fits_ext_comp_key (ext : hdu) : Z * string :=
  if is_primary ext then (-1, ""%string)
  else
    let ver := EXTVER (hheader ext) in
    let name :=
      match EXTNAME (hheader ext) with
      | None => "zzzz"%string
      | Some name =>
          if String.eqb name DEFAULT_EXTENSION then name
          else ("z" ++ name)%string
      end in
    if no_version ver then (2 ^ 32 - 1, name)
    else (default 0 ver, name).

(** Python's order on pairs (integer, string): the integers decide, the
    strings break ties, compared character by character. *)
Definition key_compare (a b : Z * string) : comparison :=
  match Z.compare (fst a) (fst b) with
  | Eq => String.compare (snd a) (snd b)
  | c => c
  end.

Definition key_ltb (a b : Z * string) : bool :=
  match key_compare a b with Lt => true | _ => false end.

Definition key_leb (a b : Z * string) : bool :=
  match key_compare a b with Gt => false | _ => true end.

(** [sorted(l, key=key)]: a stable sort; an element stays before the
    later elements of equal key. *)
Fixpoint sorted_insert {A} (key : A -> Z * string) (x : A) (l : list A)
    : list A :=
  match l with
  | [] => [x]
  | y :: l' =>
      if key_leb (key x) (key y) then x :: y :: l'
      else y :: sorted_insert key x l'
  end.

Definition sorted {A} (key : A -> Z * string) (l : list A) : list A :=
  foldr (sorted_insert key) [] l.

(** The order the sort establishes on the elements. *)
Definition key_le {A} (key : A -> Z * string) (x y : A) : Prop :=
  key_leb (key x) (key y) = true.

(** The header after [header[kw] = value] for the two keywords. *)
Definition set_extname (name : string) (h : header) : header :=
  mkHeader (Some name) (EXTVER h) (cards h).

Definition set_extver (ver : Z) (h : header) : header :=
  mkHeader (EXTNAME h) (Some ver) (cards h).

Definition with_header (h : header) (ext : hdu) : hdu :=
  mkHdu (hid ext) (hclass ext) h (hdata ext).

(** *** [_prepare_hdulist] *)

(** The locals of the two loops of the multi-extension branch. *)
Record prepare_state : Type := mkPrepare {
  new_list : list hdu;
  highest_ver : Z;
  recognized : gset nat
}.

(** First loop: the extensions that carry a name and a version, and the
    primary one, are kept in file order. *)
Definition prepare_loop1_step (st : prepare_state) (unit : hdu)
    : prepare_state :=
  let ev := EXTVER (hheader unit) in
  let eh := EXTNAME (hheader unit) in
  if negb (no_version ev) && bool_decide (is_Some eh) then
    mkPrepare (new_list st ++ [unit])
              (Z.max (highest_ver st) (default 0 ev))
              ({[hid unit]} ∪ recognized st)
  else if negb (is_primary unit) then st
  else
    mkPrepare (new_list st ++ [unit]) (highest_ver st)
              ({[hid unit]} ∪ recognized st).

(** Second loop: the others follow; an image among them gets the default
    name and the next free version where it lacks one. *)
Definition prepare_loop2_step (default_extension : string)
    (st : prepare_state) (unit : hdu) : prepare_state :=
  if bool_decide (hid unit ∈ recognized st) then st
  else if is_image unit then
    let highest := highest_ver st + 1 in
    let h := hheader unit in
    let h1 := if bool_decide (is_Some (EXTNAME h)) then h
              else set_extname default_extension h in
    let h2 := if no_version (EXTVER h1) then set_extver highest h1 else h1 in
    mkPrepare (new_list st ++ [with_header h2 unit]) highest
              ({[hid unit]} ∪ recognized st)
  else
    mkPrepare (new_list st ++ [unit]) (highest_ver st)
              ({[hid unit]} ∪ recognized st).

(** The keywords [SIMPLE] and [EXTEND] are deleted from the header of the
    image made of a single-image file; [strip_structural] is that
    deletion on the cards. *)
Context (strip_structural : Cards -> Cards).

(** In the branch of the single image, [ImageHDU(header=...,
    data=hdulist[0].data)] is made of the data of the extension and
    [hdulist[0]._orig_bscale] is read, an attribute that only primary and
    image extensions have: for a table extension the branch fails, at the
    latest there; the model takes [AttributeError] for it. *)

Definition _prepare_hdulist (hdulist : list hdu) (default_extension : string)
    : result exn (list hdu) :=
  match hdulist with
  | [] => Raise IndexError
  | first :: rest =>
      if bool_decide (1 < length hdulist)%nat
         || (bool_decide (length hdulist = 1%nat)
             && bool_decide (hdata first = None))
      then
        let st1 := foldl prepare_loop1_step (mkPrepare [] 0 ∅) hdulist in
        let st2 := foldl (prepare_loop2_step default_extension) st1 hdulist in
        Ok (sorted fits_ext_comp_key (new_list st2))
      else if is_table first then Raise AttributeError
      else
        let primary := mkHdu 0 PrimaryHDU (hheader first) None in
        let h := hheader first in
        let h' := mkHeader (Some default_extension) (Some 1)
                           (strip_structural (cards h)) in
        let image := mkHdu 1 ImageHDU h' (hdata first) in
        Ok (sorted fits_ext_comp_key [primary; image])
  end.

End Fits.
Arguments header : clear implicits.
Arguments hdu : clear implicits.

(** *** The order of extensions, in the words of the spec *)

Section SortKeyClaim.
Context {Cards Payload : Type}.
Implicit Types e : hdu Cards Payload.

(** [e1] is placed before [e2] by the comparison of their keys. *)
Definition precedes e1 e2 : Prop :=
  key_ltb (fits_ext_comp_key e1) (fits_ext_comp_key e2) = true.

Definition versioned e : Prop := no_version (EXTVER (hheader e)) = false.

Definition unversioned e : Prop := no_version (EXTVER (hheader e)) = true.

Definition same_version e1 e2 : Prop :=
  (unversioned e1 /\ unversioned e2) \/
  (versioned e1 /\ versioned e2 /\ EXTVER (hheader e1) = EXTVER (hheader e2)).

Definition version_of e : Z := default 0 (EXTVER (hheader e)).

(** The six parts of the ordering; [primary_bound], [name_bound] and
    [version_bound] are the conditions under which the first, the fourth
    and the last are taken. *)
Definition sort_key_order_with
    (primary_bound : hdu Cards Payload -> Prop)
    (name_bound : string -> Prop)
    (version_bound : hdu Cards Payload -> Prop) : Prop :=
  forall e1 e2,
    (is_primary e1 = true -> is_primary e2 = false -> primary_bound e2 ->
     precedes e1 e2)
    /\ (is_primary e1 = false -> is_primary e2 = false ->
        (versioned e1 -> versioned e2 -> version_of e1 < version_of e2 ->
         precedes e1 e2)
        /\ (same_version e1 e2 ->
            EXTNAME (hheader e1) = Some DEFAULT_EXTENSION ->
            EXTNAME (hheader e2) <> Some DEFAULT_EXTENSION ->
            precedes e1 e2)
        /\ (same_version e1 e2 ->
            EXTNAME (hheader e1) = None ->
            (forall n2, EXTNAME (hheader e2) = Some n2 -> name_bound n2 ->
             precedes e2 e1))
        /\ (same_version e1 e2 ->
            forall n1 n2,
              EXTNAME (hheader e1) = Some n1 ->
              EXTNAME (hheader e2) = Some n2 ->
              n1 <> DEFAULT_EXTENSION -> n2 <> DEFAULT_EXTENSION ->
              key_compare (fits_ext_comp_key e1) (fits_ext_comp_key e2) =
              String.compare n1 n2)
        /\ (unversioned e1 -> versioned e2 -> version_bound e2 ->
            precedes e2 e1)).

(** The ordering as the spec states it, for all extensions. *)
Definition sort_key_claim : Prop :=
  sort_key_order_with (fun _ => True) (fun _ => True) (fun _ => True).

End SortKeyClaim.
Arguments sort_key_claim : clear implicits.

(** An image extension of the given name and version, without cards. *)
Definition image_ext (name : option string) (ver : option Z) : hdu unit unit :=
  mkHdu 0 ImageHDU (mkHeader name ver tt) (Some tt).

(** ** Arrays: [numpy.ndarray] with basic slicing *)

Module Np.
Section WithPixels.

(** The type of the elements. *)
Context {px : Type}.

(** An array: its shape and its element at every index (one coordinate
    per axis).  Only the elements at the indices within the shape are
    meaningful. *)
Record ndarray : Type := mkArray {
  shape : list Z;
  item : list Z -> px
}.

Definition ndim (a : ndarray) : nat := length (shape a).

(** An index lies within a shape. *)
Definition in_bounds (shp : list Z) (idx : list Z) : Prop :=
  Forall2 (fun n i => 0 <= i < n) shp idx.

(** Two arrays hold the same elements. *)
Definition same_array (a b : ndarray) : Prop :=
  shape a = shape b /\
  forall idx, in_bounds (shape a) idx -> item a idx = item b idx.

(** The adjusted (start, stop, step) of each axis for [a[s0, s1, ...]]:
    the axes beyond the slices given are taken whole; more slices than
    axes is the [IndexError] "too many indices". *)
Fixpoint slice_axes (shp : list Z) (sl : list Py.slice)
    : result exn (list (Z * Z * Z)) :=
  match sl with
  | [] => Ok (map (fun n => (0, n, 1)) shp)
  | s :: sl' =>
      match shp with
      | [] => Raise IndexError
      | n :: shp' =>
          t ← Py.slice_indices s n;
          ts ← slice_axes shp' sl';
          Ok (t :: ts)
      end
  end.

Definition axis_len (ax : Z * Z * Z) : Z :=
  let '(start, stop, step) := ax in Py.range_len start stop step.

(** The coordinate in the array of the [i]th position of an axis. *)
Definition axis_src (ax : Z * Z * Z) (i : Z) : Z :=
  let '(start, stop, step) := ax in start + i * step.

(** The position on a sliced axis of the coordinate [i] of the array, if
    the slice selects it. *)
Definition axis_pos (ax : Z * Z * Z) (i : Z) : option Z :=
  let '(start, stop, step) := ax in
  let j := (i - start) / step in
  if ((i - start) mod step =? 0) && (0 <=? j)
     && (j <? Py.range_len start stop step)
  then Some j else None.

Fixpoint locate (axes : list (Z * Z * Z)) (idx : list Z)
    : option (list Z) :=
  match axes, idx with
  | [], [] => Some []
  | ax :: axes', i :: idx' =>
      j ← axis_pos ax i; js ← locate axes' idx'; Some (j :: js)
  | _, _ => None
  end.

(** [a[s0, s1, ...]] *)
Definition getslices (a : ndarray) (sl : list Py.slice) : result exn ndarray :=
  axes ← slice_axes (shape a) sl;
  Ok (mkArray (map axis_len axes)
              (fun idx => item a (zip_with axis_src axes idx))).

(** [a[s0, s1, ...] = v] for an array [v] of the shape of the selection
    (another shape is the [ValueError] of a failed broadcast). *)
Definition setslices (a : ndarray) (sl : list Py.slice) (v : ndarray)
    : result exn ndarray :=
  axes ← slice_axes (shape a) sl;
  if decide (shape v = map axis_len axes) then
    Ok (mkArray (shape a)
                (fun idx => match locate axes idx with
                            | Some rel => item v rel
                            | None => item a idx
                            end))
  else Raise ValueError.

(** [np.empty(shape)] and [np.zeros(shape)] raise [ValueError] for a
    shape with a negative length: [valid_dims] is the test they make. *)
Definition valid_dims (shp : list Z) : bool :=
  forallb (fun n => 0 <=? n) shp.

(** The array [np.empty(shape)] returns for a shape that passes the
    test: an array of unspecified content. *)
Definition empty (junk : list Z -> px) (shp : list Z) : ndarray :=
  mkArray shp junk.

End WithPixels.
Arguments ndarray : clear implicits.
End Np.

(** ** Units and providers *)

Section Data.

(** Arrays, tables, transforms and the header cards. *)
Context {Arr Tbl W Cards : Type}.

(** The three pixel planes of an [NDData] object: [data], [uncertainty]
    and [mask]. *)
Record planes : Type := mkPlanes {
  p_data : Arr;
  p_uncertainty : option Arr;
  p_mask : option Arr
}.

(** What [meta['other']] holds: a table, a plain array, an [NDData]
    object, or an object of another type. *)
Inductive aux : Type :=
| AuxTable (t : Tbl)
| AuxArray (a : Arr)
| AuxND (o : planes)
| AuxOpaque.

(** The [wcs] attribute: [None], a [gWCS] object, or something else. *)
Inductive wcs_obj : Type :=
| NoWCS
| GWCS (w : W)
| OtherWCS.

(** A unit: an [NDData] object and its [meta] entries [header], [ver],
    [other] (in insertion order) and [other_header]. *)
Record NDData : Type := mkND {
  nd_planes : planes;
  nd_wcs : wcs_obj;
  nd_header : header Cards;
  nd_ver : Z;
  nd_other : list (string * aux);
  nd_other_header : gmap string (header Cards)
}.

(** A provider: the primary header, the units in order, and the tables
    of the container by name. *)
Record provider : Type := mkProvider {
  phu : header Cards;
  _nddata : list NDData;
  _tables : gmap string Tbl
}.

Definition with_planes (p : planes) (nd : NDData) : NDData :=
  mkND p (nd_wcs nd) (nd_header nd) (nd_ver nd) (nd_other nd)
       (nd_other_header nd).

Definition with_other (o : list (string * aux)) (nd : NDData) : NDData :=
  mkND (nd_planes nd) (nd_wcs nd) (nd_header nd) (nd_ver nd) o
       (nd_other_header nd).

End Data.
Arguments planes : clear implicits.
Arguments aux : clear implicits.
Arguments wcs_obj : clear implicits.
Arguments NDData : clear implicits.
Arguments provider : clear implicits.

(** ** Cropping: [FitsProvider._crop_nd] and [_crop_impl] *)

Module Crop.
Section WithPixels.
Context {px Tbl W Cards : Type}.

#[local] Abbreviation array := (Np.ndarray px).
#[local] Abbreviation unit_t := (NDData array Tbl W Cards).

(** The two slices of [[y1:y2+1, x1:x2+1]]. *)
Definition window (x1 y1 x2 y2 : Z) : list Py.slice :=
  [Py.mkSlice (Some y1) (Some (y2 + 1)) None;
   Py.mkSlice (Some x1) (Some (x2 + 1)) None].

Definition crop_opt (x1 y1 x2 y2 : Z) (a : option array)
    : result exn (option array) :=
  match a with
  | None => Ok None
  | Some a => a' ← Np.getslices a (window x1 y1 x2 y2); Ok (Some a')
  end.

(** [_crop_nd] on an [NDData] object. *)
Definition _crop_nd (nd : planes array) (x1 y1 x2 y2 : Z)
    : result exn (planes array) :=
  d ← Np.getslices (p_data nd) (window x1 y1 x2 y2);
  u ← crop_opt x1 y1 x2 y2 (p_uncertainty nd);
  m ← crop_opt x1 y1 x2 y2 (p_mask nd);
  Ok (mkPlanes d u m).

(** [_crop_nd] on a plain [numpy.ndarray] [o]: its first statement reads
    [o.data[y1:y2+1, x1:x2+1]], and the [data] attribute of an array is
    its buffer, a [memoryview], whose slicing along several axes raises
    [NotImplementedError]. *)
Definition _crop_nd_ndarray (o : array) (x1 y1 x2 y2 : Z) : result exn array :=
  Raise NotImplementedError.

(** The body of [for o in nd.meta['other'].values()]: an object without a
    [shape] attribute raises [AttributeError], which is caught. *)
Definition crop_other (orig_shape : list Z) (x1 y1 x2 y2 : Z)
    (o : aux array Tbl) : result exn (aux array Tbl) :=
  match o with
  | AuxTable _ => Ok o
  | AuxOpaque => Ok o
  | AuxArray a =>
      if decide (Np.shape a = orig_shape) then
        a' ← _crop_nd_ndarray a x1 y1 x2 y2; Ok (AuxArray a')
      else Ok o
  | AuxND p =>
      if decide (Np.shape (p_data p) = orig_shape) then
        p' ← _crop_nd p x1 y1 x2 y2; Ok (AuxND p')
      else Ok o
  end.

Fixpoint crop_others (orig_shape : list Z) (x1 y1 x2 y2 : Z)
    (os : list (string * aux array Tbl))
    : result exn (list (string * aux array Tbl)) :=
  match os with
  | [] => Ok []
  | (name, o) :: os' =>
      o' ← crop_other orig_shape x1 y1 x2 y2 o;
      rest ← crop_others orig_shape x1 y1 x2 y2 os';
      Ok ((name, o') :: rest)
  end.

(** The body of [for nd in nds]. *)
Definition crop_unit (x1 y1 x2 y2 : Z) (nd : unit_t) : result exn unit_t :=
  let orig_shape := Np.shape (p_data (nd_planes nd)) in
  p ← _crop_nd (nd_planes nd) x1 y1 x2 y2;
  os ← crop_others orig_shape x1 y1 x2 y2 (nd_other nd);
  Ok (with_other os (with_planes p nd)).

(** [_crop_impl]: the units after the call, or the exception raised. *)
Fixpoint _crop_impl (x1 y1 x2 y2 : Z) (nds : list unit_t)
    : result exn (list unit_t) :=
  match nds with
  | [] => Ok []
  | nd :: nds' =>
      nd' ← crop_unit x1 y1 x2 y2 nd;
      rest ← _crop_impl x1 y1 x2 y2 nds';
      Ok (nd' :: rest)
  end.

(** [FitsProvider.crop] *)
Definition crop (ad : provider array Tbl W Cards) (x1 y1 x2 y2 : Z)
    : result exn (provider array Tbl W Cards) :=
  nds ← _crop_impl x1 y1 x2 y2 (_nddata ad);
  Ok (mkProvider (phu ad) nds (_tables ad)).

End WithPixels.
End Crop.

(** *** What cropping is to do, in the words of the spec *)

Section CropSpec.
Context {px Tbl W Cards : Type}.

(** [b] is the sub-array [[y1:y2+1, x1:x2+1]] of [a]. *)
Definition is_window_of (x1 y1 x2 y2 : Z) (a b : Np.ndarray px) : Prop :=
  Np.getslices a (Crop.window x1 y1 x2 y2) = Ok b.

Definition opt_window_of (x1 y1 x2 y2 : Z) (a b : option (Np.ndarray px))
    : Prop :=
  match a, b with
  | None, None => True
  | Some a, Some b => is_window_of x1 y1 x2 y2 a b
  | _, _ => False
  end.

Definition planes_cropped (x1 y1 x2 y2 : Z)
    (p p' : planes (Np.ndarray px)) : Prop :=
  is_window_of x1 y1 x2 y2 (p_data p) (p_data p')
  /\ opt_window_of x1 y1 x2 y2 (p_uncertainty p) (p_uncertainty p')
  /\ opt_window_of x1 y1 x2 y2 (p_mask p) (p_mask p').

(** The shape of an auxiliary object, when it has one. *)
Definition aux_shape (o : aux (Np.ndarray px) Tbl) : option (list Z) :=
  match o with
  | AuxArray a => Some (Np.shape a)
  | AuxND p => Some (Np.shape (p_data p))
  | AuxTable _ | AuxOpaque => None
  end.

(** The auxiliary object [o'] is [o] cropped when the shape of [o] is
    [orig_shape], and [o] itself otherwise. *)
Definition aux_cropped (orig_shape : list Z) (x1 y1 x2 y2 : Z)
    (o o' : aux (Np.ndarray px) Tbl) : Prop :=
  if decide (aux_shape o = Some orig_shape) then
    match o, o' with
    | AuxArray a, AuxArray a' => is_window_of x1 y1 x2 y2 a a'
    | AuxND p, AuxND p' => planes_cropped x1 y1 x2 y2 p p'
    | _, _ => False
    end
  else o' = o.

(** The unit [nd'] is [nd] after [crop(x1, y1, x2, y2)]. *)
Definition unit_cropped (x1 y1 x2 y2 : Z)
    (nd nd' : NDData (Np.ndarray px) Tbl W Cards) : Prop :=
  planes_cropped x1 y1 x2 y2 (nd_planes nd) (nd_planes nd')
  /\ Forall2 (fun o o' =>
                fst o' = fst o /\
                aux_cropped (Np.shape (p_data (nd_planes nd))) x1 y1 x2 y2
                            (snd o) (snd o'))
             (nd_other nd) (nd_other nd')
  /\ nd_wcs nd' = nd_wcs nd /\ nd_header nd' = nd_header nd
  /\ nd_ver nd' = nd_ver nd /\ nd_other_header nd' = nd_other_header nd.

(** No plain array among the auxiliary objects of [nd] has the shape of
    its primary array. *)
Definition no_array_of_primary_shape
    (nd : NDData (Np.ndarray px) Tbl W Cards) : Prop :=
  Forall (fun o => match snd o with
                   | AuxArray a =>
                       Np.shape a <> Np.shape (p_data (nd_planes nd))
                   | _ => True
                   end) (nd_other nd).

(** The planes of an object have at least two axes. *)
Definition planes_2d (p : planes (Np.ndarray px)) : Prop :=
  (2 <= Np.ndim (p_data p))%nat
  /\ from_option (fun u => (2 <= Np.ndim u)%nat) True (p_uncertainty p)
  /\ from_option (fun m => (2 <= Np.ndim m)%nat) True (p_mask p).

(** A unit that [crop] can handle: planes of two axes or more, for the
    unit and for the [NDData] objects of its shape among its auxiliary
    objects, and no plain array of that shape among them. *)
Definition croppable (nd : NDData (Np.ndarray px) Tbl W Cards) : Prop :=
  planes_2d (nd_planes nd)
  /\ no_array_of_primary_shape nd
  /\ Forall (fun o => match snd o with
                      | AuxND p =>
                          Np.shape (p_data p) = Np.shape (p_data (nd_planes nd)) ->
                          planes_2d p
                      | _ => True
                      end) (nd_other nd).

End CropSpec.

(** A provider of one 2 x 2 unit with a 2 x 2 array [OBJMASK] among its
    auxiliary objects. *)
Definition crop_example_provider
    : provider (Np.ndarray Z) unit unit unit :=
  let a := Np.mkArray [2; 2] (fun idx => default 0 (idx !! 0%nat)) in
  mkProvider (mkHeader None None tt)
    [mkND (mkPlanes a None None) NoWCS
          (mkHeader (Some "SCI"%string) (Some 1) tt) 1
          [("OBJMASK"%string, AuxArray a)] ∅]
    ∅.

(** ** The windowed operator: [windowedOp] *)

(** [itertools.product( *ls)]: the rightmost list advances fastest. *)
Fixpoint cart_product {A} (ls : list (list A)) : list (list A) :=
  match ls with
  | [] => [[]]
  | l :: ls' => flat_map (fun x => map (cons x) (cart_product ls')) l
  end.

Module Windowed.
Section WithPixels.
Context {px Tbl W Cards : Type}.

#[local] Abbreviation array := (Np.ndarray px).
#[local] Abbreviation unit_t := (NDData array Tbl W Cards).

(** The content of an array made by [np.empty], the element [np.zeros]
    fills with, and a header without cards. *)
Context (junk : list Z -> px) (zero : px) (no_cards : Cards).

(** What the function applied to the windows returns: an [NDData] object
    and its [meta['other']]. *)
Record output : Type := mkOutput {
  out_planes : planes array;
  out_other : list (string * aux array Tbl)
}.

(** The keys of [result.meta['other']]: a name, or a name with the
    coordinates of a block. *)
Inductive other_key : Type :=
| KName (name : string)
| KBlock (name : string) (coords : list (Z * Z)).

#[global] Instance other_key_eq_dec : EqDecision other_key.
Proof. solve_decision. Defined.

(** The effects of a call, in the order they happen. *)
Inductive event : Type :=
| EvAllocate (shp : list Z)
| EvSetLogLevel
| EvCall (coords : list (Z * Z))
| EvCollect
| EvResetLogLevel.

(** The ticks of one axis: [[(x, x+step) for x in range(0, axis, step)]];
    [range] raises [ValueError] for a zero step. *)
Definition axis_ticks (axis step : Z) : result exn (list (Z * Z)) :=
  if step =? 0 then Raise ValueError
  else Ok (map (fun x => (x, x + step)) (Py.range 0 axis step)).

Fixpoint all_ticks (shp kernel : list Z) : result exn (list (list (Z * Z))) :=
  match shp, kernel with
  | axis :: shp', step :: kernel' =>
      t ← axis_ticks axis step; ts ← all_ticks shp' kernel'; Ok (t :: ts)
  | _, _ => Ok []
  end.

(** [generate_boxes] *)
Definition generate_boxes (shp kernel : list Z)
    : result exn (list (list (Z * Z))) :=
  if decide (length shp = length kernel) then
    ticks ← all_ticks shp kernel; Ok (cart_product ticks)
  else Raise AssertionError.

(** [tuple([slice(start, end) for (start, end) in coords])] *)
Definition section_of (coords : list (Z * Z)) : list Py.slice :=
  map (fun c => Py.mkSlice (Some (fst c)) (Some (snd c)) None) coords.

(** [x.shape] of a unit. *)
Definition unit_shape (nd : unit_t) : list Z :=
  Np.shape (p_data (nd_planes nd)).

Definition window_opt (a : option array) (section : list Py.slice)
    : result exn (option array) :=
  match a with
  | None => Ok None
  | Some a => a' ← Np.getslices a section; Ok (Some a')
  end.

(** Modelled from the spec: [NDAstroData.window] is not among the
    sources.  The spec has the function evaluated on the corresponding
    window of every input unit: the planes of the unit restricted to the
    section. *)
Definition window (nd : unit_t) (section : list Py.slice)
    : result exn (planes array) :=
  d ← Np.getslices (p_data (nd_planes nd)) section;
  u ← window_opt (p_uncertainty (nd_planes nd)) section;
  m ← window_opt (p_mask (nd_planes nd)) section;
  Ok (mkPlanes d u m).

(** Modelled from the spec: [NDAstroData.set_section] is not among the
    sources.  The spec has the result of the function written into the
    matching window of the result unit: the data, and the uncertainty
    and the mask where the result unit has them (an output without the
    plane the result unit has is then an error). *)
Definition set_section (res : planes array) (section : list Py.slice)
    (out : planes array) : result exn (planes array) :=
  d ← Np.setslices (p_data res) section (p_data out);
  u ← match p_uncertainty res with
      | None => Ok None
      | Some u =>
          match p_uncertainty out with
          | None => Raise AttributeError
          | Some v => u' ← Np.setslices u section v; Ok (Some u')
          end
      end;
  m ← match p_mask res with
      | None => Ok None
      | Some m =>
          match p_mask out with
          | None => Raise TypeError
          | Some v => m' ← Np.setslices m section v; Ok (Some m')
          end
      end;
  Ok (mkPlanes d u m).

(** [d[key] = v] on an ordered dictionary. *)
Fixpoint dict_set {K V} `{EqDecision K} (key : K) (v : V) (d : list (K * V))
    : list (K * V) :=
  match d with
  | [] => [(key, v)]
  | (k, x) :: d' =>
      if decide (k = key) then (k, v) :: d' else (k, x) :: dict_set key v d'
  end.

Fixpoint dict_get {K V} `{EqDecision K} (key : K) (d : list (K * V))
    : option V :=
  match d with
  | [] => None
  | (k, x) :: d' => if decide (k = key) then Some x else dict_get key d'
  end.

Definition dict_del {K V} `{EqDecision K} (key : K) (d : list (K * V))
    : list (K * V) :=
  filter (fun e => fst e <> key) d.

(** The result under construction: its planes and its [meta['other']]. *)
Record state : Type := mkState {
  st_planes : planes array;
  st_other : list (other_key * aux array Tbl)
}.

(** The propagation of the additional attributes of one output. *)
Definition propagate (nboxes : nat) (coords : list (Z * Z))
    (outs : list (string * aux array Tbl))
    (other : list (other_key * aux array Tbl))
    : list (other_key * aux array Tbl) :=
  foldl (fun acc kv =>
           if bool_decide (1 < nboxes)%nat
           then dict_set (KBlock (fst kv) coords) (snd kv) acc
           else dict_set (KName (fst kv)) (snd kv) acc)
        other outs.

(** The body of [for coords in boxes], and the events it adds. *)
Definition block_step (func : list (planes array) -> output)
    (sequence : list unit_t) (nboxes : nat)
    (acc : list event * result exn state) (coords : list (Z * Z))
    : list event * result exn state :=
  match acc with
  | (tr, Raise e) => (tr, Raise e)
  | (tr, Ok st) =>
      let section := section_of coords in
      match Py.comprehension (fun el => window el section) sequence with
      | Raise e => (tr, Raise e)
      | Ok windows =>
          let out := func windows in
          match set_section (st_planes st) section (out_planes out) with
          | Raise e => (tr ++ [EvCall coords], Raise e)
          | Ok p =>
              (tr ++ [EvCall coords; EvCollect],
               Ok (mkState p (propagate nboxes coords (out_other out)
                                        (st_other st))))
          end
      end
  end.

(** [shape], when not given, is the shape the units share. *)
Definition resolve_shape (sequence : list unit_t) (shp : option (list Z))
    : result exn (list Z) :=
  match shp with
  | Some shp => Ok shp
  | None =>
      let shapes : gset (list Z) := list_to_set (unit_shape <$> sequence) in
      if bool_decide (1 < size shapes)%nat then Raise ValueError
      else match sequence with
           | [] => Raise IndexError
           | first :: _ => Ok (unit_shape first)
           end
  end.

(** [dtype], when not given, is read from [sequence[0].window[:1, :1]]:
    the result then has the dtype of the data of the first unit.  Of a
    dtype that is passed the model keeps only that it was passed: the
    conversion of the values written into the result to that dtype is
    not modelled, and what is proved of the values of the result is
    proved for a dtype that is not passed. *)
Definition resolve_dtype (sequence : list unit_t) (dtype_given : bool)
    : result exn unit :=
  if dtype_given then Ok tt
  else match sequence with
       | [] => Raise IndexError
       | first :: _ =>
           _ ← window first [Py.mkSlice None (Some 1) None;
                             Py.mkSlice None (Some 1) None];
           Ok tt
       end.

(** The body of [for (name, coords), obj in list(other.items())].  Its
    first statement evaluates [isinstance(obj, NDData)], and the module
    defines no name [NDData] (the import of it is commented out, the class
    of the units is imported as [NDDataObject]): [NameError], before
    anything is stitched. *)
Definition gather_block (shp : list Z)
    (other : list (other_key * aux array Tbl))
    (entry : other_key * aux array Tbl)
    : result exn (list (other_key * aux array Tbl)) :=
  Raise NameError.

Fixpoint gather_blocks (shp : list Z)
    (entries other : list (other_key * aux array Tbl))
    : result exn (list (other_key * aux array Tbl)) :=
  match entries with
  | [] => Ok other
  | e :: entries' =>
      other' ← gather_block shp other e; gather_blocks shp entries' other'
  end.

(** The body of [for name in other]: [other[name] = other[name].data];
    the [data] of a plain array is its buffer. *)
Definition finalize_entry (entry : other_key * aux array Tbl)
    : result exn (string * aux array Tbl) :=
  match entry with
  | (KName name, AuxND obj) => Ok (name, AuxArray (p_data obj))
  | (KName name, AuxArray _) => Ok (name, AuxOpaque)
  | (KName _, _) => Raise AttributeError
  | (KBlock _ _, _) => Raise TypeError
  end.

(** The part after the loop: the arrays of the additional attributes are
    gathered, and [meta['other_header']] is filled. *)
Definition gather (shp : list Z) (nboxes : nat)
    (other : list (other_key * aux array Tbl))
    : result exn (list (string * aux array Tbl) * gmap string (header Cards)) :=
  match other with
  | [] => Ok ([], ∅)
  | _ =>
      other1 ← (if bool_decide (1 < nboxes)%nat
                then gather_blocks shp other other else Ok other);
      final ← Py.comprehension finalize_entry other1;
      Ok (final,
          list_to_map
            (map (fun e => (fst e, mkHeader (Some (fst e)) None no_cards))
                 final))
  end.

(** [windowedOp]: the events of the call and its outcome.  [shp] is the
    optional [shape] argument, [dtype_given] tells whether [dtype] was
    passed.  The arrays of the result are allocated first, which fails
    for a shape with a negative length, and [sequence[0].meta] is read
    after that. *)
Definition windowedOp (func : list (planes array) -> output)
    (sequence : list unit_t) (kernel : list Z) (shp : option (list Z))
    (dtype_given with_uncertainty with_mask : bool)
    : list event * result exn unit_t :=
  match resolve_shape sequence shp with
  | Raise e => ([], Raise e)
  | Ok shp =>
  match resolve_dtype sequence dtype_given with
  | Raise e => ([], Raise e)
  | Ok _ =>
  if negb (Np.valid_dims shp) then ([], Raise ValueError) else
  match sequence with
  | [] => ([EvAllocate shp], Raise IndexError)
  | first :: _ =>
      let result :=
        mkPlanes (Np.empty junk shp)
                 (if with_uncertainty
                  then Some (Np.mkArray shp (fun _ => zero)) else None)
                 (if with_mask then Some (Np.empty junk shp) else None) in
      let tr0 := [EvAllocate shp; EvSetLogLevel] in
      match generate_boxes shp kernel with
      | Raise e => (tr0, Raise e)
      | Ok boxes =>
          let '(tr, r) :=
            foldl (block_step func sequence (length boxes))
                  (tr0, Ok (mkState result [])) boxes in
          (tr ++ [EvResetLogLevel],
           st ← r;
           '(other, other_header) ← gather shp (length boxes) (st_other st);
           Ok (mkND (st_planes st) (nd_wcs first) (nd_header first)
                    (nd_ver first) other other_header))
      end
  end end end.

(** The function that returns the window of the first unit, without
    additional attributes. *)
Definition identity_func (windows : list (planes array)) : output :=
  match windows with
  | w :: _ => mkOutput w []
  | [] => mkOutput (mkPlanes (Np.empty junk []) None None) []
  end.

End WithPixels.
End Windowed.

(** *** Blocks, in the words of the spec *)

(** The index [idx] lies in the block [box], one interval per axis. *)
Definition in_box (box : list (Z * Z)) (idx : list Z) : Prop :=
  Forall2 (fun c i => fst c <= i < snd c) box idx.


(** The planes of a unit have one shape. *)
Definition planes_aligned {px} (p : planes (Np.ndarray px)) : Prop :=
  from_option (fun u => Np.shape u = Np.shape (p_data p)) True (p_uncertainty p)
  /\ from_option (fun m => Np.shape m = Np.shape (p_data p)) True (p_mask p).

(** The adjusted (start, stop, step) of the slices of a block on a shape:
    the block is clipped to the shape. *)
Definition block_axes (box : list (Z * Z)) (shp : list Z)
    : list (Z * Z * Z) :=
  zip_with (fun c n => (Z.min (fst c) n, Z.min (snd c) n, 1)) box shp.




(** ** The coordinate-transform codec: [wcs_to_asdftablehdu] *)

(** What an extension holds: an image, a table, or the single column
    [gWCS] of a serialized transform, text or bytes. *)
Inductive col_format : Type :=
| FmtA (width : nat)
| FmtB.

Inductive payload (Arr Tbl : Type) : Type :=
| ImageData (a : Arr)
| TableData (t : Tbl)
| AsciiColumn (name : string) (fmt : col_format) (rows : list string)
| ByteColumn (name : string) (fmt : col_format) (bytes : list Byte.byte).
Arguments ImageData {Arr Tbl} a.
Arguments TableData {Arr Tbl} t.
Arguments AsciiColumn {Arr Tbl} name fmt rows.
Arguments ByteColumn {Arr Tbl} name fmt bytes.

(** The messages sent to the logger. *)
Inductive log_msg : Type :=
| WarnAsciiFallback (extver : option Z)
| WarnGwcsToFits.

Module Codec.

(** [bytes.decode('ascii')]: [None] is the [UnicodeDecodeError] raised
    when a byte is not below 128. *)
Definition is_ascii_byte (b : Byte.byte) : bool :=
  (Byte.to_N b <? 128)%N.

Definition decode_ascii (buf : list Byte.byte) : option (list ascii) :=
  if forallb is_ascii_byte buf then Some (map ascii_of_byte buf) else None.

(** The line boundaries of [str.splitlines] among the ASCII characters,
    the carriage return apart: line feed, vertical tab, form feed, and
    the file, group and record separators. *)
Definition is_linebreak (c : ascii) : bool :=
  let n := N_of_ascii c in
  ((n =? 10) || (n =? 11) || (n =? 12) || (n =? 28) || (n =? 29)
   || (n =? 30))%N.

Definition is_cr (c : ascii) : bool := (N_of_ascii c =? 13)%N.

Definition is_lf (c : ascii) : bool := (N_of_ascii c =? 10)%N.

(** [str.splitlines()]; [cur] is the line being read, last character
    first.  A carriage return followed by a line feed is one boundary,
    and no empty line is added after a final boundary. *)
Fixpoint splitlines_go (cur : list ascii) (s : list ascii) : list string :=
  match s with
  | [] => match cur with
          | [] => []
          | _ => [string_of_list_ascii (rev cur)]
          end
  | c :: s' =>
      if is_cr c then
        match s' with
        | c' :: s'' =>
            if is_lf c'
            then string_of_list_ascii (rev cur) :: splitlines_go [] s''
            else string_of_list_ascii (rev cur) :: splitlines_go [] s'
        | [] => string_of_list_ascii (rev cur) :: splitlines_go [] s'
        end
      else if is_linebreak c then
        string_of_list_ascii (rev cur) :: splitlines_go [] s'
      else splitlines_go (c :: cur) s'
  end.

Definition splitlines (s : list ascii) : list string := splitlines_go [] s.

(** [max(len(line) for line in lines)]: [ValueError] for no line. *)
Definition max_len (lines : list string) : result exn nat :=
  match lines with
  | [] => Raise ValueError
  | l :: ls => Ok (foldl Nat.max (String.length l) (map String.length ls))
  end.

Section WithSerializer.
Context {Arr Tbl W Cards : Type}.

(** The [asdf] library: the bytes [AsdfFile({"wcs": wcs}).write_to] writes
    with inline arrays, or [None] for the [ValidationError] of a transform
    with a piece that has no serialization tag. *)
Context (asdf_serialize : W -> option (list Byte.byte)).

(** The cards of the header [from_columns] builds for a column format
    and a number of rows. *)
Context (column_cards : col_format -> nat -> Cards).

(** [wcs_to_asdftablehdu]: the messages logged and the extension made.
    [hid] is the identity of the new object. *)
Definition wcs_to_asdftablehdu (hid : nat) (wcs : W) (extver : option Z)
    : list log_msg * result exn (hdu Cards (payload Arr Tbl)) :=
  match asdf_serialize wcs with
  | None => ([], Raise TypeError)
  | Some wcsbuf =>
      match decode_ascii wcsbuf with
      | None =>
          ([WarnAsciiFallback extver],
           Ok (mkHdu hid BinTableHDU
                     (mkHeader (Some "WCS"%string) extver
                               (column_cards FmtB (length wcsbuf)))
                     (Some (ByteColumn "gWCS" FmtB wcsbuf))))
      | Some text =>
          let lines := splitlines text in
          ([],
           width ← max_len lines;
           Ok (mkHdu hid TableHDU
                     (mkHeader (Some "WCS"%string) extver
                               (column_cards (FmtA width) (length lines)))
                     (Some (AsciiColumn "gWCS" (FmtA width) lines))))
      end
  end.

End WithSerializer.
End Codec.

(** ** The writer: [write_fits] *)

(** The outcome of [adwcs.gwcs_to_fits]: an exception, or the dictionary
    of keywords that describes the transform. *)
Inductive gwcs_result (D : Type) : Type :=
| GwcsRaise (e : exn)
| GwcsDict (d : D).
Arguments GwcsRaise {D} e.
Arguments GwcsDict {D} d.

Module Writer.
Section WithCollaborators.
Context {Arr Tbl W Cards D : Type}.

#[local] Abbreviation unit_t := (NDData Arr Tbl W Cards).
#[local] Abbreviation ext_t := (hdu Cards (payload Arr Tbl)).

(** [adwcs.gwcs_to_fits(ext, phu)], which the sources import from the
    [wcs] module, with the three things the writer does with its result:
    the test ['APPROXIMATE' in wcs_dict.get('FITS-WCS', '')], the deletion
    of the keywords of the old transform from a header, and
    [header.update(wcs_dict)]. *)
Context (gwcs_to_fits : unit_t -> header Cards -> gwcs_result D).
Context (approximate : D -> bool).
Context (strip_wcs_keywords : Cards -> Cards).
Context (header_update : Cards -> D -> Cards).

(** [header_for_table] by way of [add_header_to_table]: the header of a
    table, or the [TypeError] of a column it cannot describe. *)
Context (header_for_table : Tbl -> result exn (header Cards)).

(** The [asdf] serializer and the cards of a new table extension, as in
    the codec. *)
Context (asdf_serialize : W -> option (list Byte.byte)).
Context (column_cards : col_format -> nat -> Cards).

(** [new_imagehdu(data, header, name)]: an image extension with a copy of
    the header, renamed when a name is given. *)
Definition new_imagehdu (hid : nat) (data : Arr) (h : header Cards)
    (name : option string) : ext_t :=
  mkHdu hid ImageHDU
        (match name with
         | Some n => set_extname n h
         | None => h
         end)
        (Some (ImageData data)).

(** [table_to_bintablehdu(table, extname)] *)
Definition table_to_bintablehdu (hid : nat) (table : Tbl)
    (extname : option string) : result exn ext_t :=
  h ← header_for_table table;
  Ok (mkHdu hid BinTableHDU
            (match extname with
             | Some n => if String.eqb n "" then h else set_extname n h
             | None => h
             end)
            (Some (TableData table))).

(** The list under construction and the messages logged so far. *)
Record wstate : Type := mkW {
  hdul : list ext_t;
  wlog : list log_msg
}.

(** [hdul.append(...)] of an object made with the next identity. *)
Definition append (st : wstate) (mk : nat -> ext_t) : wstate :=
  mkW (hdul st ++ [mk (length (hdul st))]) (wlog st).

(** The first part of the body of the loop over the units: the header to
    write and the transform still to be written as an extension. *)
Definition resolve_wcs (phu_header : header Cards) (ext : unit_t)
    : result exn (header Cards * wcs_obj W * list log_msg) :=
  let h := nd_header ext in
  match nd_wcs ext with
  | GWCS w =>
      match gwcs_to_fits ext phu_header with
      | GwcsRaise ValueError | GwcsRaise NotImplementedError =>
          Ok (h, GWCS w, [WarnGwcsToFits])
      | GwcsRaise e => Raise e
      | GwcsDict wcs_dict =>
          let h' := mkHeader (EXTNAME h) (EXTVER h)
                      (header_update (strip_wcs_keywords (cards h)) wcs_dict) in
          Ok (h', if approximate wcs_dict then GWCS w else NoWCS, [])
      end
  | other => Ok (h, other, [])
  end.

(** The body of the loop over [meta['other']]. *)
Definition write_other (ext : unit_t) (h : header Cards) (st : wstate)
    (item : string * aux Arr Tbl) : result exn wstate :=
  let '(name, other) := item in
  match other with
  | AuxTable t =>
      ext' ← table_to_bintablehdu (length (hdul st)) t None;
      Ok (append st (fun _ => ext'))
  | AuxArray a =>
      let h' := default h (nd_other_header ext !! name) in
      Ok (append st (fun hid => new_imagehdu hid a h' (Some name)))
  | AuxND o =>
      Ok (append st (fun hid => new_imagehdu hid (p_data o) h None))
  | AuxOpaque => Raise ValueError
  end.

Fixpoint write_others (ext : unit_t) (h : header Cards) (st : wstate)
    (items : list (string * aux Arr Tbl)) : result exn wstate :=
  match items with
  | [] => Ok st
  | item :: items' =>
      st' ← write_other ext h st item; write_others ext h st' items'
  end.

(** The body of [for ext in ad._nddata]. *)
Definition write_unit (phu_header : header Cards) (st : wstate)
    (ext : unit_t) : result exn wstate :=
  '(h, wcs, msgs) ← resolve_wcs phu_header ext;
  let st := mkW (hdul st) (wlog st ++ msgs) in
  let st := append st (fun hid =>
              new_imagehdu hid (p_data (nd_planes ext)) h None) in
  let st := match p_uncertainty (nd_planes ext) with
            | Some u => append st (fun hid => new_imagehdu hid u h (Some "VAR"%string))
            | None => st
            end in
  let st := match p_mask (nd_planes ext) with
            | Some m => append st (fun hid => new_imagehdu hid m h (Some "DQ"%string))
            | None => st
            end in
  st ← match wcs with
       | GWCS w =>
           let '(msgs, r) :=
             Codec.wcs_to_asdftablehdu asdf_serialize column_cards
               (length (hdul st)) w (Some (nd_ver ext)) in
           ext' ← r;
           Ok (append (mkW (hdul st) (wlog st ++ msgs)) (fun _ => ext'))
       | _ => Ok st
       end;
  write_others ext h st (nd_other ext).

Fixpoint write_units (phu_header : header Cards) (st : wstate)
    (exts : list unit_t) : result exn wstate :=
  match exts with
  | [] => Ok st
  | ext :: exts' =>
      st' ← write_unit phu_header st ext; write_units phu_header st' exts'
  end.

Fixpoint write_tables (st : wstate) (items : list (string * Tbl))
    : result exn wstate :=
  match items with
  | [] => Ok st
  | (name, table) :: items' =>
      ext ← table_to_bintablehdu (length (hdul st)) table (Some name);
      write_tables (append st (fun _ => ext)) items'
  end.

(** [sorted(ad._tables.items())]: the names are distinct, so they alone
    decide the order. *)
Definition sorted_tables (tables : gmap string Tbl) : list (string * Tbl) :=
  sorted (fun item => (0, fst item)) (map_to_list tables).

(** [write_fits]: the list of extensions handed to [writeto] and the
    messages logged, or the exception raised. *)
Definition write_fits (ad : provider Arr Tbl W Cards) : result exn wstate :=
  let st := append (mkW [] [])
              (fun hid => mkHdu hid PrimaryHDU (phu ad) None) in
  st ← write_units (phu ad) st (_nddata ad);
  write_tables st (sorted_tables (_tables ad)).

End WithCollaborators.
End Writer.

(** *** The order of the extensions written, in the words of the spec *)

Definition result_map {E A B} (f : A -> B) (r : result E A) : result E B :=
  match r with
  | Ok a => Ok (f a)
  | Raise e => Raise e
  end.

Section WriterLayout.
Context {Arr Tbl W Cards D : Type}.
Context (gwcs_to_fits : NDData Arr Tbl W Cards -> header Cards -> gwcs_result D).
Context (approximate : D -> bool).
Context (strip_wcs_keywords : Cards -> Cards).
Context (header_update : Cards -> D -> Cards).
Context (header_for_table : Tbl -> result exn (header Cards)).
Context (asdf_serialize : W -> option (list Byte.byte)).
Context (column_cards : col_format -> nat -> Cards).

(** An extension without its identity: class, header and content. *)
Definition ext_view (e : hdu Cards (payload Arr Tbl))
    : hdu_class * header Cards * option (payload Arr Tbl) :=
  (hclass e, hheader e, hdata e).

#[local] Abbreviation view_t :=
  (hdu_class * header Cards * option (payload Arr Tbl))%type.

(** The down-conversion of the transform of a unit to header keywords:
    it is attempted when the transform is of the rich kind, and gives
    the keywords when it succeeds. *)
Definition down_conversion (phu_header : header Cards)
    (ext : NDData Arr Tbl W Cards) : option D :=
  match nd_wcs ext with
  | GWCS _ =>
      match gwcs_to_fits ext phu_header with
      | GwcsDict d => Some d
      | GwcsRaise _ => None
      end
  | _ => None
  end.

(** A failure of the down-conversion is passed over when it is a
    [ValueError] or a [NotImplementedError]; any other is fatal to the
    write. *)
Definition fatal_conversion (phu_header : header Cards)
    (ext : NDData Arr Tbl W Cards) : option exn :=
  match nd_wcs ext with
  | GWCS _ =>
      match gwcs_to_fits ext phu_header with
      | GwcsRaise ValueError | GwcsRaise NotImplementedError => None
      | GwcsRaise e => Some e
      | GwcsDict _ => None
      end
  | _ => None
  end.

(** The metadata record of a unit as it is written: after a successful
    down-conversion the stale keywords are stripped from it and the
    keywords of the conversion set; its name and version stay. *)
Definition written_header (phu_header : header Cards)
    (ext : NDData Arr Tbl W Cards) : header Cards :=
  match down_conversion phu_header ext with
  | Some d =>
      {| EXTNAME := EXTNAME (nd_header ext);
         EXTVER := EXTVER (nd_header ext);
         cards := header_update (strip_wcs_keywords (cards (nd_header ext))) d |}
  | None => nd_header ext
  end.

(** The transform extension is suppressed only when the down-conversion
    succeeded as an exact match, not as an approximation. *)
Definition suppressed (phu_header : header Cards)
    (ext : NDData Arr Tbl W Cards) : bool :=
  match down_conversion phu_header ext with
  | Some d => negb (approximate d)
  | None => false
  end.

(** An image extension: the array under a header, renamed when it is
    written under a role name. *)
Definition image_view (a : Arr) (h : header Cards) (role : option string)
    : view_t :=
  (ImageHDU,
   match role with
   | Some name =>
       {| EXTNAME := Some name; EXTVER := EXTVER h; cards := cards h |}
   | None => h
   end,
   Some (ImageData a)).

(** A table extension: the table under the header made for it, renamed
    when it is written under a name. *)
Definition table_view (t : Tbl) (role : option string) : result exn view_t :=
  h ← header_for_table t;
  Ok (BinTableHDU,
      match role with
      | Some name =>
          if String.eqb name "" then h
          else {| EXTNAME := Some name; EXTVER := EXTVER h; cards := cards h |}
      | None => h
      end,
      Some (TableData t)).

Definition optional_image (plane : option Arr) (h : header Cards)
    (name : string) : list view_t :=
  match plane with
  | Some a => [image_view a h (Some name)]
  | None => []
  end.

(** The extension of one auxiliary object: a table extension for a
    table; for an array an image extension under its name, with its own
    metadata record when it has one and that of the unit otherwise; for
    an [NDData] object an image extension of its data under the record
    of the unit; [ValueError] for an object of another type. *)
Definition aux_layout (ext : NDData Arr Tbl W Cards) (h : header Cards)
    (item : string * aux Arr Tbl) : result exn view_t :=
  match snd item with
  | AuxTable t => table_view t None
  | AuxArray a =>
      Ok (image_view a (default h (nd_other_header ext !! fst item))
                     (Some (fst item)))
  | AuxND o => Ok (image_view (p_data o) h None)
  | AuxOpaque => Raise ValueError
  end.

(** The transform extension of a unit: the one the codec makes of the
    transform and the version of the unit, when the transform is of the
    rich kind and was not suppressed. *)
Definition transform_layout (phu_header : header Cards)
    (ext : NDData Arr Tbl W Cards) : result exn (list view_t) :=
  match nd_wcs ext with
  | GWCS w =>
      if suppressed phu_header ext then Ok []
      else
        e ← snd (Codec.wcs_to_asdftablehdu asdf_serialize column_cards 0 w
                   (Some (nd_ver ext)));
        Ok [ext_view e]
  | _ => Ok []
  end.

(** The extensions of one unit: the primary array, the uncertainty as
    [VAR] and the mask as [DQ] when present, the transform when it was
    not suppressed, then the auxiliary objects. *)
Definition unit_layout (phu_header : header Cards)
    (ext : NDData Arr Tbl W Cards) : result exn (list view_t) :=
  match fatal_conversion phu_header ext with
  | Some e => Raise e
  | None =>
      let h := written_header phu_header ext in
      transform ← transform_layout phu_header ext;
      auxiliaries ← Py.comprehension (aux_layout ext h) (nd_other ext);
      Ok ([image_view (p_data (nd_planes ext)) h None]
          ++ optional_image (p_uncertainty (nd_planes ext)) h "VAR"
          ++ optional_image (p_mask (nd_planes ext)) h "DQ"
          ++ transform ++ auxiliaries)
  end.

Definition table_layout (item : string * Tbl) : result exn view_t :=
  table_view (snd item) (Some (fst item)).

(** The whole list: the primary extension, the units in the order of the
    provider, the tables of the container in the order of their names. *)
Definition layout (ad : provider Arr Tbl W Cards) : result exn (list view_t) :=
  units ← Py.comprehension (unit_layout (phu ad)) (_nddata ad);
  tables ← Py.comprehension table_layout (Writer.sorted_tables (_tables ad));
  Ok ([(PrimaryHDU, phu ad, None)] ++ concat units ++ tables).

End WriterLayout.

(** ** The reader: [FitsLazyLoadable], [asdftablehdu_to_wcs], [read_fits] *)

Module Reader.
Section WithCollaborators.
Context {Arr Tbl W Cards : Type}.

(** The content of an image extension of an opened file: the stored array
    and the scaling read from its header. *)
Record raw_image : Type := mkRaw {
  _orig_bscale : Q;
  _orig_bzero : Q;
  raw_data : Arr
}.

#[local] Abbreviation raw_hdu := (hdu Cards (payload raw_image Tbl)).
#[local] Abbreviation unit_t := (NDData Arr Tbl W Cards).

(** [(bscale * data + bzero).astype(dtype)] of [numpy], and the [data]
    attribute as [astropy] gives it for an extension read at once. *)
Context (rescale : Q -> Q -> Arr -> Arr).
Context (astropy_data : raw_image -> Arr).

(** [asdf.open] on the bytes of a document: [None] when they do not
    parse, [Some None] when the tree has no [wcs] entry. *)
Context (asdf_open : list Byte.byte -> option (option W)).

(** [adwcs.fitswcs_to_gwcs], imported from the [wcs] module. *)
Context (fitswcs_to_gwcs : header Cards -> result exn (option W)).

(** The cards of the primary header after [ORIGNAME] has been set when
    absent, the cards without [SIMPLE] and [EXTEND], the table made of a
    single column, and the name given to a table without one. *)
Context (with_origname : Cards -> Cards).
Context (strip_structural : Cards -> Cards).
Context (column_table : payload raw_image Tbl -> option Tbl).
Context (fresh_table_name : gmap string Tbl -> string).

(** [FitsLazyLoadable._scale] *)
Definition _scale (obj : raw_image) : Arr :=
  if Qeq_bool (_orig_bscale obj) 1 && Qeq_bool (_orig_bzero obj) 0
  then raw_data obj
  else rescale (_orig_bscale obj) (_orig_bzero obj) (raw_data obj).

(** The array of an image extension: through [FitsLazyLoadable.data]
    when the file is memory-mapped, the [data] attribute otherwise.  An
    extension without image data gives no array; the model takes
    [ValueError] for it. *)
Definition image_of (memmap : bool) (ext : raw_hdu) : result exn Arr :=
  match hdata ext with
  | Some (ImageData r) => Ok (if memmap then _scale r else astropy_data r)
  | _ => Raise ValueError
  end.

Definition is_table_class (ext : raw_hdu) : bool :=
  bool_decide (hclass ext = BinTableHDU) || bool_decide (hclass ext = TableHDU).

(** [os.linesep.join(rows).encode('ascii')] *)
Definition join_lines (rows : list string) : list Byte.byte :=
  match rows with
  | [] => []
  | r :: rs =>
      map byte_of_ascii
        (list_ascii_of_string
           (foldl (fun acc l => (acc ++ String "010" l)%string) r rs))
  end.

(** [asdftablehdu_to_wcs]: the transform, or [None] with a warning. *)
Definition asdftablehdu_to_wcs (ext : raw_hdu) : option W :=
  if is_table_class ext then
    match hdata ext with
    | Some (AsciiColumn name _ rows) =>
        if String.eqb name "gWCS" then mjoin (asdf_open (join_lines rows))
        else None
    | Some (ByteColumn name _ bytes) =>
        if String.eqb name "gWCS" then mjoin (asdf_open bytes) else None
    | _ => None
    end
  else None.

Definition skip_names : list string :=
  [DEFAULT_EXTENSION; "REFCAT"%string; "MDF"%string].

(** [associated_extensions(ver)]: [header['EXTNAME']] raises [KeyError]
    for an extension of that version without a name. *)
Fixpoint associated_extensions (hdulist : list raw_hdu) (ver : Z)
    : result exn (list raw_hdu) :=
  match hdulist with
  | [] => Ok []
  | unit :: rest =>
      if bool_decide (EXTVER (hheader unit) = Some ver) then
        match EXTNAME (hheader unit) with
        | None => Raise KeyError
        | Some name =>
            others ← associated_extensions rest ver;
            if bool_decide (name ∈ skip_names) then Ok others
            else Ok (unit :: others)
        end
      else associated_extensions rest ver
  end.

(** The dictionary [parts] of one unit. *)
Record parts : Type := mkParts {
  part_uncertainty : option raw_hdu;
  part_mask : option raw_hdu;
  part_wcs : option raw_hdu;
  part_other : list raw_hdu
}.

Definition add_part (p : parts) (extra_unit : raw_hdu) : parts :=
  let name := EXTNAME (hheader extra_unit) in
  if bool_decide (name = Some "DQ"%string) then
    mkParts (part_uncertainty p) (Some extra_unit) (part_wcs p) (part_other p)
  else if bool_decide (name = Some "VAR"%string) then
    mkParts (Some extra_unit) (part_mask p) (part_wcs p) (part_other p)
  else if bool_decide (name = Some "WCS"%string) then
    mkParts (part_uncertainty p) (part_mask p) (Some extra_unit) (part_other p)
  else
    mkParts (part_uncertainty p) (part_mask p) (part_wcs p)
            (part_other p ++ [extra_unit]).

Definition image_of_opt (memmap : bool) (ext : option raw_hdu)
    : result exn (option Arr) :=
  match ext with
  | None => Ok None
  | Some e => a ← image_of memmap e; Ok (Some a)
  end.

Definition to_wcs_obj (w : option W) : wcs_obj W :=
  match w with
  | Some w => GWCS w
  | None => NoWCS
  end.

(** The transform of a unit of a memory-mapped file: from its [WCS]
    extension, else from its header, else from the primary header; a
    [TypeError] of the derivation is raised again. *)
Definition unit_wcs (phu_header h : header Cards)
    (wcs_ext : option raw_hdu) : result exn (option W) :=
  match wcs_ext ≫= asdftablehdu_to_wcs with
  | Some w => Ok (Some w)
  | None =>
      w ← fitswcs_to_gwcs h;
      match w with
      | Some w => Ok (Some w)
      | None => fitswcs_to_gwcs phu_header
      end
  end.

(** [_process_table] followed by the storing of the table: the table of
    an extension, with its header. *)
Definition table_of (ext : raw_hdu) : option Tbl :=
  match hdata ext with
  | Some (TableData t) => Some t
  | Some p => column_table p
  | None => None
  end.

(** Modelled from the spec: [append] is not among the sources.  With
    [add_to] the spec has the object become a member of that unit by its
    role name; the reader passes here the extensions that are neither
    [VAR], [DQ] nor [WCS], which become auxiliary objects: a table for a
    table extension, an array with its header for an image. *)
Definition append_other (nd : unit_t) (other : raw_hdu) : result exn unit_t :=
  match EXTNAME (hheader other) with
  | None => Raise KeyError
  | Some name =>
      if is_table_class other then
        match table_of other with
        | Some t =>
            Ok (with_other (Windowed.dict_set name (AuxTable t) (nd_other nd)) nd)
        | None => Raise ValueError
        end
      else
        match hdata other with
        | Some (ImageData r) =>
            Ok (mkND (nd_planes nd) (nd_wcs nd) (nd_header nd) (nd_ver nd)
                     (Windowed.dict_set name (AuxArray (astropy_data r))
                                        (nd_other nd))
                     (<[name := hheader other]> (nd_other_header nd)))
        | _ => Raise ValueError
        end
  end.

Fixpoint append_others (nd : unit_t) (others : list raw_hdu)
    : result exn unit_t :=
  match others with
  | [] => Ok nd
  | o :: others' => nd' ← append_other nd o; append_others nd' others'
  end.

(** The state of the loops of [read_fits]: the provider under
    construction and the set [seen]. *)
Record rstate : Type := mkR {
  r_units : list unit_t;
  r_tables : gmap string Tbl;
  seen : gset nat
}.

(** Modelled from the spec: [append] is not among the sources.  Without
    [add_to] the spec has a new unit created, and with [reset_ver=False]
    its version is the one of the extension: the unit is added at the end,
    with the header of the extension and that version.

    The body of [for idx, unit in enumerate(sci_units)].  When the file
    is not memory-mapped, the data, the mask and the uncertainty are
    appended and the next statement evaluates [isinstance(nd, NDData)];
    the module defines no name [NDData] (the import of it is commented
    out): [NameError], for every unit. *)
Definition read_unit (memmap : bool) (hdulist : list raw_hdu)
    (phu_header : header Cards) (st : rstate) (unit : raw_hdu)
    : result exn rstate :=
  let ver := default (-1) (EXTVER (hheader unit)) in
  extras ← associated_extensions hdulist ver;
  let p := foldl add_part (mkParts None None None []) extras in
  if memmap then
    data ← image_of true unit;
    uncertainty ← image_of_opt true (part_uncertainty p);
    mask ← image_of_opt true (part_mask p);
    wcs ← unit_wcs phu_header (hheader unit) (part_wcs p);
    let nd := mkND (mkPlanes data uncertainty mask) (to_wcs_obj wcs)
                   (hheader unit) ver [] ∅ in
    nd ← append_others nd (part_other p);
    Ok (mkR (r_units st ++ [nd]) (r_tables st)
            (seen st ∪ {[hid unit]} ∪ list_to_set (hid <$> extras)))
  else
    _ ← image_of false unit;
    _ ← image_of_opt false (part_mask p);
    _ ← image_of_opt false (part_uncertainty p);
    Raise NameError.

Fixpoint read_units (memmap : bool) (hdulist : list raw_hdu)
    (phu_header : header Cards) (st : rstate) (sci_units : list raw_hdu)
    : result exn rstate :=
  match sci_units with
  | [] => Ok st
  | unit :: rest =>
      st' ← read_unit memmap hdulist phu_header st unit;
      read_units memmap hdulist phu_header st' rest
  end.

(** The body of the last loop, over the extensions not seen.
    Modelled from the spec: [append] is not among the sources.  The spec
    has such an extension added as a free-standing table when it is
    tabular, and otherwise as a new unit with the version of the
    extension; an object that is neither fails with [ValueError], which
    the reader reports with the name of the extension. *)
Definition read_leftover (st : rstate) (other : raw_hdu) : result exn rstate :=
  if bool_decide (hid other ∈ seen st) then Ok st
  else
    let name := EXTNAME (hheader other) in
    if is_table_class other then
      match table_of other with
      | Some t =>
          let key := default (fresh_table_name (r_tables st)) name in
          Ok (mkR (r_units st) (<[key := t]> (r_tables st)) (seen st))
      | None => match name with Some _ => Ok st | None => Raise TypeError end
      end
    else
      match hclass other, hdata other with
      | ImageHDU, Some (ImageData r) =>
          let nd := mkND (mkPlanes (astropy_data r) None None) NoWCS
                         (hheader other)
                         (default (-1) (EXTVER (hheader other))) [] ∅ in
          Ok (mkR (r_units st ++ [nd]) (r_tables st) (seen st))
      | _, _ => match name with Some _ => Ok st | None => Raise TypeError end
      end.

Fixpoint read_leftovers (st : rstate) (hdulist : list raw_hdu)
    : result exn rstate :=
  match hdulist with
  | [] => Ok st
  | other :: rest => st' ← read_leftover st other; read_leftovers st' rest
  end.

(** [read_fits] on an opened list of extensions; [memmap] tells whether
    the file behind it is memory-mapped. *)
Definition read_fits (memmap : bool) (source : list raw_hdu)
    : result exn (provider Arr Tbl W Cards) :=
  hdulist ← _prepare_hdulist strip_structural source DEFAULT_EXTENSION;
  match hdulist with
  | [] => Raise IndexError
  | first :: rest =>
      let phu_header :=
        mkHeader (EXTNAME (hheader first)) (EXTVER (hheader first))
                 (with_origname (cards (hheader first))) in
      let hdulist := with_header phu_header first :: rest in
      let sci_units :=
        filter (fun x => EXTNAME (hheader x) = Some DEFAULT_EXTENSION) rest in
      st ← read_units memmap hdulist phu_header (mkR [] ∅ {[hid first]})
             sci_units;
      st ← read_leftovers st hdulist;
      Ok (mkProvider phu_header (r_units st) (r_tables st))
  end.

End WithCollaborators.
Arguments raw_image : clear implicits.
End Reader.

(** ** Reading back what was written *)

Section RoundTrip.
Context {Arr Tbl W Cards D : Type}.

(** The [(name, version)] of a unit. *)
Definition unit_id (nd : NDData Arr Tbl W Cards) : option string * Z :=
  (EXTNAME (nd_header nd), nd_ver nd).

(** [astropy]'s [writeto] followed by [fits.open]: the extensions come
    back in the order written, as new objects, each image as the stored
    array and scaling [store] chooses for it. *)
Definition on_disk (store : Arr -> Reader.raw_image Arr)
    (hdul : list (hdu Cards (payload Arr Tbl)))
    : list (hdu Cards (payload (Reader.raw_image Arr) Tbl)) :=
  imap (fun i e =>
          mkHdu i (hclass e) (hheader e)
                (match hdata e with
                 | Some (ImageData a) => Some (ImageData (store a))
                 | Some (TableData t) => Some (TableData t)
                 | Some (AsciiColumn n f rows) => Some (AsciiColumn n f rows)
                 | Some (ByteColumn n f bytes) => Some (ByteColumn n f bytes)
                 | None => None
                 end))
       hdul.

End RoundTrip.

(** A container of three extensions: a primary extension named
    [PRIMARY], an image [FOO] of version -7 and an image [SCI] of version
    -5; and the collaborators of a file without transforms, whose arrays
    are stored unscaled. *)
Module Fixture.

Definition container : list (hdu unit (payload (Reader.raw_image (list Z)) unit)) :=
  [mkHdu 0 PrimaryHDU (mkHeader (Some "PRIMARY"%string) None tt) None;
   mkHdu 1 ImageHDU (mkHeader (Some "FOO"%string) (Some (-7)) tt)
         (Some (ImageData (Reader.mkRaw 1%Q 0%Q [7])));
   mkHdu 2 ImageHDU (mkHeader (Some "SCI"%string) (Some (-5)) tt)
         (Some (ImageData (Reader.mkRaw 1%Q 0%Q [5])))].

Definition read (memmap : bool)
    (source : list (hdu unit (payload (Reader.raw_image (list Z)) unit)))
    : result exn (provider (list Z) unit unit unit) :=
  Reader.read_fits (fun _ _ a => a) Reader.raw_data (fun _ => None)
    (fun _ => Ok None) (fun c => c) (fun c => c) (fun _ => None)
    (fun _ => "TABLE1"%string) memmap source.

Definition write (ad : provider (list Z) unit unit unit)
    : result exn (@Writer.wstate (list Z) unit unit) :=
  Writer.write_fits (D := unit) (fun _ _ => GwcsRaise ValueError)
    (fun _ => false) (fun c => c) (fun c _ => c)
    (fun _ => Ok (mkHeader None None tt)) (fun _ => None) (fun _ _ => tt) ad.

Definition store (a : list Z) : Reader.raw_image (list Z) :=
  Reader.mkRaw 1%Q 0%Q a.

(** The container [PRIMARY, SCI 1, VAR 1, DQ 1, SCI 2]. *)
Definition scenario : list (hdu unit (payload (Reader.raw_image (list Z)) unit)) :=
  [mkHdu 0 PrimaryHDU (mkHeader None None tt) None;
   mkHdu 1 ImageHDU (mkHeader (Some "SCI"%string) (Some 1) tt)
         (Some (ImageData (Reader.mkRaw 1%Q 0%Q [1; 2])));
   mkHdu 2 ImageHDU (mkHeader (Some "VAR"%string) (Some 1) tt)
         (Some (ImageData (Reader.mkRaw 1%Q 0%Q [3; 4])));
   mkHdu 3 ImageHDU (mkHeader (Some "DQ"%string) (Some 1) tt)
         (Some (ImageData (Reader.mkRaw 1%Q 0%Q [0; 0])));
   mkHdu 4 ImageHDU (mkHeader (Some "SCI"%string) (Some 2) tt)
         (Some (ImageData (Reader.mkRaw 1%Q 0%Q [5; 6])))].

(** The names and versions of the extensions written for a provider. *)
Definition written (ad : provider (list Z) unit unit unit)
    : result exn (list (hdu_class * option string * option Z)) :=
  st ← write ad;
  Ok (map (fun e => (hclass e, EXTNAME (hheader e), EXTVER (hheader e)))
          (Writer.hdul st)).

(** The units, by name, version and data, of the provider read first and
    of the provider read back. *)
Definition round_trip_of
    (source : list (hdu unit (payload (Reader.raw_image (list Z)) unit)))
    (memmap : bool)
    : result exn (list (option string * Z * list Z) *
                  list (option string * Z * list Z)) :=
  ad1 ← read memmap source;
  st ← write ad1;
  ad2 ← read true (on_disk store (Writer.hdul st));
  Ok (map (fun nd => (unit_id nd, p_data (nd_planes nd))) (_nddata ad1),
      map (fun nd => (unit_id nd, p_data (nd_planes nd))) (_nddata ad2)).

Definition round_trip (memmap : bool)
    : result exn (list (option string * Z * list Z) *
                  list (option string * Z * list Z)) :=
  ad1 ← read memmap container;
  st ← write ad1;
  ad2 ← read true (on_disk store (Writer.hdul st));
  Ok (map (fun nd => (unit_id nd, p_data (nd_planes nd))) (_nddata ad1),
      map (fun nd => (unit_id nd, p_data (nd_planes nd))) (_nddata ad2)).

End Fixture.

(** ** Sample data *)

Module Samples.

(** Two header records, the second without the keyword [GAIN]. *)
Definition headers : list (gmap string Z) :=
  [{[ "GAIN"%string := 2 ]}; ∅].

(** A multi-view of four units of a provider, and the slice [[1::2]]. *)
Definition view : Proxy.t unit := Proxy.mk tt [4; 5; 6; 7] false.

Definition odd_slice : Py.slice := Py.mkSlice (Some 1) None (Some 2).

(** A primary extension and the image [SCI] of version 1. *)
Definition primary : hdu unit unit :=
  mkHdu 0 PrimaryHDU (mkHeader None None tt) None.

Definition sci1 : hdu unit unit := image_ext (Some "SCI"%string) (Some 1).

(** A 3 x 5 array whose element at [(i, j)] is [10 i + j], and a unit
    made of it. *)
Definition grid : Np.ndarray Z :=
  Np.mkArray [3; 5]
    (fun idx => 10 * default 0 (idx !! 0%nat) + default 0 (idx !! 1%nat)).

Definition unit_of (a : Np.ndarray Z) : NDData (Np.ndarray Z) unit unit unit :=
  mkND (mkPlanes a None None) NoWCS
       (mkHeader (Some "SCI"%string) (Some 1) tt) 1 [] ∅.

Definition small : Np.ndarray Z := Np.mkArray [2; 2] (fun _ => 0).

(** A serializer: the document of [true] is the two lines [#ASDF] and
    [x], [false] has a piece without a tag. *)
Definition serializer (w : bool) : option (list Byte.byte) :=
  if w then Some [Byte.x23; Byte.x41; Byte.x53; Byte.x44; Byte.x46;
                  Byte.x0a; Byte.x78]
  else None.

End Samples.

(** ** The header collection: writing, comments and membership *)

Module Cards.
Section WithCards.

(** The values and the comments of header cards; [undefined] is the value
    astropy gives a card created without one, [blank] the comment of a
    card created without a comment. *)
Context {V C : Type} (undefined : V) (blank : C).

(** A header with comments: each keyword has a value and a comment. *)
#[local] Abbreviation header := (gmap string (V * C)).

(** The header as [header[key]] reads it: the values alone. *)
Definition keyword_values (h : header) : gmap string V := fst <$> h.

(** [header.set(key, value=value, comment=comment)] of astropy: on a
    keyword that is present an argument left [None] keeps what the card
    has; otherwise a card is created. *)
Definition header_set (key : string) (value : option V) (comment : option C)
    (h : header) : header :=
  match h !! key with
  | Some (v0, c0) => <[key := (default v0 value, default c0 comment)]> h
  | None => <[key := (default undefined value, default blank comment)]> h
  end.

(** [header.comments[key]]: the comment, or [KeyError]. *)
Definition header_comment (h : header) (key : string) : result exn C :=
  match h !! key with
  | Some (_, c) => Ok c
  | None => Raise KeyError
  end.

(** [FitsHeaderCollection.set] *)
Definition set (hs : list header) (key : string) (value : option V)
    (comment : option C) : list header :=
  map (header_set key value comment) hs.

(** The right-hand side of [collection[key] = ...]: a tuple (value,
    comment), or a value. *)
Inductive assigned : Type :=
| Tuple (value : option V) (comment : option C)
| Plain (value : option V).

(** [FitsHeaderCollection.__setitem__] *)
Definition setitem (hs : list header) (key : string) (a : assigned)
    : list header :=
  match a with
  | Tuple value comment => set hs key value comment
  | Plain value => set hs key value None
  end.

(** [FitsHeaderCollection.__getitem__] and [get] on headers with
    comments. *)
Definition getitem (hs : list header) (key : string)
    : result Headers.MissingKeyError (list (option V)) :=
  Headers.getitem (map keyword_values hs) key.

Definition get (hs : list header) (key : string) (default : option V)
    : list (option V) :=
  Headers.get (map keyword_values hs) key default.

(** [FitsHeaderCollection.__delitem__] *)
Definition delitem (hs : list header) (key : string)
    : list header * result exn unit :=
  Headers.remove hs key.

(** [FitsHeaderCollection.get_comment]: the comprehension stops at the
    first record without the keyword. *)
Fixpoint get_comment (hs : list header) (key : string)
    : result exn (list C) :=
  match hs with
  | [] => Ok []
  | h :: hs' =>
      c ← header_comment h key;
      cs ← get_comment hs' key;
      Ok (c :: cs)
  end.

(** The loop of [set_comment] from the record of index [n] on: the
    records after it, and [Raise m] for the [KeyError] whose message
    ends in [at header m]. *)
Fixpoint set_comment_loop (key : string) (comment : C) (n : nat)
    (hs : list header) : list header * result nat unit :=
  match hs with
  | [] => ([], Ok tt)
  | h :: hs' =>
      if Headers.has_key key h then
        let '(rest, r) := set_comment_loop key comment (S n) hs' in
        (header_set key None (Some comment) h :: rest, r)
      else (h :: hs', Raise n)
  end.

(** [FitsHeaderCollection.set_comment] *)
Definition set_comment (hs : list header) (key : string) (comment : C)
    : list header * result nat unit :=
  set_comment_loop key comment 0 hs.

(** [FitsHeaderCollection.__contains__] *)
Definition contains (hs : list header) (key : string) : bool :=
  existsb (Headers.has_key key) hs.

End WithCards.
End Cards.

(** *** What [_prepare_hdulist] does to a multi-extension file *)

Section PrepareSpec.
Context {Cards Payload : Type}.
Implicit Types (e u : hdu Cards Payload) (hdulist : list (hdu Cards Payload)).

(** [ev not in (-1, None) and eh is not None] *)
Definition named_and_versioned e : bool :=
  negb (no_version (EXTVER (hheader e)))
  && bool_decide (is_Some (EXTNAME (hheader e))).

(** The extensions the first loop keeps. *)
Definition kept_by_first_loop e : bool :=
  named_and_versioned e || is_primary e.

(** The condition of the multi-extension branch. *)
Definition multi_extension hdulist : bool :=
  match hdulist with
  | [] => false
  | first :: _ =>
      bool_decide (1 < length hdulist)%nat
      || (bool_decide (length hdulist = 1%nat)
          && bool_decide (hdata first = None))
  end.

(** [e'] is the extension [e] after the two loops, when the version
    counter was at least [floor] on entry to the second one: the same
    object, class, data and cards; a name only where an image had none;
    a version above [floor] only where an image had none. *)
Definition prepared_above (floor : Z) (default_extension : string) e e'
    : Prop :=
  hid e' = hid e /\ hclass e' = hclass e /\ hdata e' = hdata e
  /\ cards (hheader e') = cards (hheader e)
  /\ EXTNAME (hheader e') =
       (if is_image e
        then Some (default default_extension (EXTNAME (hheader e)))
        else EXTNAME (hheader e))
  /\ (if is_image e && no_version (EXTVER (hheader e))
      then exists v, EXTVER (hheader e') = Some v /\ floor < v
      else EXTVER (hheader e') = EXTVER (hheader e)).

(** The highest version among the named and versioned extensions, and 0
    at least: the counter after the first loop. *)
Definition highest_version hdulist : Z :=
  foldl (fun hv u => if named_and_versioned u
                     then Z.max hv (default 0 (EXTVER (hheader u)))
                     else hv) 0 hdulist.

(** Every image extension has a name and a version. *)
Definition images_identified (l : list (hdu Cards Payload)) : Prop :=
  Forall (fun e => is_image e = true ->
                   is_Some (EXTNAME (hheader e))
                   /\ no_version (EXTVER (hheader e)) = false) l.

End PrepareSpec.

(** A file of a primary extension, an image without keywords and an
    image [SCI] of version 3. *)
Definition prepare_example : list (hdu unit unit) :=
  [mkHdu 0 PrimaryHDU (mkHeader None None tt) None;
   mkHdu 1 ImageHDU (mkHeader None None tt) (Some tt);
   mkHdu 2 ImageHDU (mkHeader (Some "SCI"%string) (Some 3) tt) (Some tt)].

(** No extension other than a primary one has a version below -1. *)
Definition versions_from_minus_one {Cards Payload : Type}
    (l : list (hdu Cards Payload)) : Prop :=
  Forall (fun e => is_primary e = false ->
                   forall v, EXTVER (hheader e) = Some v -> -1 <= v) l.

(** *** The number of blocks *)

(** The quotient rounded up, for a positive divisor. *)
Definition ceil_div (a b : Z) : Z := (a + b - 1) / b.

(** One block per step along every axis, the last one maybe partial. *)
Definition block_count (shp kernel : list Z) : Z :=
  foldr Z.mul 1 (zip_with ceil_div shp kernel).

(** *** Arrays of valid shape, and planes that hold the same elements *)

Section CropMore.
Context {px : Type}.

(** The axes of an array have non-negative lengths. *)
Definition valid_shape (a : Np.ndarray px) : Prop :=
  Forall (fun n => 0 <= n) (Np.shape a).

Definition planes_valid (p : planes (Np.ndarray px)) : Prop :=
  valid_shape (p_data p)
  /\ from_option valid_shape True (p_uncertainty p)
  /\ from_option valid_shape True (p_mask p).

Definition same_planes (p q : planes (Np.ndarray px)) : Prop :=
  Np.same_array (p_data p) (p_data q)
  /\ option_Forall2 Np.same_array (p_uncertainty p) (p_uncertainty q)
  /\ option_Forall2 Np.same_array (p_mask p) (p_mask q).

(** The length left of an axis of length [n] by the bounds [lo] and
    [hi] of a window, both clipped to the axis. *)
Definition clipped_len (lo hi n : Z) : Z :=
  Z.max 0 (Z.min (hi + 1) n - Z.min lo n).

End CropMore.

(** *** Documents made of lines *)

(** The document whose lines are [ls], each ended by a line feed. *)
Definition unlines (ls : list (list ascii)) : list ascii :=
  flat_map (fun l => l ++ ["010"%char]) ls.

(** A line without a line boundary inside. *)
Definition plain_line (l : list ascii) : Prop :=
  Forall (fun c => Codec.is_cr c = false /\ Codec.is_linebreak c = false) l.

(** ** Deleting attributes: [FitsProvider.__delattr__] and
    [FitsProviderProxy.__delattr__] *)

Module Attr.
Section WithNames.
Context {Arr Tbl W Cards : Type}.

(** [str.isupper] of Python. *)
Context (isupper : string -> bool).

(** [FitsProvider.__delattr__]: the tables of the container and the
    names in the dictionary of the instance after the call, and its
    outcome, for a container whose [_tables] is a dictionary.  The
    [KeyError] of either [del] becomes [AttributeError]; the first [del]
    has been done when the second one fails. *)
Definition provider_delattr (tables : gmap string Tbl) (names : gset string)
    (attribute : string) : gmap string Tbl * gset string * result exn unit :=
  if negb (isupper attribute) then (tables, names, Raise ValueError)
  else
    match tables !! attribute with
    | None => (tables, names, Raise AttributeError)
    | Some _ =>
        if bool_decide (attribute ∈ names)
        then (delete attribute tables, names ∖ {[attribute]}, Ok tt)
        else (delete attribute tables, names, Raise AttributeError)
    end.

(** [FitsProviderProxy.__delattr__]; [nd] is the object the expression
    [self.nddata] gives, whose [meta['other']] and [meta['other_header']]
    the method changes. *)
Definition proxy_delattr (single : bool) (nd : NDData Arr Tbl W Cards)
    (attribute : string) : NDData Arr Tbl W Cards * result exn unit :=
  if negb (isupper attribute) then (nd, Raise ValueError)
  else if negb single then (nd, Raise TypeError)
  else if bool_decide (attribute ∈ map fst (nd_other nd)) then
    (mkND (nd_planes nd) (nd_wcs nd) (nd_header nd) (nd_ver nd)
          (Windowed.dict_del attribute (nd_other nd))
          (delete attribute (nd_other_header nd)),
     Ok tt)
  else (nd, Raise AttributeError).

End WithNames.
End Attr.

(** A file of a primary extension, the image [SCI] of version 1 and a
    binary table of version 1 without a name. *)
Definition nameless_table_example
    : list (hdu unit (payload (Reader.raw_image (list Z)) unit)) :=
  [mkHdu 0 PrimaryHDU (mkHeader None None tt) None;
   mkHdu 1 ImageHDU (mkHeader (Some "SCI"%string) (Some 1) tt)
         (Some (ImageData (Reader.mkRaw 1%Q 0%Q [1; 2])));
   mkHdu 2 BinTableHDU (mkHeader None (Some 1) tt) (Some (TableData tt))].

(** *** A call of a single block *)





(** ** The units a read gives, extension by extension *)

Section UnitsRead.
Context {Arr Tbl W Cards : Type}.

#[local] Abbreviation raw_ext :=
  (hdu Cards (payload (Reader.raw_image Arr) Tbl)).

(** The name, the version and the primary array of a unit. *)
Definition unit_info (nd : NDData Arr Tbl W Cards)
    : option string * Z * Arr :=
  (unit_id nd, p_data (nd_planes nd)).

(** [nd] is a unit made of the extension [x]: it has its header, its
    version, [-1] without one, and as primary array what [array_of]
    gives for the stored image. *)
Definition made_of (array_of : Reader.raw_image Arr -> Arr) (x : raw_ext)
    (nd : NDData Arr Tbl W Cards) : Prop :=
  nd_header nd = hheader x
  /\ nd_ver nd = default (-1) (EXTVER (hheader x))
  /\ exists r, hdata x = Some (ImageData r)
               /\ p_data (nd_planes nd) = array_of r.

(** The condition under which [associated_extensions(ver)] keeps an
    extension. *)
Definition associated (ver : Z) (x : raw_ext) : bool :=
  bool_decide (EXTVER (hheader x) = Some ver)
  && match EXTNAME (hheader x) with
     | Some name => bool_decide (name ∉ Reader.skip_names)
     | None => false
     end.

(** An extension the first loop of [read_fits] takes, as a unit or as a
    part of the unit of one of the [versions]. *)
Definition claimed (versions : list Z) (x : raw_ext) : bool :=
  bool_decide (EXTNAME (hheader x) = Some DEFAULT_EXTENSION)
  || existsb (fun ver => associated ver x) versions.

(** The extension holds an image. *)
Definition image_data (x : raw_ext) : bool :=
  match hdata x with
  | Some (ImageData _) => true
  | _ => false
  end.

(** An extension the last loop makes a unit of, when it was not seen. *)
Definition leftover_image (x : raw_ext) : bool :=
  bool_decide (hclass x = ImageHDU) && image_data x.

(** The auxiliary objects the reader gives a unit: tables and arrays
    under names other than the skipped ones, the headers of the arrays
    with the version of the unit. *)
Definition read_auxiliaries (nd : NDData Arr Tbl W Cards) : Prop :=
  Forall (fun kv => (fst kv ∉ Reader.skip_names)
                    /\ match snd kv with
                       | AuxTable _ | AuxArray _ => True
                       | _ => False
                       end) (nd_other nd)
  /\ map_Forall (fun _ h => EXTVER h = Some (nd_ver nd)) (nd_other_header nd).

(** A unit of a primary array alone. *)
Definition plain_unit (nd : NDData Arr Tbl W Cards) : Prop :=
  nd_other nd = [] /\ nd_wcs nd = NoWCS
  /\ p_uncertainty (nd_planes nd) = None /\ p_mask (nd_planes nd) = None.

(** The versions of the extensions named [SCI]. *)
Definition sci_versions (rest : list raw_ext) : list Z :=
  map (fun u => default (-1) (EXTVER (hheader u)))
      (filter (fun x => EXTNAME (hheader x) = Some DEFAULT_EXTENSION) rest).

(** The extension [fits.open] gives under the identity [i] for one that
    was written with the class, the header and the content [v]. *)
Definition read_back (store : Arr -> Reader.raw_image Arr) (i : nat)
    (v : hdu_class * header Cards * option (payload Arr Tbl)) : raw_ext :=
  mkHdu i (fst (fst v)) (snd (fst v))
        (match snd v with
         | Some (ImageData a) => Some (ImageData (store a))
         | Some (TableData t) => Some (TableData t)
         | Some (AsciiColumn n f rows) => Some (AsciiColumn n f rows)
         | Some (ByteColumn n f bytes) => Some (ByteColumn n f bytes)
         | None => None
         end).

(** The name, the version and the primary array of the unit made of an
    extension that holds an image. *)
Definition ext_info (array_of : Reader.raw_image Arr -> Arr) (x : raw_ext)
    : option (option string * Z * Arr) :=
  match hdata x with
  | Some (ImageData r) =>
      Some (EXTNAME (hheader x), default (-1) (EXTVER (hheader x)),
            array_of r)
  | _ => None
  end.

(** An extension without its identity. *)
Definition erase (x : raw_ext) : raw_ext :=
  mkHdu 0 (hclass x) (hheader x) (hdata x).

(** What the preparation of a list asks of an extension other than the
    primary one for the list to come back as it is, in the order of the
    keys: no version below -1, and a name and a version on every
    image. *)
Definition settled (x : raw_ext) : Prop :=
  is_primary x = false
  /\ (forall v, EXTVER (hheader x) = Some v -> -1 <= v)
  /\ (image_data x = true -> kept_by_first_loop x = true).

End UnitsRead.

(** * Properties *)

(** ** Auxiliary facts on lists *)

Section ListFacts.
Context {A : Type}.

Lemma StronglySorted_list_filter (R : relation A) (f : A -> bool) (l : list A) :
  StronglySorted R l -> StronglySorted R (List.filter f l).
Proof.
  induction 1 as [|x l Hl IH Hx]; cbn; [constructor|].
  destruct (f x); [|exact IH].
  constructor; [exact IH|].
  rewrite List.Forall_forall in *. intros y Hy.
  apply List.filter_In in Hy as [Hy _]. by apply Hx.
Qed.

Lemma lookup_map {B : Type} (f : A -> B) (l : list A) (i : nat) :
  map f l !! i = f <$> l !! i.
Proof.
  revert i. induction l as [|x l IH]; intros [|i]; cbn; try done.
Qed.

End ListFacts.

Lemma StronglySorted_seq (a n : nat) : StronglySorted lt (seq a n).
Proof.
  revert a. induction n as [|n IH]; intros a; cbn; constructor; [apply IH|].
  rewrite List.Forall_forall. intros y Hy. apply in_seq in Hy. lia.
Qed.

(** ** Header collection *)

Section HeaderFacts.
Context {V : Type}.
Implicit Types (h : gmap string V) (hs : list (gmap string V)) (key : string).

Lemma has_key_true key h : Headers.has_key key h = true <-> is_Some (h !! key).
Proof. unfold Headers.has_key. rewrite bool_decide_eq_true. done. Qed.

Lemma has_key_false key h : Headers.has_key key h = false <-> h !! key = None.
Proof.
  unfold Headers.has_key. rewrite bool_decide_eq_false, eq_None_not_Some. done.
Qed.

Lemma missing_indices_cons key h hs :
  Headers.missing_indices (h :: hs) key =
  (if Headers.has_key key h then [] else [0%nat]) ++
  map S (Headers.missing_indices hs key).
Proof.
  unfold Headers.missing_indices. cbn [length seq List.filter].
  unfold Headers.lacks_at at 1. cbn [lookup list_lookup].
  rewrite <- seq_shift, List.filter_map_swap.
  destruct (Headers.has_key key h); reflexivity.
Qed.

Lemma getitem_loop_spec key hs : forall n st,
  Headers.getitem_loop key n hs st =
  Headers.mkGetitem
    (Headers.gs_raised st || negb (forallb (Headers.has_key key) hs))
    (Headers.gs_missing_at st ++ map (Nat.add n) (Headers.missing_indices hs key))
    (Headers.gs_ret st ++ map (fun h => h !! key) hs).
Proof.
  induction hs as [|h hs IH]; intros n [r m v]; cbn [Headers.getitem_loop].
  - cbn. rewrite orb_false_r, !app_nil_r. reflexivity.
  - rewrite IH, missing_indices_cons. unfold Headers.getitem_step, Headers.header_getitem.
    cbn [forallb map]. rewrite map_app, map_map.
    destruct (h !! key) as [x|] eqn:E.
    + assert (Headers.has_key key h = true) as -> by (apply has_key_true; eauto).
      cbn. rewrite <- app_assoc. f_equal.
      f_equal. apply map_ext. intros; lia.
    + assert (Headers.has_key key h = false) as -> by (by apply has_key_false).
      cbn. rewrite orb_true_r, <- !app_assoc, Nat.add_0_r. cbn. f_equal.
      do 2 f_equal. apply map_ext. intros; lia.
Qed.

Lemma missing_indices_elem hs key n :
  n ∈ Headers.missing_indices hs key <->
  exists h, hs !! n = Some h /\ h !! key = None.
Proof.
  unfold Headers.missing_indices, Headers.lacks_at.
  rewrite list_elem_of_In, List.filter_In, in_seq. split.
  - intros [_ H]. destruct (hs !! n) as [h|]; [|discriminate].
    exists h. split; [done|]. apply has_key_false. by destruct (Headers.has_key key h).
  - intros (h & Hn & Hk). split.
    + apply lookup_lt_Some in Hn. lia.
    + rewrite Hn. apply has_key_false in Hk. by rewrite Hk.
Qed.

Lemma fill_default_length (d : option V) ns : forall vals,
  length (Headers.fill_default d ns vals) = length vals.
Proof.
  induction ns as [|m ns IH]; intros vals; cbn; [done|].
  by rewrite IH, length_insert.
Qed.

Lemma fill_default_lookup (d : option V) ns : forall vals n,
  Headers.fill_default d ns vals !! n =
  if decide (n ∈ ns /\ (n < length vals)%nat) then Some d else vals !! n.
Proof.
  induction ns as [|m ns IH]; intros vals n; cbn [Headers.fill_default].
  - case_decide as H; [|done]. destruct H as [H _]. by apply elem_of_nil in H.
  - rewrite IH, length_insert.
    destruct (decide (n = m)) as [->|Hne].
    + destruct (decide (m < length vals)%nat) as [Hlt|Hge].
      * rewrite list_lookup_insert_eq by done.
        rewrite (decide_True (P := m ∈ m :: ns /\ _)) by (split; [left|done]).
        by case_decide.
      * rewrite list_insert_ge by lia.
        rewrite !decide_False by (intros [_ ?]; lia). done.
    + rewrite list_lookup_insert_ne by done.
      apply decide_ext. rewrite elem_of_cons. intuition congruence.
Qed.

(** C7. The batched read of a keyword: [__getitem__] returns the values of
    all records when each has the keyword, and otherwise raises the error
    that carries the indices of exactly the records without it, together
    with the list of values read ([None] at the missing places); [get]
    never raises and returns that list with the default at exactly the
    missing places. *)
Theorem headers_get_contract hs key :
  Headers.getitem hs key =
    (if forallb (Headers.has_key key) hs
     then Ok (map (fun h => h !! key) hs)
     else Raise (Headers.mkMissing (Headers.missing_indices hs key)
                                   (map (fun h => h !! key) hs)))
  /\ (forallb (Headers.has_key key) hs = true <->
      Forall (fun h => is_Some (h !! key)) hs)
  /\ (forall n, n ∈ Headers.missing_indices hs key <->
                exists h, hs !! n = Some h /\ h !! key = None)
  /\ StronglySorted lt (Headers.missing_indices hs key)
  /\ (forall default,
        Headers.get hs key default = map (Headers.value_or key default) hs).
Proof.
  assert (Hget : Headers.getitem hs key =
    (if forallb (Headers.has_key key) hs
     then Ok (map (fun h => h !! key) hs)
     else Raise (Headers.mkMissing (Headers.missing_indices hs key)
                                   (map (fun h => h !! key) hs)))).
  { unfold Headers.getitem. rewrite getitem_loop_spec. cbn.
    destruct (forallb (Headers.has_key key) hs); cbn; [done|].
    f_equal. f_equal. rewrite <- (map_id (Headers.missing_indices hs key)) at 2.
    apply map_ext. done. }
  split; [exact Hget|]. split; [|split; [|split]].
  - rewrite forallb_forall, List.Forall_forall. split; intros H h Hin.
    + apply has_key_true. by apply H.
    + apply has_key_true. by apply H.
  - apply missing_indices_elem.
  - unfold Headers.missing_indices.
    apply StronglySorted_list_filter, StronglySorted_seq.
  - intros d. unfold Headers.get. rewrite Hget.
    destruct (forallb (Headers.has_key key) hs) eqn:Hall.
    + apply map_ext_in. intros h Hin. unfold Headers.value_or.
      rewrite forallb_forall in Hall. apply Hall, has_key_true in Hin.
      by destruct Hin as [v ->].
    + cbn. apply list_eq. intros n. rewrite fill_default_lookup, length_map.
      rewrite !lookup_map. unfold Headers.value_or.
      destruct (hs !! n) as [h|] eqn:Hn; cbn.
      * apply lookup_lt_Some in Hn as Hlt.
        destruct (h !! key) as [v|] eqn:Hk.
        -- rewrite decide_False; [done|].
           intros [Hin _]. apply missing_indices_elem in Hin as (h' & Hn' & Hk').
           congruence.
        -- rewrite decide_True; [done|]. split; [|done].
           apply missing_indices_elem. eauto.
      * apply lookup_ge_None in Hn. rewrite decide_False; [done|]. lia.
Qed.

Lemma remove_loop_spec key hs : forall d,
  Headers.remove_loop key hs d =
  (map (fun h => if Headers.has_key key h then delete key h else h) hs,
   (d + length (List.filter (Headers.has_key key) hs))%nat).
Proof.
  induction hs as [|h hs IH]; intros d; cbn [Headers.remove_loop].
  - cbn. f_equal. lia.
  - unfold Headers.header_delitem. cbn [map List.filter].
    destruct (h !! key) as [v|] eqn:Hk.
    + assert (Headers.has_key key h = true) as -> by (apply has_key_true; eauto).
      rewrite IH. cbn. f_equal. lia.
    + assert (Headers.has_key key h = false) as -> by (by apply has_key_false).
      rewrite IH. done.
Qed.

(** C8. [remove] deletes the keyword from every record that has it, leaves
    the records without it as they were, and raises [KeyError] exactly when
    no record had the keyword. *)
Theorem headers_remove_contract hs key :
  (forall n h, hs !! n = Some h ->
     fst (Headers.remove hs key) !! n =
     Some (if Headers.has_key key h then delete key h else h))
  /\ length (fst (Headers.remove hs key)) = length hs
  /\ (forall n h', fst (Headers.remove hs key) !! n = Some h' -> h' !! key = None)
  /\ (snd (Headers.remove hs key) = Raise KeyError <->
      Forall (fun h => h !! key = None) hs)
  /\ (snd (Headers.remove hs key) = Ok tt <->
      Exists (fun h => is_Some (h !! key)) hs).
Proof.
  unfold Headers.remove. rewrite remove_loop_spec. cbn [fst snd].
  assert (Hcount : length (List.filter (Headers.has_key key) hs) = 0%nat <->
                   Forall (fun h => h !! key = None) hs).
  { induction hs as [|h hs IH]; cbn.
    - split; [constructor|done].
    - destruct (Headers.has_key key h) eqn:Hk; cbn.
      + split; [done|]. intros H. inversion H as [|? ? Hh _]; subst.
        apply has_key_false in Hh. congruence.
      + rewrite IH. apply has_key_false in Hk. split.
        * by constructor.
        * by inversion 1. }
  split; [|split; [|split; [|split]]].
  - intros n h Hn. by rewrite lookup_map, Hn.
  - by rewrite length_map.
  - intros n h'. rewrite lookup_map.
    destruct (hs !! n) as [h|]; [|done]. cbn. intros [= <-].
    destruct (Headers.has_key key h) eqn:Hk.
    + apply lookup_delete_eq.
    + by apply has_key_false.
  - rewrite <- Hcount. cbn.
    destruct (length (List.filter (Headers.has_key key) hs)); cbn; split; done.
  - assert (Hex : Exists (fun h => is_Some (h !! key)) hs <->
                  length (List.filter (Headers.has_key key) hs) <> 0%nat).
    { clear Hcount. induction hs as [|h hs IH]; cbn.
      - split; [by inversion 1|done].
      - rewrite Exists_cons, IH. destruct (Headers.has_key key h) eqn:Hk; cbn.
        + apply has_key_true in Hk. split; [done|by left].
        + apply has_key_false in Hk. split; [|by right].
          intros [[v Hv]|]; [congruence|done]. }
    rewrite Hex. cbn.
    destruct (length (List.filter (Headers.has_key key) hs)); cbn; split; done.
Qed.

End HeaderFacts.

(** ** Python ranges and slices *)

Section PyFacts.

Lemma range_len_nonneg start stop step : 0 <= Py.range_len start stop step.
Proof.
  unfold Py.range_len.
  destruct (0 <? step) eqn:Hs; [apply Z.ltb_lt in Hs|].
  - destruct (start <? stop) eqn:Hl; [apply Z.ltb_lt in Hl|lia].
    assert (0 <= (stop - start - 1) / step) by (apply Z.div_pos; lia). lia.
  - destruct (step <? 0) eqn:Hn; [apply Z.ltb_lt in Hn|lia].
    destruct (stop <? start) eqn:Hl; [apply Z.ltb_lt in Hl|lia].
    assert (0 <= (start - stop - 1) / - step) by (apply Z.div_pos; lia). lia.
Qed.

Lemma range_elem start stop step x :
  x ∈ Py.range start stop step <->
  exists k, 0 <= k < Py.range_len start stop step /\ x = start + k * step.
Proof.
  unfold Py.range. rewrite list_elem_of_In, in_map_iff. split.
  - intros (k & <- & Hk). apply in_seq in Hk. exists (Z.of_nat k). split; [lia|done].
  - intros (k & Hk & ->). exists (Z.to_nat k). split; [by rewrite Z2Nat.id by lia|].
    apply in_seq. lia.
Qed.

Lemma range_length start stop step :
  Z.of_nat (length (Py.range start stop step)) = Py.range_len start stop step.
Proof.
  unfold Py.range. rewrite length_map, length_seq.
  pose proof (range_len_nonneg start stop step). lia.
Qed.

Lemma range_bounds_up start stop step x :
  0 < step -> x ∈ Py.range start stop step -> start <= x < stop.
Proof.
  intros Hs (k & Hk & ->)%range_elem. unfold Py.range_len in Hk.
  apply Z.ltb_lt in Hs as Hs'. rewrite Hs' in Hk.
  destruct (start <? stop) eqn:Hl; [apply Z.ltb_lt in Hl|lia].
  pose proof (Z.mul_div_le (stop - start - 1) step Hs). nia.
Qed.

Lemma range_bounds_down start stop step x :
  step < 0 -> x ∈ Py.range start stop step -> stop < x <= start.
Proof.
  intros Hs (k & Hk & ->)%range_elem. unfold Py.range_len in Hk.
  assert ((0 <? step) = false) as Hs' by lia. rewrite Hs' in Hk.
  apply Z.ltb_lt in Hs as Hs''. rewrite Hs'' in Hk.
  destruct (stop <? start) eqn:Hl; [apply Z.ltb_lt in Hl|lia].
  assert (0 < - step) as Hpos by lia.
  pose proof (Z.mul_div_le (start - stop - 1) (- step) Hpos). nia.
Qed.

(** The elements of [range( *s.indices(len))] are valid positions. *)
Lemma slice_indices_in_range s len start stop step x :
  0 <= len ->
  Py.slice_indices s len = Ok (start, stop, step) ->
  x ∈ Py.range start stop step -> 0 <= x < len.
Proof.
  intros Hlen Hs Hx. unfold Py.slice_indices, Py.adjust_bound in Hs.
  destruct (default 1 (Py.sl_step s) =? 0) eqn:H0; [done|].
  apply Z.eqb_neq in H0. injection Hs as <- <- <-.
  destruct (default 1 (Py.sl_step s) <? 0) eqn:Hneg.
  - apply Z.ltb_lt in Hneg. apply range_bounds_down in Hx; [|done].
    destruct (Py.sl_start s) as [a|], (Py.sl_stop s) as [b|];
      repeat match goal with
             | H : context [if ?c then _ else _] |- _ => destruct c eqn:?
             end; lia.
  - apply Z.ltb_ge in Hneg. apply range_bounds_up in Hx; [|lia].
    destruct (Py.sl_start s) as [a|], (Py.sl_stop s) as [b|];
      repeat match goal with
             | H : context [if ?c then _ else _] |- _ => destruct c eqn:?
             end; lia.
Qed.

Lemma slice_indices_ok s len :
  Py.sl_step s <> Some 0 ->
  exists start stop step,
    Py.slice_indices s len = Ok (start, stop, step) /\ step <> 0.
Proof.
  intros Hs. unfold Py.slice_indices.
  destruct (default 1 (Py.sl_step s) =? 0) eqn:H0.
  - apply Z.eqb_eq in H0. destruct (Py.sl_step s) as [c|]; cbn in H0; [|done].
    subst. done.
  - apply Z.eqb_neq in H0. eauto.
Qed.

Lemma getitem_ok {A} (l : list A) (i : Z) :
  0 <= i < Z.of_nat (length l) ->
  exists x, l !! Z.to_nat i = Some x /\ Py.getitem l i = Ok x.
Proof.
  intros Hi. unfold Py.getitem.
  assert ((i <? 0) = false) as -> by lia.
  assert (((i <? 0) || (Z.of_nat (length l) <=? i)) = false) as -> by lia.
  destruct (l !! Z.to_nat i) as [x|] eqn:Hx; [eauto|].
  apply lookup_ge_None in Hx. lia.
Qed.

Lemma comprehension_getitem_ok {A} (l : list A) (idxs : list Z) :
  Forall (fun i => 0 <= i < Z.of_nat (length l)) idxs ->
  exists xs, Py.comprehension (Py.getitem l) idxs = Ok xs /\
             Forall2 (fun i x => l !! Z.to_nat i = Some x) idxs xs.
Proof.
  induction 1 as [|i idxs Hi _ (xs & Hxs & IH)]; cbn.
  - exists []. split; [done|constructor].
  - destruct (getitem_ok l i Hi) as (x & Hx & ->). cbn. rewrite Hxs. cbn.
    exists (x :: xs). split; [done|by constructor].
Qed.

(** Indexing [range(n)] at valid positions gives the positions back. *)
Lemma range_lookup_self n i :
  0 <= i < Py.range_len 0 n 1 -> Py.range 0 n 1 !! Z.to_nat i = Some i.
Proof.
  intros Hi. unfold Py.range. rewrite lookup_map, lookup_seq_lt by lia.
  cbn. f_equal. lia.
Qed.

End PyFacts.

(** ** Slicing proxy *)

Section ProxyFacts.
Context {Provider : Type}.
Implicit Types (p : Proxy.t Provider) (s : Py.slice).

Lemma proxy_len_range len0 : 0 <= len0 -> Py.range_len 0 len0 1 = len0.
Proof.
  intros H. unfold Py.range_len. cbn [Z.ltb Z.compare].
  destruct (0 <? len0) eqn:Hl; [|lia]. rewrite Z.div_1_r. lia.
Qed.

(** C4. Slicing a multi-view [p] with a valid slice [s] normalizes [s]
    against the length of [p]'s own index list and maps the selected
    positions through that list (so [p[s]] holds [p._mapping[s]]); when
    [p] covers all [N] units its length is that of [range(N)[s]];
    iterating the result yields one single-view per selected provider
    index, in order; and indexing a single-view raises [TypeError]. *)
Theorem proxy_getitem_slice p s :
  Py.sl_step s <> Some 0 ->
  (Proxy.is_single p = true ->
     forall slc, Proxy.getitem p slc = Raise TypeError)
  /\ (Proxy.is_single p = false ->
      exists positions mapped,
        normalize_indices (SelSlice s) (Proxy.len p) = Ok (positions, true)
        /\ Forall2 (fun i n => 0 <= i < Proxy.len p /\
                               Proxy._mapping p !! Z.to_nat i = Some n)
                   positions mapped
        /\ Py.getslice (Proxy._mapping p) s = Ok mapped
        /\ Proxy.getitem p (SelSlice s) =
           Ok (Proxy.mk (Proxy._provider p) mapped false)
        /\ Proxy.iter (Proxy.mk (Proxy._provider p) mapped false) =
           map (fun n => Proxy.mk (Proxy._provider p) [n] true) mapped
        /\ (forall N, Proxy._mapping p = Py.range 0 N 1 ->
              Py.range_getslice N s = Ok mapped /\
              Proxy.len (Proxy.mk (Proxy._provider p) mapped false) =
              Z.of_nat (length positions))).
Proof.
  intros Hstep. split.
  - intros Hsingle slc. unfold Proxy.getitem. by rewrite Hsingle.
  - intros Hmulti.
    assert (Hlen : 0 <= Proxy.len p) by (unfold Proxy.len; lia).
    destruct (slice_indices_ok s (Proxy.len p) Hstep)
      as (start & stop & step & Hidx & Hnz).
    set (positions := Py.range start stop step).
    assert (Hpos : Forall (fun i => 0 <= i < Z.of_nat (length (Proxy._mapping p)))
                          positions).
    { apply List.Forall_forall. intros x Hx. apply list_elem_of_In in Hx.
      exact (slice_indices_in_range s _ _ _ _ x Hlen Hidx Hx). }
    destruct (comprehension_getitem_ok (Proxy._mapping p) positions Hpos)
      as (mapped & Hcomp & Hall).
    assert (Hnorm : normalize_indices (SelSlice s) (Proxy.len p) =
                    Ok (positions, true)).
    { unfold normalize_indices, Py.range_getslice.
      rewrite proxy_len_range by done. rewrite Hidx. cbn.
      rewrite !Z.mul_1_r, Z.mul_1_l. done. }
    assert (Hcover : forall N, Proxy._mapping p = Py.range 0 N 1 ->
                       Py.range_len 0 N 1 = Proxy.len p /\ mapped = positions).
    { intros N HN. assert (HlenN : Py.range_len 0 N 1 = Proxy.len p).
      { unfold Proxy.len. by rewrite HN, range_length. }
      split; [done|]. symmetry.
      clear -Hall Hpos HN HlenN. unfold Proxy.len in HlenN.
      induction Hall as [|i n li ln Hi _ IH]; [done|].
      inversion Hpos as [|? ? Hi0 Hpos']; subst. f_equal; [|by apply IH].
      rewrite HN, range_lookup_self in Hi by lia. congruence. }
    exists positions, mapped. repeat split.
    + exact Hnorm.
    + clear -Hall Hpos. induction Hall as [|i n li ln Hi _ IH];
        constructor.
      * inversion Hpos; subst. unfold Proxy.len. done.
      * inversion Hpos; subst. by apply IH.
    + unfold Py.getslice. fold (Proxy.len p). rewrite Hidx. cbn. exact Hcomp.
    + unfold Proxy.getitem. rewrite Hmulti, Hnorm. cbn. rewrite Hcomp. done.
    + destruct (Hcover N H) as [HlenN ->].
      unfold Py.range_getslice. rewrite HlenN, Hidx. cbn.
      by rewrite !Z.mul_1_r, Z.mul_1_l.
    + destruct (Hcover N H) as [_ ->]. done.
Qed.

End ProxyFacts.

(** ** The sort key of the reader *)

Section SortKeyFacts.
Context {Cards Payload : Type}.
Implicit Types (e p : hdu Cards Payload) (k : Z * string).

Lemma string_compare_refl (s : string) : String.compare s s = Eq.
Proof.
  induction s as [|a s IH]; cbn; [done|].
  unfold Ascii.compare. by rewrite N.compare_refl.
Qed.

Lemma key_leb_spec k1 k2 :
  key_leb k1 k2 = true <->
  fst k1 < fst k2 \/ (fst k1 = fst k2 /\ String.le (snd k1) (snd k2)).
Proof.
  unfold key_leb, key_compare, String.le, String.leb.
  destruct (Z.compare_spec (fst k1) (fst k2)) as [Heq|Hlt|Hgt].
  - destruct (String.compare (snd k1) (snd k2)); cbn; split;
      try done; try (intros; right; done); intros [?|[_ ?]]; try lia; done.
  - split; [by left|done].
  - split; [done|]. intros [?|[? _]]; lia.
Qed.

Lemma key_ltb_spec k1 k2 :
  key_ltb k1 k2 = true <->
  fst k1 < fst k2 \/
  (fst k1 = fst k2 /\ String.compare (snd k1) (snd k2) = Lt).
Proof.
  unfold key_ltb, key_compare.
  destruct (Z.compare_spec (fst k1) (fst k2)) as [Heq|Hlt|Hgt].
  - destruct (String.compare (snd k1) (snd k2)); cbn; split;
      try done; try (intros; right; done); intros [?|[_ ?]]; try lia; done.
  - split; [by left|done].
  - split; [done|]. intros [?|[? ?]]; lia.
Qed.

Lemma key_leb_total k1 k2 : key_leb k1 k2 = true \/ key_leb k2 k1 = true.
Proof.
  rewrite !key_leb_spec.
  destruct (Z.lt_total (fst k1) (fst k2)) as [?|[Heq|?]]; [by left; left| |by right; left].
  destruct (total String.le (snd k1) (snd k2)); [left|right]; right; done.
Qed.

Lemma key_leb_trans k1 k2 k3 :
  key_leb k1 k2 = true -> key_leb k2 k3 = true -> key_leb k1 k3 = true.
Proof.
  rewrite !key_leb_spec. intros [H12|[H12 S12]] [H23|[H23 S23]].
  - left; lia.
  - left; lia.
  - left; lia.
  - right. split; [lia|]. by etrans.
Qed.

Lemma key_ltb_leb k1 k2 : key_ltb k1 k2 = true -> key_leb k1 k2 = true.
Proof. unfold key_ltb, key_leb. by destruct (key_compare k1 k2). Qed.

(** *** The stable sort *)

Lemma sorted_insert_perm {A} (key : A -> Z * string) x (l : list A) :
  sorted_insert key x l ≡ₚ x :: l.
Proof.
  induction l as [|y l IH]; cbn; [done|].
  destruct (key_leb (key x) (key y)); [done|].
  rewrite IH. apply Permutation_swap.
Qed.

Lemma sorted_perm {A} (key : A -> Z * string) (l : list A) :
  sorted key l ≡ₚ l.
Proof.
  induction l as [|x l IH]; cbn; [done|].
  by rewrite sorted_insert_perm, IH.
Qed.

Lemma sorted_insert_sorted {A} (key : A -> Z * string) x (l : list A) :
  StronglySorted (key_le key) l ->
  StronglySorted (key_le key) (sorted_insert key x l).
Proof.
  induction 1 as [|y l Hl IH Hy]; cbn; [repeat constructor|].
  destruct (key_leb (key x) (key y)) eqn:Hxy.
  - constructor; [by constructor|]. constructor; [done|].
    eapply Forall_impl; [exact Hy|]. intros z Hz. unfold key_le in *.
    by eapply key_leb_trans.
  - constructor; [done|].
    rewrite sorted_insert_perm. constructor; [|done].
    unfold key_le. destruct (key_leb_total (key x) (key y)); congruence.
Qed.

Lemma sorted_sorted {A} (key : A -> Z * string) (l : list A) :
  StronglySorted (key_le key) (sorted key l).
Proof.
  induction l as [|x l IH]; cbn; [constructor|].
  by apply sorted_insert_sorted.
Qed.

(** A list that is already in order is returned as it is. *)
Lemma sorted_id {A} (key : A -> Z * string) (l : list A) :
  StronglySorted (key_le key) l -> sorted key l = l.
Proof.
  unfold sorted. induction 1 as [|x l Hl IH Hx]; cbn [foldr]; [done|].
  rewrite IH. destruct l as [|y l']; cbn; [done|].
  inversion Hx as [|? ? Hxy _]; subst. unfold key_le in Hxy. by rewrite Hxy.
Qed.

End SortKeyFacts.

Section SortKeyOrder.
Context {Cards Payload : Type}.
Implicit Types e : hdu Cards Payload.

Lemma key_not_primary e :
  is_primary e = false ->
  fits_ext_comp_key e =
  (if no_version (EXTVER (hheader e)) then 2 ^ 32 - 1 else version_of e,
   match EXTNAME (hheader e) with
   | None => "zzzz"%string
   | Some name => if String.eqb name DEFAULT_EXTENSION then name
                  else String "z" name
   end).
Proof.
  intros Hp. unfold fits_ext_comp_key, version_of. rewrite Hp.
  by destruct (no_version (EXTVER (hheader e))).
Qed.

Lemma adjusted_name_after_default (n : string) :
  n <> DEFAULT_EXTENSION ->
  String.compare DEFAULT_EXTENSION
    (if String.eqb n DEFAULT_EXTENSION then n else String "z" n) = Lt.
Proof.
  intros Hn. apply String.eqb_neq in Hn. by rewrite Hn.
Qed.

Lemma same_version_key e1 e2 :
  same_version e1 e2 ->
  (if no_version (EXTVER (hheader e1)) then 2 ^ 32 - 1 else version_of e1) =
  (if no_version (EXTVER (hheader e2)) then 2 ^ 32 - 1 else version_of e2).
Proof.
  unfold same_version, unversioned, versioned, version_of.
  intros [[-> ->]|(-> & -> & ->)]; done.
Qed.

(** C3, as amended.  The primary extension sorts before every other
    extension whose version is not below -1; among the others a smaller
    version sorts first; with the same version the default name [SCI]
    sorts before any other name and before the unnamed ones, an unnamed
    extension sorts after the named ones whose name is below ["zzz"], and
    two other names compare as the names do; an extension without a
    version sorts after those whose version is below [2^32 - 1].  The
    list [_prepare_hdulist] returns is in the order of the keys. *)
Theorem sort_key_order :
  @sort_key_order_with Cards Payload
    (fun e => -1 <= version_of e)
    (fun n => String.compare n "zzz" = Lt)
    (fun e => version_of e < 2 ^ 32 - 1)
  /\ (forall strip hdulist default_extension l,
        _prepare_hdulist strip hdulist default_extension = Ok l ->
        StronglySorted (key_le (@fits_ext_comp_key Cards Payload)) l).
Proof.
  split.
  - intros e1 e2. split.
    + intros Hp1 Hp2 Hb. unfold precedes. rewrite (key_not_primary e2 Hp2).
      unfold fits_ext_comp_key at 1. rewrite Hp1.
      apply key_ltb_spec. cbn [fst snd]. left.
      unfold version_of, no_version in *.
      destruct (EXTVER (hheader e2)) as [v|]; cbn in *; [|lia].
      destruct (v =? -1) eqn:Hv; lia.
    + intros Hp1 Hp2. unfold precedes.
      rewrite (key_not_primary e1 Hp1), (key_not_primary e2 Hp2).
      split; [|split; [|split; [|split]]].
      * intros V1 V2 Hlt. unfold versioned in *. rewrite V1, V2.
        apply key_ltb_spec. by left.
      * intros Hsame Hn1 Hn2. apply key_ltb_spec. right. cbn [fst snd].
        split; [by apply same_version_key|].
        rewrite Hn1. cbn [String.eqb Ascii.eqb DEFAULT_EXTENSION].
        destruct (EXTNAME (hheader e2)) as [n2|]; [|done].
        apply adjusted_name_after_default. congruence.
      * intros Hsame Hn1 n2 Hn2 Hb. apply key_ltb_spec. right. cbn [fst snd].
        split; [symmetry; by apply same_version_key|].
        rewrite Hn1, Hn2.
        destruct (String.eqb n2 DEFAULT_EXTENSION) eqn:Heq.
        -- apply String.eqb_eq in Heq. by subst.
        -- cbn. exact Hb.
      * intros Hsame n1 n2 Hn1 Hn2 Hd1 Hd2. unfold key_compare. cbn [fst snd].
        rewrite (same_version_key e1 e2 Hsame), Z.compare_refl, Hn1, Hn2.
        apply String.eqb_neq in Hd1, Hd2. rewrite Hd1, Hd2. cbn.
        done.
      * intros U1 V2 Hb. unfold unversioned, versioned in *. rewrite U1, V2.
        apply key_ltb_spec. by left.
  - intros strip hdulist de l. unfold _prepare_hdulist.
    destruct hdulist as [|first rest]; [done|].
    destruct (_ || _); [|destruct (is_table first); [done|]]; intros Heq;
      apply (f_equal (fun r => match r with Ok x => x | Raise _ => l end)) in Heq;
      cbv beta iota in Heq; rewrite <- Heq; apply sorted_sorted.
Qed.

End SortKeyOrder.

(** The three places where the ordering of the spec is not the ordering of
    the keys. *)

Example sort_key_unversioned_before_large_version :
  precedes (image_ext (Some "SCI"%string) None)
           (image_ext (Some "SCI"%string) (Some (2 ^ 32))).
Proof. reflexivity. Qed.

Example sort_key_unnamed_before_late_name :
  precedes (image_ext None (Some 1)) (image_ext (Some "zzzz"%string) (Some 1)).
Proof. reflexivity. Qed.

Example sort_key_negative_version_before_primary :
  precedes (image_ext (Some "SCI"%string) (Some (-2)))
           (mkHdu 0 PrimaryHDU (mkHeader None None tt) None).
Proof. reflexivity. Qed.

(** C3, as stated, fails: an extension without a version is placed before
    one whose version is [2^32]. *)
Lemma sort_key_counterexample : ~ sort_key_claim unit unit.
Proof.
  intros H.
  destruct (H (image_ext (Some "SCI"%string) None)
              (image_ext (Some "SCI"%string) (Some (2 ^ 32))))
    as [_ Hrest].
  destruct (Hrest eq_refl eq_refl) as (_ & _ & _ & _ & Hlast).
  specialize (Hlast eq_refl eq_refl I). vm_compute in Hlast. discriminate.
Qed.

(** ** Cropping *)

Section CropFacts.
Context {px Tbl W Cards : Type}.
Implicit Types (nd : NDData (Np.ndarray px) Tbl W Cards)
  (o : aux (Np.ndarray px) Tbl) (p : planes (Np.ndarray px)).

Lemma rbind_ok {E A B} (m : result E A) (k : A -> result E B) (b : B) :
  rbind m k = Ok b -> exists a, m = Ok a /\ k a = Ok b.
Proof. destruct m as [a|e]; cbn; [eauto|done]. Qed.

Lemma crop_opt_spec x1 y1 x2 y2 (a a' : option (Np.ndarray px)) :
  Crop.crop_opt x1 y1 x2 y2 a = Ok a' -> opt_window_of x1 y1 x2 y2 a a'.
Proof.
  destruct a as [a|]; cbn.
  - intros (b & Hb & [= <-])%rbind_ok. exact Hb.
  - by intros [= <-].
Qed.

Lemma crop_nd_spec x1 y1 x2 y2 p p' :
  Crop._crop_nd p x1 y1 x2 y2 = Ok p' -> planes_cropped x1 y1 x2 y2 p p'.
Proof.
  unfold Crop._crop_nd.
  intros (d & Hd & (u & Hu & (m & Hm & [= <-])%rbind_ok)%rbind_ok)%rbind_ok.
  repeat split; cbn; [exact Hd|by apply crop_opt_spec..].
Qed.

Lemma crop_other_spec orig x1 y1 x2 y2 o o' :
  Crop.crop_other orig x1 y1 x2 y2 o = Ok o' ->
  aux_cropped orig x1 y1 x2 y2 o o'.
Proof.
  unfold Crop.crop_other, aux_cropped.
  destruct o as [t|a|p|]; cbn [aux_shape].
  - intros [= <-]. by rewrite decide_False.
  - destruct (decide (Np.shape a = orig)) as [->|Hne].
    + by intros (? & [=] & _)%rbind_ok.
    + intros [= <-]. rewrite decide_False; [done|congruence].
  - destruct (decide (Np.shape (p_data p) = orig)) as [->|Hne].
    + intros (p' & Hp & [= <-])%rbind_ok. rewrite decide_True by done.
      by apply crop_nd_spec.
    + intros [= <-]. rewrite decide_False; [done|congruence].
  - intros [= <-]. by rewrite decide_False.
Qed.

Lemma crop_others_spec orig x1 y1 x2 y2 (os os' : list (string * aux (Np.ndarray px) Tbl)) :
  Crop.crop_others orig x1 y1 x2 y2 os = Ok os' ->
  Forall2 (fun e e' => fst e' = fst e /\
                       aux_cropped orig x1 y1 x2 y2 (snd e) (snd e'))
          os os'.
Proof.
  revert os'. induction os as [|[name o] os IH]; intros os'; cbn.
  - intros [= <-]. constructor.
  - intros (o' & Ho & (rest & Hrest & [= <-])%rbind_ok)%rbind_ok.
    constructor; [|by apply IH]. split; [done|]. by apply crop_other_spec.
Qed.

Lemma crop_unit_spec x1 y1 x2 y2 nd nd' :
  Crop.crop_unit x1 y1 x2 y2 nd = Ok nd' -> unit_cropped x1 y1 x2 y2 nd nd'.
Proof.
  unfold Crop.crop_unit.
  intros (p & Hp & (os & Hos & [= <-])%rbind_ok)%rbind_ok.
  unfold unit_cropped. cbn. split; [by apply crop_nd_spec|].
  split; [by apply crop_others_spec|done].
Qed.

(** A crop that returns has done to every unit what the spec says. *)
Lemma crop_impl_spec x1 y1 x2 y2 (nds nds' : list (NDData (Np.ndarray px) Tbl W Cards)) :
  Crop._crop_impl x1 y1 x2 y2 nds = Ok nds' ->
  Forall2 (unit_cropped x1 y1 x2 y2) nds nds'.
Proof.
  revert nds'. induction nds as [|nd nds IH]; intros nds'; cbn.
  - intros [= <-]. constructor.
  - intros (nd' & Hnd & (rest & Hrest & [= <-])%rbind_ok)%rbind_ok.
    constructor; [by apply crop_unit_spec|by apply IH].
Qed.

(** A unit with a plain array of the shape of its primary array among its
    auxiliary objects is never cropped: the call raises. *)
Lemma crop_unit_array_raises x1 y1 x2 y2 nd name a :
  (name, AuxArray a) ∈ nd_other nd ->
  Np.shape a = Np.shape (p_data (nd_planes nd)) ->
  forall nd', Crop.crop_unit x1 y1 x2 y2 nd <> Ok nd'.
Proof.
  intros Hin Hshape nd'. unfold Crop.crop_unit.
  intros (p & Hp & (os & Hos & _)%rbind_ok)%rbind_ok.
  revert os Hos. induction (nd_other nd) as [|[n o] l IH]; intros os.
  - by apply elem_of_nil in Hin.
  - cbn. intros (o' & Ho & (rest & Hrest & _)%rbind_ok)%rbind_ok.
    apply elem_of_cons in Hin as [[= <- <-]|Hin].
    + cbn in Ho. rewrite decide_True in Ho by done. done.
    + by eapply IH.
Qed.

Lemma getslices_window_ok (a : Np.ndarray px) x1 y1 x2 y2 :
  (2 <= Np.ndim a)%nat ->
  exists b, Np.getslices a (Crop.window x1 y1 x2 y2) = Ok b.
Proof.
  intros Hdim. unfold Np.getslices, Np.ndim in *.
  destruct (Np.shape a) as [|n [|m shp]]; cbn in Hdim; try lia.
  destruct shp; cbn; eauto.
Qed.

Lemma crop_opt_ok x1 y1 x2 y2 (a : option (Np.ndarray px)) :
  from_option (fun u => (2 <= Np.ndim u)%nat) True a ->
  exists a', Crop.crop_opt x1 y1 x2 y2 a = Ok a'.
Proof.
  destruct a as [a|]; cbn; [|eauto]. intros Hdim.
  destruct (getslices_window_ok a x1 y1 x2 y2 Hdim) as [b ->]. cbn. eauto.
Qed.

Lemma crop_nd_ok x1 y1 x2 y2 p :
  planes_2d p -> exists p', Crop._crop_nd p x1 y1 x2 y2 = Ok p'.
Proof.
  intros (Hd & Hu & Hm). unfold Crop._crop_nd.
  destruct (getslices_window_ok _ x1 y1 x2 y2 Hd) as [d ->].
  destruct (crop_opt_ok x1 y1 x2 y2 _ Hu) as [u ->].
  destruct (crop_opt_ok x1 y1 x2 y2 _ Hm) as [m ->]. cbn. eauto.
Qed.

(** A provider of croppable units is cropped: the call returns. *)
Lemma crop_impl_total x1 y1 x2 y2
    (nds : list (NDData (Np.ndarray px) Tbl W Cards)) :
  Forall croppable nds ->
  exists nds', Crop._crop_impl x1 y1 x2 y2 nds = Ok nds'.
Proof.
  induction 1 as [|nd nds (Hp & Harr & Hnd) _ (rest & Hrest)]; cbn; [eauto|].
  unfold Crop.crop_unit. destruct (crop_nd_ok x1 y1 x2 y2 _ Hp) as [p' ->].
  cbn [mbind result_bind rbind].
  assert (Hos : exists os,
            Crop.crop_others (Np.shape (p_data (nd_planes nd))) x1 y1 x2 y2
                             (nd_other nd) = Ok os).
  { unfold no_array_of_primary_shape in Harr.
    induction (nd_other nd) as [|[name o] l IH]; cbn; [eauto|].
    inversion Harr as [|? ? Ha Harr']; subst.
    inversion Hnd as [|? ? Ho Hnd']; subst.
    destruct (IH Harr' Hnd') as [os ->]. cbn in Ha, Ho.
    destruct o as [t|a|p|]; cbn; eauto.
    - rewrite decide_False by done. cbn. eauto.
    - destruct (decide _) as [Heq|]; cbn; [|eauto].
      destruct (crop_nd_ok x1 y1 x2 y2 p (Ho Heq)) as [q ->]. cbn. eauto. }
  destruct Hos as [os ->]. cbn. rewrite Hrest. cbn. eauto.
Qed.

End CropFacts.

(** C5 fails on the code.  With a plain array of the shape of the primary
    array among the auxiliary objects of a unit, [crop] raises
    [NotImplementedError] instead of cropping that object. *)
Theorem crop_array_aux_raises :
  Crop.crop crop_example_provider 0 0 0 0 = Raise NotImplementedError.
Proof. reflexivity. Qed.

(** ** Arrays *)

Section NpFacts.
Context {px : Type}.
Implicit Types (a : Np.ndarray px).





End NpFacts.

(** ** The windowed operator *)

Section BlockFacts.



Lemma all_ticks_ok shp : forall kernel,
  length shp = length kernel -> Forall (fun step => 0 < step) kernel ->
  exists ticks,
    Windowed.all_ticks shp kernel = Ok ticks /\
    Forall3 (fun t axis step =>
               t = map (fun x => (x, x + step)) (Py.range 0 axis step))
            ticks shp kernel.
Proof.
  induction shp as [|axis shp IH]; intros [|step kernel] Hlen Hpos;
    try discriminate; cbn.
  - exists []. split; [done|constructor].
  - inversion Hpos as [|? ? Hs Hpos']; subst.
    destruct (IH kernel) as (ticks & Hticks & Hall); [by injection Hlen|done|].
    unfold Windowed.axis_ticks.
    assert ((step =? 0) = false) as -> by lia. cbn. rewrite Hticks. cbn.
    eexists. split; [done|]. by constructor.
Qed.







End BlockFacts.

Section WindowedFacts.
Context {px Tbl W Cards : Type}.
Context (junk : list Z -> px) (zero : px) (no_cards : Cards).
Implicit Types (nd : NDData (Np.ndarray px) Tbl W Cards)
  (a : Np.ndarray px) (box : list (Z * Z)) (shp idx : list Z).




(** The position an index has in a block lies in the block. *)
Lemma block_axes_locate_in shp : forall box idx rel,
  length box = length shp ->
  Np.locate (block_axes box shp) idx = Some rel -> in_box box idx.
Proof.
  induction shp as [|n shp IH]; intros [|c box] idx rel Hlen;
    try discriminate.
  - cbn. destruct idx; [constructor|done].
  - change (block_axes (c :: box) (n :: shp))
      with ((Z.min (fst c) n, Z.min (snd c) n, 1) :: block_axes box shp).
    cbn [Np.locate].
    destruct idx as [|i idx]; [done|].
    destruct (Np.axis_pos _ i) as [j|] eqn:Hj; cbn; [|done].
    destruct (Np.locate _ idx) as [js|] eqn:Hjs; cbn; [|done].
    intros _. constructor; [|eapply IH; [by injection Hlen|done]].
    unfold Np.axis_pos in Hj. destruct (_ && _) eqn:H; [|done].
    apply andb_true_iff in H as [H H3]. apply andb_true_iff in H as [_ H2].
    rewrite Z.div_1_r in *. unfold Py.range_len in H3. cbn in H3.
    destruct (Z.min (fst c) n <? Z.min (snd c) n) eqn:Hlt; [|lia].
    rewrite Z.div_1_r in H3. lia.
Qed.











Lemma resolve_shape_disagree
    (sequence : list (NDData (Np.ndarray px) Tbl W Cards)) nd1 nd2 :
  nd1 ∈ sequence -> nd2 ∈ sequence ->
  Windowed.unit_shape nd1 <> Windowed.unit_shape nd2 ->
  Windowed.resolve_shape sequence None = Raise ValueError.
Proof.
  intros H1 H2 Hne. unfold Windowed.resolve_shape.
  set (shapes := list_to_set (Windowed.unit_shape <$> sequence) : gset (list Z)).
  assert (Hin1 : Windowed.unit_shape nd1 ∈ shapes).
  { apply elem_of_list_to_set, list_elem_of_fmap. eauto. }
  assert (Hin2 : Windowed.unit_shape nd2 ∈ shapes).
  { apply elem_of_list_to_set, list_elem_of_fmap. eauto. }
  rewrite bool_decide_eq_true_2; [done|].
  destruct (size shapes) as [|[|n]] eqn:Hsize; [| |lia].
  - apply size_empty_inv in Hsize. rewrite Hsize in Hin1.
    by apply not_elem_of_empty in Hin1.
  - destruct Hne. by apply (size_singleton_inv shapes).
Qed.


Lemma valid_dims_Forall (shp : list Z) :
  Np.valid_dims shp = true <-> Forall (fun n => 0 <= n) shp.
Proof.
  unfold Np.valid_dims. rewrite forallb_forall, List.Forall_forall.
  split; intros H n Hn; apply H in Hn; lia.
Qed.


(** C10. Without an explicit shape, units that disagree on their shape
    make [windowedOp] raise [ValueError] at once: nothing is allocated, no
    block is passed to the function, no other effect takes place. *)
Theorem windowedOp_shape_disagreement func
    (sequence : list (NDData (Np.ndarray px) Tbl W Cards)) kernel
    dtype_given with_uncertainty with_mask nd1 nd2 :
  nd1 ∈ sequence -> nd2 ∈ sequence ->
  Windowed.unit_shape nd1 <> Windowed.unit_shape nd2 ->
  Windowed.windowedOp junk zero no_cards func sequence kernel None
    dtype_given with_uncertainty with_mask = ([], Raise ValueError).
Proof.
  intros H1 H2 Hne. unfold Windowed.windowedOp.
  by rewrite (resolve_shape_disagree sequence nd1 nd2).
Qed.

End WindowedFacts.

(** ** The coordinate-transform codec *)

Section CodecFacts.
Context {Arr Tbl W Cards : Type}.
Context (asdf_serialize : W -> option (list Byte.byte)).
Context (column_cards : col_format -> nat -> Cards).

Lemma splitlines_go_nonempty s : forall cur,
  cur <> [] \/ s <> [] -> Codec.splitlines_go cur s <> [].
Proof.
  induction s as [|c s IH]; intros cur H; cbn.
  - destruct cur; [by destruct H|done].
  - destruct (Codec.is_cr c).
    + destruct s as [|c' s']; [done|]. by destruct (Codec.is_lf c').
    + destruct (Codec.is_linebreak c); [done|]. apply IH. by left.
Qed.

Lemma decode_ascii_Some buf text :
  Codec.decode_ascii buf = Some text <->
  Forall (fun b => (Byte.to_N b < 128)%N) buf /\ text = map ascii_of_byte buf.
Proof.
  unfold Codec.decode_ascii.
  destruct (forallb Codec.is_ascii_byte buf) eqn:H.
  - rewrite forallb_forall in H. split.
    + intros [= <-]. split; [|done]. apply List.Forall_forall. intros b Hb.
      apply N.ltb_lt. by apply H.
    + by intros [_ ->].
  - split; [done|]. intros [Hall _]. rewrite List.Forall_forall in Hall.
    assert (forallb Codec.is_ascii_byte buf = true); [|congruence].
    apply forallb_forall. intros b Hb. apply N.ltb_lt. by apply Hall.
Qed.

Lemma decode_ascii_None buf :
  Codec.decode_ascii buf = None <->
  Exists (fun b => (128 <= Byte.to_N b)%N) buf.
Proof.
  unfold Codec.decode_ascii.
  destruct (forallb Codec.is_ascii_byte buf) eqn:H.
  - rewrite forallb_forall in H. split; [done|].
    intros (b & Hb & Hge)%List.Exists_exists. apply H in Hb.
    apply N.ltb_lt in Hb. lia.
  - split; [intros _|done].
    apply List.Exists_exists.
    assert (Hex : existsb (fun b => negb (Codec.is_ascii_byte b)) buf = true).
    { clear -H. induction buf as [|b buf IH]; cbn in *; [done|].
      destruct (Codec.is_ascii_byte b); cbn in *; [by apply IH|done]. }
    apply existsb_exists in Hex as (b & Hb & Hn). exists b. split; [done|].
    unfold Codec.is_ascii_byte in Hn. apply negb_true_iff, N.ltb_ge in Hn. done.
Qed.

Lemma foldl_max_ge (ns : list nat) : forall m,
  (m <= foldl Nat.max m ns)%nat /\
  Forall (fun n => (n <= foldl Nat.max m ns)%nat) ns.
Proof.
  induction ns as [|n ns IH]; intros m; cbn; [split; [lia|constructor]|].
  destruct (IH (Nat.max m n)) as [Hm Hall]. split; [lia|].
  constructor; [lia|done].
Qed.

Lemma max_len_ok lines :
  lines <> [] ->
  exists width, Codec.max_len lines = Ok width /\
                Forall (fun l => (String.length l <= width)%nat) lines.
Proof.
  destruct lines as [|l ls]; [done|]. intros _. cbn. eexists. split; [done|].
  destruct (foldl_max_ge (map String.length ls) (String.length l)) as [Hl Hls].
  constructor; [done|]. by apply Forall_map in Hls.
Qed.

(** C9. When the serialized transform is plain ASCII (and, as every ASDF
    document, not empty), [wcs_to_asdftablehdu] makes a text-table
    extension named [WCS] whose single column [gWCS] has one row per line
    and logs nothing; when a byte is not ASCII it makes a binary-table
    extension holding the bytes and logs the fallback warning; when the
    transform has a piece without a serialization tag it raises
    [TypeError]. *)
Theorem codec_encode_contract hid wcs extver :
  (forall buf,
     asdf_serialize wcs = Some buf ->
     Forall (fun b => (Byte.to_N b < 128)%N) buf -> buf <> [] ->
     exists width,
       let lines := Codec.splitlines (map ascii_of_byte buf) in
       lines <> []
       /\ Forall (fun l => (String.length l <= width)%nat) lines
       /\ @Codec.wcs_to_asdftablehdu Arr Tbl W Cards asdf_serialize
            column_cards hid wcs extver =
          ([], Ok (mkHdu hid TableHDU
                         (mkHeader (Some "WCS"%string) extver
                                   (column_cards (FmtA width) (length lines)))
                         (Some (AsciiColumn "gWCS" (FmtA width) lines)))))
  /\ (forall buf,
        asdf_serialize wcs = Some buf ->
        Exists (fun b => (128 <= Byte.to_N b)%N) buf ->
        @Codec.wcs_to_asdftablehdu Arr Tbl W Cards asdf_serialize
          column_cards hid wcs extver =
        ([WarnAsciiFallback extver],
         Ok (mkHdu hid BinTableHDU
                   (mkHeader (Some "WCS"%string) extver
                             (column_cards FmtB (length buf)))
                   (Some (ByteColumn "gWCS" FmtB buf)))))
  /\ (asdf_serialize wcs = None ->
      @Codec.wcs_to_asdftablehdu Arr Tbl W Cards asdf_serialize
        column_cards hid wcs extver = ([], Raise TypeError)).
Proof.
  unfold Codec.wcs_to_asdftablehdu. split; [|split].
  - intros buf -> Hascii Hne.
    assert (Hdec : Codec.decode_ascii buf = Some (map ascii_of_byte buf))
      by (by apply decode_ascii_Some).
    rewrite Hdec.
    assert (Hlines : Codec.splitlines (map ascii_of_byte buf) <> []).
    { apply splitlines_go_nonempty. right. by destruct buf. }
    destruct (max_len_ok _ Hlines) as (width & Hw & Hall).
    exists width. cbn zeta. split; [done|]. split; [done|].
    by rewrite Hw.
  - intros buf -> Hex. apply decode_ascii_None in Hex. by rewrite Hex.
  - by intros ->.
Qed.

End CodecFacts.

(** ** The writer *)

Section WriterFacts.
Context {Arr Tbl W Cards D : Type}.
Context (gwcs_to_fits : NDData Arr Tbl W Cards -> header Cards -> gwcs_result D).
Context (approximate : D -> bool).
Context (strip_wcs_keywords : Cards -> Cards).
Context (header_update : Cards -> D -> Cards).
Context (header_for_table : Tbl -> result exn (header Cards)).
Context (asdf_serialize : W -> option (list Byte.byte)).
Context (column_cards : col_format -> nat -> Cards).

Implicit Types (ext : NDData Arr Tbl W Cards)
  (st : @Writer.wstate Arr Tbl Cards) (h : header Cards).

#[local] Abbreviation views :=
  (fun st : @Writer.wstate Arr Tbl Cards => map ext_view (Writer.hdul st)).
#[local] Abbreviation write_other' := (Writer.write_other header_for_table).
#[local] Abbreviation write_others' := (Writer.write_others header_for_table).
#[local] Abbreviation write_unit' :=
  (Writer.write_unit gwcs_to_fits approximate strip_wcs_keywords header_update
     header_for_table asdf_serialize column_cards).
#[local] Abbreviation write_units' :=
  (Writer.write_units gwcs_to_fits approximate strip_wcs_keywords header_update
     header_for_table asdf_serialize column_cards).
#[local] Abbreviation unit_layout' :=
  (unit_layout gwcs_to_fits approximate strip_wcs_keywords header_update
     header_for_table asdf_serialize column_cards).

Lemma views_append st mk :
  views (Writer.append st mk) = views st ++ [ext_view (mk (length (Writer.hdul st)))].
Proof. unfold Writer.append. cbn. by rewrite map_app. Qed.

Lemma table_view_made hid t name :
  result_map ext_view (Writer.table_to_bintablehdu header_for_table hid t name) =
  table_view (Arr := Arr) header_for_table t name.
Proof.
  unfold Writer.table_to_bintablehdu, table_view.
  destruct (header_for_table t) as [h|]; [|done].
  destruct name as [name|]; [|done]. cbn. by destruct (String.eqb name "").
Qed.

Lemma codec_view_hid hid w ver :
  result_map ext_view
    (snd (Codec.wcs_to_asdftablehdu asdf_serialize column_cards hid w ver)) =
  result_map (ext_view (Arr := Arr) (Tbl := Tbl))
    (snd (Codec.wcs_to_asdftablehdu asdf_serialize column_cards 0 w ver)).
Proof.
  unfold Codec.wcs_to_asdftablehdu. destruct (asdf_serialize w) as [buf|]; [|done].
  destruct (Codec.decode_ascii buf); [|done]. cbn.
  by destruct (Codec.max_len _).
Qed.

Lemma write_other_layout ext h st item :
  result_map views (write_other' ext h st item) =
  (v ← aux_layout header_for_table ext h item; Ok (views st ++ [v])).
Proof.
  destruct item as [name [t|a|o|]]; unfold Writer.write_other, aux_layout;
    cbn [fst snd]; try done.
  - rewrite <- (table_view_made (length (Writer.hdul st)) t None).
    destruct (Writer.table_to_bintablehdu header_for_table
                (length (Writer.hdul st)) t None) as [e|err];
      cbn -[Writer.append ext_view]; [|done].
    by rewrite views_append.
  - cbn -[Writer.append ext_view]. by rewrite views_append.
  - cbn -[Writer.append ext_view]. by rewrite views_append.
Qed.

Lemma write_others_layout ext h items : forall st,
  result_map views (write_others' ext h st items) =
  (vs ← Py.comprehension (aux_layout header_for_table ext h) items;
   Ok (views st ++ vs)).
Proof.
  induction items as [|item items IH]; intros st; cbn.
  - by rewrite app_nil_r.
  - pose proof (write_other_layout ext h st item) as Hitem.
    destruct (write_other' ext h st item) as [st'|err];
      destruct (aux_layout header_for_table ext h item) as [v|err'];
      cbn in *; try congruence.
    assert (map ext_view (Writer.hdul st') =
            map ext_view (Writer.hdul st) ++ [v]) as Hitem' by congruence.
    rewrite IH, Hitem'.
    destruct (Py.comprehension _ items); cbn; [|done].
    by rewrite <- app_assoc.
Qed.

(** What the first part of the loop body settles, in the terms of the
    layout: the write fails on a fatal conversion; otherwise the header
    is the written one and the transform is kept unless suppressed. *)
Lemma resolve_wcs_spec phu_header ext :
  match Writer.resolve_wcs gwcs_to_fits approximate strip_wcs_keywords
          header_update phu_header ext with
  | Ok (h, wcs, _) =>
      fatal_conversion gwcs_to_fits phu_header ext = None
      /\ h = written_header gwcs_to_fits strip_wcs_keywords header_update
               phu_header ext
      /\ wcs = match nd_wcs ext with
               | GWCS w =>
                   if suppressed gwcs_to_fits approximate phu_header ext
                   then NoWCS else GWCS w
               | other => other
               end
  | Raise e => fatal_conversion gwcs_to_fits phu_header ext = Some e
  end.
Proof.
  unfold Writer.resolve_wcs, fatal_conversion, written_header, suppressed,
    down_conversion.
  destruct (nd_wcs ext) as [|w|]; [done| |done].
  destruct (gwcs_to_fits ext phu_header) as [[]|d]; try done.
  by destruct (approximate d).
Qed.

Lemma write_unit_layout phu_header st ext :
  result_map views (write_unit' phu_header st ext) =
  (vs ← unit_layout' phu_header ext; Ok (views st ++ vs)).
Proof.
  unfold Writer.write_unit, unit_layout.
  pose proof (resolve_wcs_spec phu_header ext) as Hr.
  destruct (Writer.resolve_wcs _ _ _ _ phu_header ext) as [[[h wcs] msgs]|err];
    [|by rewrite Hr].
  destruct Hr as (-> & Hh & Hw). cbn zeta. rewrite <- Hh. clear Hh.
  cbn [mbind result_bind rbind].
  set (st1 := Writer.append _ _).
  set (st2 := match p_uncertainty (nd_planes ext) with
              | Some u => _ | None => st1 end).
  set (st3 := match p_mask (nd_planes ext) with
              | Some m => _ | None => st2 end).
  assert (H3 : views st3 =
               views st ++
               [image_view (p_data (nd_planes ext)) h None]
               ++ optional_image (p_uncertainty (nd_planes ext)) h "VAR"
               ++ optional_image (p_mask (nd_planes ext)) h "DQ").
  { subst st3 st2 st1.
    destruct (p_uncertainty (nd_planes ext)), (p_mask (nd_planes ext));
      rewrite ?views_append; cbn -[Writer.append ext_view];
      rewrite ?views_append; cbn -[ext_view];
      rewrite <- ?app_assoc; done. }
  clearbody st3. clear st1 st2.
  assert (Hplain :
            result_map views
              (st' ← Ok st3; write_others' ext h st' (nd_other ext)) =
            (transform ← Ok [];
             auxiliaries ← Py.comprehension (aux_layout header_for_table ext h)
                             (nd_other ext);
             vs ← Ok ([image_view (p_data (nd_planes ext)) h None]
                      ++ optional_image (p_uncertainty (nd_planes ext)) h "VAR"
                      ++ optional_image (p_mask (nd_planes ext)) h "DQ"
                      ++ transform ++ auxiliaries);
             Ok (views st ++ vs))).
  { cbn [mbind result_bind rbind]. rewrite write_others_layout.
    destruct (Py.comprehension _ (nd_other ext)) as [vs|]; cbn; [|done].
    rewrite H3. by rewrite <- !app_assoc. }
  unfold transform_layout in *.
  destruct (nd_wcs ext) as [|w|]; subst wcs.
  - rewrite Hplain. cbn [mbind result_bind rbind].
    by destruct (Py.comprehension _ (nd_other ext)).
  - destruct (suppressed gwcs_to_fits approximate phu_header ext).
    { rewrite Hplain. cbn [mbind result_bind rbind].
      by destruct (Py.comprehension _ (nd_other ext)). }
    clear Hplain.
    pose proof (codec_view_hid (length (Writer.hdul st3)) w
                  (Some (nd_ver ext))) as Hc.
    destruct (Codec.wcs_to_asdftablehdu asdf_serialize column_cards
                (length (Writer.hdul st3)) w (Some (nd_ver ext)))
      as [msgs' [e|err]];
      destruct (snd (Codec.wcs_to_asdftablehdu asdf_serialize column_cards
                       0 w (Some (nd_ver ext)))) as [e0|err0];
      cbn -[Writer.append ext_view] in *; try congruence.
    assert (ext_view e = ext_view e0) as He by congruence.
    rewrite write_others_layout.
    destruct (Py.comprehension _ (nd_other ext)) as [vs|];
      cbn -[Writer.append ext_view]; [|done].
    rewrite views_append. cbn [Writer.hdul]. rewrite H3, He.
    f_equal. rewrite <- !app_assoc. cbn [app]. by rewrite <- ?app_assoc.
  - rewrite Hplain. cbn [mbind result_bind rbind].
    by destruct (Py.comprehension _ (nd_other ext)).
Qed.

Lemma write_units_layout phu_header exts : forall st,
  result_map views (write_units' phu_header st exts) =
  (us ← Py.comprehension (unit_layout' phu_header) exts;
   Ok (views st ++ concat us)).
Proof.
  induction exts as [|ext exts IH]; intros st; cbn.
  - by rewrite app_nil_r.
  - pose proof (write_unit_layout phu_header st ext) as Hu.
    destruct (write_unit' phu_header st ext) as [st'|err];
      destruct (unit_layout' phu_header ext) as [vs|err'];
      cbn in *; try congruence.
    assert (map ext_view (Writer.hdul st') =
            map ext_view (Writer.hdul st) ++ vs) as Hu' by congruence.
    rewrite IH, Hu'.
    destruct (Py.comprehension _ exts); cbn; [|done].
    by rewrite <- app_assoc.
Qed.

Lemma write_tables_layout items : forall st,
  result_map views (Writer.write_tables header_for_table st items) =
  (ts ← Py.comprehension (table_layout header_for_table) items;
   Ok (views st ++ ts)).
Proof.
  induction items as [|[name t] items IH]; intros st;
    cbn [Writer.write_tables Py.comprehension].
  - cbn. by rewrite app_nil_r.
  - change (table_layout header_for_table (name, t))
      with (table_view (Arr := Arr) header_for_table t (Some name)).
    rewrite <- (table_view_made (length (Writer.hdul st)) t (Some name)).
    destruct (Writer.table_to_bintablehdu header_for_table
                (length (Writer.hdul st)) t (Some name)) as [e|err];
      cbn -[Writer.append ext_view]; [|done].
    rewrite IH, views_append.
    destruct (Py.comprehension _ items); cbn -[ext_view]; [|done].
    by rewrite <- app_assoc.
Qed.

Lemma sorted_tables_by_name (tables : gmap string Tbl) :
  StronglySorted (fun a b => String.le (fst a) (fst b))
                 (Writer.sorted_tables tables)
  /\ Writer.sorted_tables tables ≡ₚ map_to_list tables.
Proof.
  unfold Writer.sorted_tables. split; [|apply sorted_perm].
  pose proof (sorted_sorted (fun item : string * Tbl => (0, fst item))
                (map_to_list tables)) as Hs.
  induction Hs as [|x l _ IH Hx]; constructor; [done|].
  eapply Forall_impl; [exact Hx|]. intros y Hy. unfold key_le in Hy.
  apply key_leb_spec in Hy as [Hy|[_ Hy]]; [cbn in Hy; lia|done].
Qed.

(** C2. The list [write_fits] hands over holds the primary extension
    first; then, for each unit in the order of the provider, its primary
    array, its uncertainty as [VAR] and its mask as [DQ] when present,
    its transform when it is a [gWCS] that was not suppressed, and its
    auxiliary objects; then the tables of the container in the order of
    their names.  The writer raises exactly when one of these pieces
    cannot be made. *)
Theorem writer_emission_order (ad : provider Arr Tbl W Cards) :
  result_map views
    (Writer.write_fits gwcs_to_fits approximate strip_wcs_keywords
       header_update header_for_table asdf_serialize column_cards ad) =
  layout gwcs_to_fits approximate strip_wcs_keywords header_update
    header_for_table asdf_serialize column_cards ad
  /\ StronglySorted (fun a b => String.le (fst a) (fst b))
                    (Writer.sorted_tables (_tables ad))
  /\ Writer.sorted_tables (_tables ad) ≡ₚ map_to_list (_tables ad).
Proof.
  split; [|apply sorted_tables_by_name].
  unfold Writer.write_fits, layout.
  set (st0 := Writer.append _ _).
  pose proof (write_units_layout (phu ad) (_nddata ad) st0) as Hu.
  change (map ext_view (Writer.hdul st0))
    with [(PrimaryHDU, phu ad, @None (payload Arr Tbl))] in Hu.
  destruct (write_units' (phu ad) st0 (_nddata ad)) as [st1|err];
    destruct (Py.comprehension (unit_layout' (phu ad)) (_nddata ad))
      as [us|err']; cbn -[ext_view] in *; try congruence.
  assert (map ext_view (Writer.hdul st1) =
          (PrimaryHDU, phu ad, None) :: concat us) as Hu'
    by (change (PrimaryHDU, phu ad, @None (payload Arr Tbl))
          with (ext_view (mkHdu 0 PrimaryHDU (phu ad)
                                (@None (payload Arr Tbl)))); congruence).
  rewrite write_tables_layout, Hu'.
  by destruct (Py.comprehension _ (Writer.sorted_tables (_tables ad))).
Qed.

End WriterFacts.

(** ** Reading back what was written *)

(** The scenario of the spec: the container [PRIMARY, SCI 1, VAR 1, DQ 1,
    SCI 2] reads into two units, is written back as the same five
    extensions, and reads back into the same units. *)
Example round_trip_scenario :
  Fixture.round_trip_of Fixture.scenario true =
    Ok ([(Some "SCI"%string, 1, [1; 2]); (Some "SCI"%string, 2, [5; 6])],
        [(Some "SCI"%string, 1, [1; 2]); (Some "SCI"%string, 2, [5; 6])])
  /\ (ad ← Fixture.read true Fixture.scenario; Fixture.written ad) =
     Ok [(PrimaryHDU, None, None);
         (ImageHDU, Some "SCI"%string, Some 1);
         (ImageHDU, Some "VAR"%string, Some 1);
         (ImageHDU, Some "DQ"%string, Some 1);
         (ImageHDU, Some "SCI"%string, Some 2)].
Proof. split; vm_compute; reflexivity. Qed.

(** A container with an image that belongs to no unit: [FOO] of version
    7 beside [SCI] of version 5.  The image becomes a unit of its own,
    after the unit of [SCI], and both come back from the file written. *)
Example round_trip_left_over_image :
  Fixture.round_trip_of
    [mkHdu 0 PrimaryHDU (mkHeader (Some "PRIMARY"%string) None tt) None;
     mkHdu 1 ImageHDU (mkHeader (Some "FOO"%string) (Some 7) tt)
           (Some (ImageData (Reader.mkRaw 1%Q 0%Q [7])));
     mkHdu 2 ImageHDU (mkHeader (Some "SCI"%string) (Some 5) tt)
           (Some (ImageData (Reader.mkRaw 1%Q 0%Q [5])))] true =
    Ok ([(Some "SCI"%string, 5, [5]); (Some "FOO"%string, 7, [7])],
        [(Some "SCI"%string, 5, [5]); (Some "FOO"%string, 7, [7])]).
Proof. vm_compute; reflexivity. Qed.

(** The bound on the versions is needed.  An extension of a version
    below -1 sorts before the primary extension: in the container [FOO]
    of version -7, [SCI] of version -5, the image [FOO] is taken for the
    primary header and [SCI] becomes the one unit; written back, [SCI]
    sorts before the primary extension and the provider read back has no
    unit. *)
Example round_trip_below_minus_one :
  Fixture.round_trip true = Ok ([(Some "SCI"%string, -5, [5])], []).
Proof. vm_compute; reflexivity. Qed.

(** ** The theorems at sample inputs *)

Lemma headers_get_contract_witness :
  Headers.get Samples.headers "GAIN" (Some 1) = [Some 2; Some 1]
  /\ Headers.missing_indices Samples.headers "GAIN" = [1%nat].
Proof.
  destruct (headers_get_contract Samples.headers "GAIN")
    as (_ & _ & _ & _ & Hget).
  split; [rewrite Hget|]; reflexivity.
Defined.

Lemma headers_remove_contract_witness :
  Exists (fun h : gmap string Z => is_Some (h !! "GAIN"%string)) Samples.headers
  /\ snd (Headers.remove Samples.headers "GAIN") = Ok tt.
Proof.
  assert (H : Exists (fun h : gmap string Z => is_Some (h !! "GAIN"%string))
                     Samples.headers).
  { apply Exists_cons_hd. exists 2. reflexivity. }
  split; [exact H|].
  destruct (headers_remove_contract Samples.headers "GAIN")
    as (_ & _ & _ & _ & Hok).
  apply Hok, H.
Defined.

Lemma proxy_getitem_slice_witness :
  Py.sl_step Samples.odd_slice <> Some 0
  /\ Proxy.getitem Samples.view (SelSlice Samples.odd_slice) =
     Ok (Proxy.mk tt [5; 7] false).
Proof.
  assert (H : Py.sl_step Samples.odd_slice <> Some 0) by discriminate.
  split; [exact H|].
  destruct (proxy_getitem_slice Samples.view Samples.odd_slice H) as [_ Hm].
  destruct (Hm eq_refl) as (positions & mapped & _ & _ & Hslice & Hget & _).
  rewrite Hget. vm_compute in Hslice. injection Hslice as <-. reflexivity.
Defined.

Lemma sort_key_order_witness :
  -1 <= version_of Samples.sci1
  /\ precedes Samples.primary Samples.sci1.
Proof.
  assert (H : -1 <= version_of Samples.sci1) by (vm_compute; discriminate).
  split; [exact H|].
  destruct (@sort_key_order unit unit) as [Horder _].
  destruct (Horder Samples.primary Samples.sci1) as [Hp _].
  exact (Hp eq_refl eq_refl H).
Defined.


Lemma windowedOp_shape_disagreement_witness :
  Windowed.unit_shape (Samples.unit_of Samples.grid) <>
  Windowed.unit_shape (Samples.unit_of Samples.small)
  /\ Windowed.windowedOp (fun _ => 0) 0 tt
       (Windowed.identity_func (fun _ => 0))
       [Samples.unit_of Samples.grid; Samples.unit_of Samples.small]
       [2; 2] None true false false = ([], Raise ValueError).
Proof.
  assert (H : Windowed.unit_shape (Samples.unit_of Samples.grid) <>
              Windowed.unit_shape (Samples.unit_of Samples.small))
    by discriminate.
  split; [exact H|].
  apply (windowedOp_shape_disagreement (fun _ => 0) 0 tt _ _ _ _ _ _
           (Samples.unit_of Samples.grid) (Samples.unit_of Samples.small));
    [apply list_elem_of_here|apply list_elem_of_further, list_elem_of_here|exact H].
Defined.

Lemma codec_encode_contract_witness :
  exists width,
    @Codec.wcs_to_asdftablehdu unit unit bool unit Samples.serializer
      (fun _ _ => tt) 0 true (Some 1) =
    ([], Ok (mkHdu 0 TableHDU (mkHeader (Some "WCS"%string) (Some 1) tt)
                   (Some (AsciiColumn "gWCS" (FmtA width)
                                      ["#ASDF"%string; "x"%string]))))
  /\ @Codec.wcs_to_asdftablehdu unit unit bool unit Samples.serializer
       (fun _ _ => tt) 0 false (Some 1) = ([], Raise TypeError).
Proof.
  destruct (@codec_encode_contract unit unit bool unit Samples.serializer
              (fun _ _ => tt) 0 true (Some 1)) as (Hascii & _ & _).
  destruct (Hascii _ eq_refl) as (width & _ & _ & Henc).
  - repeat constructor.
  - discriminate.
  - exists width. split; [exact Henc|].
    destruct (@codec_encode_contract unit unit bool unit Samples.serializer
                (fun _ _ => tt) 0 false (Some 1)) as (_ & _ & Hnone).
    exact (Hnone eq_refl).
Defined.

(** ** The header collection: writing, comments and membership *)

Section CardFacts.
Context {V C : Type} (undefined : V) (blank : C).
Implicit Types (h : gmap string (V * C)) (hs : list (gmap string (V * C))).
Implicit Types (key : string) (value : option V) (comment : option C).

Lemma getitem_all_or_missing {A} (gs : list (gmap string A)) key :
  Headers.getitem gs key =
    if forallb (Headers.has_key key) gs
    then Ok (map (fun g => g !! key) gs)
    else Raise (Headers.mkMissing (Headers.missing_indices gs key)
                                  (map (fun g => g !! key) gs)).
Proof.
  unfold Headers.getitem. rewrite getitem_loop_spec. cbn.
  destruct (forallb (Headers.has_key key) gs); cbn; [done|].
  f_equal. f_equal. rewrite <- (map_id (Headers.missing_indices gs key)) at 2.
  apply map_ext. done.
Qed.

Lemma get_value_or {A} (gs : list (gmap string A)) key (d : option A) :
  Headers.get gs key d = map (Headers.value_or key d) gs.
Proof.
  unfold Headers.get. rewrite getitem_all_or_missing.
  destruct (forallb (Headers.has_key key) gs) eqn:Hall.
  - apply map_ext_in. intros g Hin. unfold Headers.value_or.
    rewrite forallb_forall in Hall. apply Hall, has_key_true in Hin.
    by destruct Hin as [v ->].
  - cbn. apply list_eq. intros n. rewrite fill_default_lookup, length_map.
    rewrite !lookup_map. unfold Headers.value_or.
    destruct (gs !! n) as [g|] eqn:Hn; cbn.
    + apply lookup_lt_Some in Hn as Hlt.
      destruct (g !! key) as [v|] eqn:Hk.
      * rewrite decide_False; [done|].
        intros [Hin _]. apply missing_indices_elem in Hin as (g' & Hn' & Hk').
        congruence.
      * rewrite decide_True; [done|]. split; [|done].
        apply missing_indices_elem. eauto.
    + apply lookup_ge_None in Hn. rewrite decide_False; [done|]. lia.
Qed.

Lemma header_set_lookup key key' value comment h :
  Cards.header_set undefined blank key value comment h !! key' =
  if decide (key = key') then
    Some (match h !! key with
          | Some (v0, c0) => (default v0 value, default c0 comment)
          | None => (default undefined value, default blank comment)
          end)
  else h !! key'.
Proof.
  unfold Cards.header_set.
  destruct (h !! key) as [[v0 c0]|]; by rewrite lookup_insert.
Qed.

Lemma keyword_values_lookup h key :
  Cards.keyword_values h !! key = fst <$> h !! key.
Proof. unfold Cards.keyword_values. by rewrite lookup_fmap. Qed.

Lemma has_key_values key h :
  Headers.has_key key (Cards.keyword_values h) = Headers.has_key key h.
Proof.
  destruct (Headers.has_key key h) eqn:Hk.
  - apply has_key_true in Hk as [x Hx]. apply has_key_true.
    rewrite keyword_values_lookup, Hx. by eexists.
  - apply has_key_false in Hk. apply has_key_false.
    by rewrite keyword_values_lookup, Hk.
Qed.

(** X1. After [set(key, value)] with a value, every record of the
    collection holds that value under the keyword: [__getitem__] returns
    it once per record without raising, and [get] never falls back on its
    default. *)
Theorem collection_set_then_get hs key (v : V) comment (d : option V) :
  Cards.getitem (Cards.set undefined blank hs key (Some v) comment) key =
    Ok (map (fun _ => Some v) hs)
  /\ Cards.get (Cards.set undefined blank hs key (Some v) comment) key d =
       map (fun _ => Some v) hs
  /\ length (Cards.set undefined blank hs key (Some v) comment) = length hs.
Proof.
  assert (Hval : forall h,
            Cards.keyword_values
              (Cards.header_set undefined blank key (Some v) comment h) !! key
            = Some v).
  { intros h. rewrite keyword_values_lookup, header_set_lookup.
    rewrite decide_True by done. by destruct (h !! key) as [[v0 c0]|]. }
  assert (Hall : forallb (Headers.has_key key)
            (map Cards.keyword_values
                 (Cards.set undefined blank hs key (Some v) comment)) = true).
  { apply forallb_forall. intros g Hin. unfold Cards.set in Hin.
    rewrite map_map in Hin. apply in_map_iff in Hin as (h & <- & _).
    apply has_key_true. rewrite Hval. by eexists. }
  assert (Hget : Cards.getitem
            (Cards.set undefined blank hs key (Some v) comment) key =
            Ok (map (fun _ => Some v) hs)).
  { unfold Cards.getitem. rewrite getitem_all_or_missing, Hall.
    unfold Cards.set. rewrite !map_map. f_equal. apply map_ext.
    intros h. apply Hval. }
  split; [exact Hget|]. split.
  - unfold Cards.get, Headers.get. unfold Cards.getitem in Hget.
    by rewrite Hget.
  - unfold Cards.set. by rewrite length_map.
Qed.

(** X2. [set] on one keyword leaves every other keyword as it was: the
    values and the comments read under another keyword are those read
    before the call. *)
Theorem collection_set_other_keyword hs key key' value comment :
  key <> key' ->
  Cards.getitem (Cards.set undefined blank hs key value comment) key' =
    Cards.getitem hs key'
  /\ Cards.get_comment (Cards.set undefined blank hs key value comment) key' =
       Cards.get_comment hs key'.
Proof.
  intros Hne. split.
  - unfold Cards.getitem, Cards.set. rewrite !getitem_all_or_missing.
    assert (Hlook : map (fun g : gmap string V => g !! key')
                (map Cards.keyword_values
                   (map (Cards.header_set undefined blank key value comment) hs))
              = map (fun g : gmap string V => g !! key')
                    (map Cards.keyword_values hs)).
    { rewrite !map_map. apply map_ext. intros h.
      rewrite !keyword_values_lookup, header_set_lookup.
      by rewrite decide_False. }
    assert (Hkeys : forall h,
              Headers.has_key key'
                (Cards.keyword_values
                   (Cards.header_set undefined blank key value comment h)) =
              Headers.has_key key' (Cards.keyword_values h)).
    { intros h. unfold Headers.has_key.
      rewrite !keyword_values_lookup, header_set_lookup.
      by rewrite decide_False. }
    assert (Hmiss : Headers.missing_indices
                (map Cards.keyword_values
                   (map (Cards.header_set undefined blank key value comment) hs))
                key'
              = Headers.missing_indices (map Cards.keyword_values hs) key').
    { unfold Headers.missing_indices. rewrite !length_map.
      apply List.filter_ext. intros n. unfold Headers.lacks_at.
      rewrite !lookup_map. destruct (hs !! n) as [h|]; cbn; [|done].
      by rewrite Hkeys. }
    rewrite Hlook, Hmiss.
    assert (Hall : forallb (Headers.has_key key')
                (map Cards.keyword_values
                   (map (Cards.header_set undefined blank key value comment) hs))
              = forallb (Headers.has_key key') (map Cards.keyword_values hs)).
    { clear Hlook Hmiss. induction hs as [|h hs IH]; cbn; [done|].
      by rewrite Hkeys, IH. }
    by rewrite Hall.
  - unfold Cards.set. induction hs as [|h hs IH]; cbn; [done|].
    rewrite IH. unfold Cards.header_comment.
    rewrite header_set_lookup. by rewrite decide_False.
Qed.

Lemma contains_spec hs key :
  Cards.contains hs key = true <-> Exists (fun h => is_Some (h !! key)) hs.
Proof.
  unfold Cards.contains. rewrite existsb_exists, List.Exists_exists.
  split; intros (h & Hin & Hk); exists h; (split; [done|]);
    by apply has_key_true.
Qed.

Lemma filter_has_key_length {A} (gs : list (gmap string A)) key :
  length (List.filter (Headers.has_key key) gs) = 0%nat <->
  existsb (Headers.has_key key) gs = false.
Proof.
  induction gs as [|g gs IH]; cbn; [done|].
  destruct (Headers.has_key key g); cbn; [done|exact IH].
Qed.

(** X3. Membership and deletion agree: [remove] (and [del]) succeeds
    exactly when [key in collection] holds; afterwards the keyword is in
    no record, and [get] returns the default for every record. *)
Theorem collection_contains_remove hs key :
  (Cards.contains hs key = true <-> snd (Cards.delitem hs key) = Ok tt)
  /\ (Cards.contains hs key = false <->
      snd (Cards.delitem hs key) = Raise KeyError)
  /\ Cards.contains (fst (Cards.delitem hs key)) key = false
  /\ (forall d, Cards.get (fst (Cards.delitem hs key)) key d =
                map (fun _ => d) hs).
Proof.
  unfold Cards.delitem, Headers.remove. rewrite remove_loop_spec.
  cbn [fst snd].
  unfold Cards.contains.
  assert (Hgone : forall h,
            (if Headers.has_key key h then delete key h else h) !! key = None).
  { intros h. destruct (Headers.has_key key h) eqn:Hk.
    - apply lookup_delete_eq.
    - by apply has_key_false. }
  split; [|split; [|split]].
  - destruct (length (List.filter (Headers.has_key key) hs)) eqn:E; cbn.
    + assert (existsb (Headers.has_key key) hs = false) as ->
        by by apply filter_has_key_length.
      split; done.
    + destruct (existsb (Headers.has_key key) hs) eqn:Ex; [done|].
      apply filter_has_key_length in Ex. lia.
  - destruct (length (List.filter (Headers.has_key key) hs)) eqn:E; cbn.
    + assert (existsb (Headers.has_key key) hs = false) as ->
        by by apply filter_has_key_length.
      split; done.
    + destruct (existsb (Headers.has_key key) hs) eqn:Ex; [done|].
      apply filter_has_key_length in Ex. lia.
  - apply not_true_is_false. rewrite existsb_exists.
    intros (g & Hin & Hk). apply in_map_iff in Hin as (h & <- & _).
    apply has_key_true in Hk as [x Hx]. by rewrite Hgone in Hx.
  - intros d. unfold Cards.get. rewrite get_value_or, !map_map.
    apply map_ext. intros h. unfold Headers.value_or.
    by rewrite keyword_values_lookup, Hgone.
Qed.

Lemma set_comment_loop_spec key (c : C) hs : forall n,
  Cards.set_comment_loop undefined blank key c n hs =
  match Headers.missing_indices hs key with
  | [] => (map (Cards.header_set undefined blank key None (Some c)) hs, Ok tt)
  | m :: _ =>
      (map (Cards.header_set undefined blank key None (Some c)) (take m hs)
         ++ drop m hs,
       Raise (n + m)%nat)
  end.
Proof.
  induction hs as [|h hs IH]; intros n; cbn [Cards.set_comment_loop].
  - done.
  - rewrite missing_indices_cons.
    destruct (Headers.has_key key h) eqn:Hk; cbn [app].
    + rewrite IH. destruct (Headers.missing_indices hs key) as [|m ms]; cbn.
      * done.
      * f_equal. f_equal. lia.
    + cbn. f_equal. f_equal. lia.
Qed.

(** X4. [set_comment] stops at the first record that lacks the keyword:
    the records before it have the new comment already, that record and
    the later ones are untouched, and the [KeyError] names its index.
    The call never changes a value, with or without the error. *)
Theorem set_comment_stops_at_first_missing hs key (c : C) :
  Cards.set_comment undefined blank hs key c =
    match Headers.missing_indices hs key with
    | [] => (map (Cards.header_set undefined blank key None (Some c)) hs, Ok tt)
    | m :: _ =>
        (map (Cards.header_set undefined blank key None (Some c)) (take m hs)
           ++ drop m hs,
         Raise m)
    end
  /\ map Cards.keyword_values (fst (Cards.set_comment undefined blank hs key c))
     = map Cards.keyword_values hs.
Proof.
  split; [apply set_comment_loop_spec|].
  unfold Cards.set_comment. generalize 0%nat.
  induction hs as [|h hs IH]; intros n; cbn [Cards.set_comment_loop]; [done|].
  destruct (Headers.has_key key h) eqn:Hk; [|done].
  specialize (IH (S n)).
  destruct (Cards.set_comment_loop undefined blank key c (S n) hs) as [rest r].
  cbn in *. rewrite IH. f_equal.
  apply map_eq. intros k. rewrite !keyword_values_lookup, header_set_lookup.
  case_decide as Hkk; [subst k|done].
  apply has_key_true in Hk as [[v0 c0] Hx]. by rewrite Hx.
Qed.

(** X5. When every record has the keyword, [set_comment] succeeds and
    [get_comment] then returns the new comment once per record. *)
Theorem set_comment_then_get_comment hs key (c : C) :
  Forall (fun h => is_Some (h !! key)) hs ->
  snd (Cards.set_comment undefined blank hs key c) = Ok tt
  /\ Cards.get_comment (fst (Cards.set_comment undefined blank hs key c)) key
     = Ok (map (fun _ => c) hs).
Proof.
  unfold Cards.set_comment. generalize 0%nat.
  induction hs as [|h hs IH]; intros n Hall; cbn [Cards.set_comment_loop].
  - done.
  - inversion Hall as [|? ? Hh Hall']; subst.
    assert (Headers.has_key key h = true) as -> by by apply has_key_true.
    specialize (IH (S n) Hall') as [Hr Hc].
    destruct (Cards.set_comment_loop undefined blank key c (S n) hs) as [rest r].
    cbn in *. split; [done|]. rewrite Hc.
    unfold Cards.header_comment. rewrite header_set_lookup.
    rewrite decide_True by done. destruct Hh as [[v0 c0] ->]. done.
Qed.

End CardFacts.

Lemma collection_set_other_keyword_witness :
  Cards.getitem
    (Cards.set 0%Z ""%string
       [({["NAXIS"%string := (2%Z, "axes"%string)]} : gmap string (Z * string)); ∅]
       "GAIN"%string (Some 3%Z) None)
    "NAXIS"%string
  = Cards.getitem
      [({["NAXIS"%string := (2%Z, "axes"%string)]} : gmap string (Z * string)); ∅]
      "NAXIS"%string
  /\ Cards.get_comment
       (Cards.set 0%Z ""%string
          [({["NAXIS"%string := (2%Z, "axes"%string)]} : gmap string (Z * string)); ∅]
          "GAIN"%string (Some 3%Z) None)
       "NAXIS"%string
     = Cards.get_comment
         [({["NAXIS"%string := (2%Z, "axes"%string)]} : gmap string (Z * string)); ∅]
         "NAXIS"%string.
Proof.
  apply (collection_set_other_keyword 0%Z ""%string). done.
Defined.

Lemma set_comment_then_get_comment_witness :
  Forall (fun h : gmap string (Z * string) => is_Some (h !! "GAIN"%string))
         [{["GAIN"%string := (3%Z, ""%string)]};
          {["GAIN"%string := (4%Z, "old"%string)]}]
  /\ (snd (Cards.set_comment 0%Z ""%string
             [({["GAIN"%string := (3%Z, ""%string)]} : gmap string (Z * string));
              {["GAIN"%string := (4%Z, "old"%string)]}]
             "GAIN"%string "e-/ADU"%string) = Ok tt
      /\ Cards.get_comment
           (fst (Cards.set_comment 0%Z ""%string
                   [({["GAIN"%string := (3%Z, ""%string)]} : gmap string (Z * string));
                    {["GAIN"%string := (4%Z, "old"%string)]}]
                   "GAIN"%string "e-/ADU"%string))
           "GAIN"%string
         = Ok (map (fun _ => "e-/ADU"%string)
                 [({["GAIN"%string := (3%Z, ""%string)]} : gmap string (Z * string));
                  {["GAIN"%string := (4%Z, "old"%string)]}])).
Proof.
  assert (H : Forall (fun h : gmap string (Z * string) =>
                        is_Some (h !! "GAIN"%string))
                [{["GAIN"%string := (3%Z, ""%string)]};
                 {["GAIN"%string := (4%Z, "old"%string)]}]).
  { repeat constructor; eexists; reflexivity. }
  split; [exact H|].
  apply (set_comment_then_get_comment 0%Z ""%string _ _ _ H).
Defined.

(** ** The preparation of the list of extensions *)

Section PrepareFacts.
Context {Cards Payload : Type} (strip_structural : Cards -> Cards).
Implicit Types (e u : hdu Cards Payload) (l hdulist : list (hdu Cards Payload)).
Implicit Types (st : @prepare_state Cards Payload) (de : string).

Lemma image_not_primary e : is_image e = true -> is_primary e = false.
Proof.
  unfold is_image, is_primary. intros H%bool_decide_eq_true.
  apply bool_decide_eq_false. by rewrite H.
Qed.

Lemma prepare_loop1_step_kept st u :
  prepare_loop1_step st u =
  if kept_by_first_loop u then
    mkPrepare (new_list st ++ [u])
              (if named_and_versioned u
               then Z.max (highest_ver st) (default 0 (EXTVER (hheader u)))
               else highest_ver st)
              ({[hid u]} ∪ recognized st)
  else st.
Proof.
  unfold prepare_loop1_step, kept_by_first_loop, named_and_versioned.
  destruct (negb (no_version (EXTVER (hheader u))) &&
            bool_decide (is_Some (EXTNAME (hheader u)))); cbn; [done|].
  by destruct (is_primary u).
Qed.

Lemma prepare_loop1_spec l : forall st,
  new_list (foldl prepare_loop1_step st l) =
    new_list st ++ List.filter kept_by_first_loop l
  /\ (forall x, x ∈ recognized (foldl prepare_loop1_step st l) <->
        x ∈ recognized st \/
        exists u, u ∈ l /\ kept_by_first_loop u = true /\ hid u = x)
  /\ highest_ver (foldl prepare_loop1_step st l) =
       foldl (fun hv u => if named_and_versioned u
                          then Z.max hv (default 0 (EXTVER (hheader u)))
                          else hv) (highest_ver st) l.
Proof.
  induction l as [|u l IH]; intros st; cbn [foldl List.filter].
  - rewrite app_nil_r. split; [done|]. split; [|done].
    intros x. split; [by left|]. intros [H|(u & Hu & _)]; [done|].
    by apply elem_of_nil in Hu.
  - destruct (IH (prepare_loop1_step st u)) as (Hn & Hr & Hh).
    rewrite Hn, Hh. clear Hn Hh IH.
    pose proof (prepare_loop1_step_kept st u) as Hstep.
    destruct (kept_by_first_loop u) eqn:Hk.
    + split; [rewrite Hstep; cbn [new_list]; by rewrite <- app_assoc|]. split.
      * intros x. rewrite Hr, Hstep. cbn [recognized].
        rewrite elem_of_union, elem_of_singleton. split.
        -- intros [[->|H]|(u' & Hu' & Hk' & Hx)].
           ++ right. exists u. split; [left|done].
           ++ by left.
           ++ right. exists u'. split; [by right|done].
        -- intros [H|(u' & Hu' & Hk' & Hx)]; [left; by right|].
           apply elem_of_cons in Hu' as [->|Hu'].
           ++ left. by left.
           ++ right. eauto.
      * rewrite Hstep. cbn [highest_ver]. by destruct (named_and_versioned u).
    + rewrite Hstep in Hr |- *. split; [done|]. split.
      * intros x. rewrite Hr. split.
        -- intros [H|(u' & Hu' & Hk' & Hx)]; [by left|].
           right. exists u'. split; [by right|done].
        -- intros [H|(u' & Hu' & Hk' & Hx)]; [by left|].
           apply elem_of_cons in Hu' as [->|Hu']; [congruence|].
           right. eauto.
      * unfold kept_by_first_loop in Hk.
        apply orb_false_iff in Hk as [-> _]. done.
Qed.

Lemma highest_version_fold l : forall hv,
  hv <= foldl (fun hv u => if named_and_versioned u
                           then Z.max hv (default 0 (EXTVER (hheader u)))
                           else hv) hv l
  /\ Forall (fun u => named_and_versioned u = true ->
                      default 0 (EXTVER (hheader u)) <=
                      foldl (fun hv u => if named_and_versioned u
                           then Z.max hv (default 0 (EXTVER (hheader u)))
                           else hv) hv l) l.
Proof.
  induction l as [|u l IH]; intros hv; cbn [foldl].
  - split; [lia|constructor].
  - destruct (named_and_versioned u) eqn:Hu.
    + destruct (IH (Z.max hv (default 0 (EXTVER (hheader u))))) as [Hle Hall].
      split; [lia|]. constructor; [intros _; lia|done].
    + destruct (IH hv) as [Hle Hall]. split; [done|].
      constructor; [intros; congruence|done].
Qed.

Lemma highest_version_bounds hdulist :
  0 <= highest_version hdulist
  /\ forall u, u ∈ hdulist -> named_and_versioned u = true ->
               default 0 (EXTVER (hheader u)) <= highest_version hdulist.
Proof.
  unfold highest_version.
  destruct (highest_version_fold hdulist 0) as [H0 Hall].
  split; [done|]. intros u Hu. rewrite List.Forall_forall in Hall.
  apply Hall. by apply list_elem_of_In.
Qed.

Lemma prepared_above_mono floor floor' de e e' :
  floor <= floor' -> prepared_above floor' de e e' ->
  prepared_above floor de e e'.
Proof.
  intros Hle (H1 & H2 & H3 & H4 & H5 & H6).
  repeat (split; [done|]).
  destruct (is_image e && no_version (EXTVER (hheader e))); [|done].
  destruct H6 as (v & Hv & Hlt). exists v. split; [done|lia].
Qed.

Lemma prepared_above_kept floor de e :
  kept_by_first_loop e = true -> prepared_above floor de e e.
Proof.
  intros Hk. unfold prepared_above. repeat (split; [done|]).
  destruct (is_image e) eqn:Hi; cbn.
  - apply image_not_primary in Hi as Hp.
    unfold kept_by_first_loop, named_and_versioned in Hk.
    rewrite Hp, orb_false_r in Hk.
    apply andb_true_iff in Hk as [Hv Hn%bool_decide_eq_true].
    apply negb_true_iff in Hv. rewrite Hv. destruct Hn as [n ->]. done.
  - done.
Qed.

Lemma prepare_loop2_spec de l : forall st,
  NoDup (map hid l) ->
  (forall u, u ∈ l -> hid u ∈ recognized st <-> kept_by_first_loop u = true) ->
  exists added,
    new_list (foldl (prepare_loop2_step de) st l) = new_list st ++ added
    /\ Forall2 (prepared_above (highest_ver st) de)
               (List.filter (fun u => negb (kept_by_first_loop u)) l) added.
Proof.
  induction l as [|u l IH]; intros st Hnd Hrec; cbn [foldl List.filter].
  - exists []. by rewrite app_nil_r.
  - cbn [map] in Hnd. apply NoDup_cons in Hnd as [Hu Hnd].
    assert (Hother : forall u', u' ∈ l -> hid u' <> hid u).
    { intros u' Hu' Heq. apply Hu. rewrite <- Heq.
      apply list_elem_of_In, in_map, list_elem_of_In, Hu'. }
    pose proof (Hrec u ltac:(left)) as Hru.
    unfold prepare_loop2_step at 2.
    destruct (decide (hid u ∈ recognized st)) as [Hin|Hnin].
    + rewrite bool_decide_eq_true_2 by done.
      assert (kept_by_first_loop u = true) as -> by by apply Hru.
      cbn [negb]. apply IH; [done|]. intros u' Hu'. apply Hrec. by right.
    + rewrite bool_decide_eq_false_2 by done.
      assert (Hk : kept_by_first_loop u = false).
      { apply not_true_is_false. intros Hk. by apply Hnin, Hru. }
      rewrite Hk. cbn [negb].
      destruct (is_image u) eqn:Hi.
      * set (h1 := if bool_decide (is_Some (EXTNAME (hheader u)))
                   then hheader u else set_extname de (hheader u)).
        set (h2 := if no_version (EXTVER h1)
                   then set_extver (highest_ver st + 1) h1 else h1).
        edestruct (IH (mkPrepare (new_list st ++ [with_header h2 u])
                                 (highest_ver st + 1)
                                 ({[hid u]} ∪ recognized st)))
          as (added & Hadd & Hall); [done| |].
        { intros u' Hu'. cbn [recognized].
          rewrite elem_of_union, elem_of_singleton, <- Hrec by by right.
          pose proof (Hother u' Hu'). tauto. }
        exists (with_header h2 u :: added). split.
        -- rewrite Hadd. cbn [new_list]. by rewrite <- app_assoc.
        -- constructor.
           ++ unfold prepared_above. cbn [with_header hid hclass hdata hheader].
              rewrite Hi. cbn [andb].
              assert (Hc : cards h2 = cards (hheader u)
                           /\ EXTNAME h2 =
                              Some (default de (EXTNAME (hheader u)))
                           /\ EXTVER h1 = EXTVER (hheader u)).
              { subst h2 h1. destruct (EXTNAME (hheader u)) as [n|] eqn:En.
                - rewrite bool_decide_eq_true_2 by by eexists.
                  destruct (no_version (EXTVER (hheader u))); cbn; by rewrite En.
                - rewrite bool_decide_eq_false_2 by by intros [? ?].
                  cbn. destruct (no_version (EXTVER (hheader u))); cbn; done. }
              destruct Hc as (Hc & Hn & Hv1).
              repeat (split; [done|]).
              subst h2. rewrite Hv1.
              destruct (no_version (EXTVER (hheader u))) eqn:Hnv.
              ** exists (highest_ver st + 1). cbn. split; [done|lia].
              ** done.
           ++ eapply Forall2_impl; [exact Hall|].
              intros e e'. apply prepared_above_mono. cbn. lia.
      * edestruct (IH (mkPrepare (new_list st ++ [u]) (highest_ver st)
                                 ({[hid u]} ∪ recognized st)))
          as (added & Hadd & Hall); [done| |].
        { intros u' Hu'. cbn [recognized].
          rewrite elem_of_union, elem_of_singleton, <- Hrec by by right.
          pose proof (Hother u' Hu'). tauto. }
        exists (u :: added). split.
        -- rewrite Hadd. cbn [new_list]. by rewrite <- app_assoc.
        -- constructor; [|exact Hall].
           unfold prepared_above. rewrite Hi. cbn. done.
Qed.

Lemma Forall2_filter_merge {A B} (R : A -> B -> Prop) (p : A -> bool)
    (l : list A) : forall a b,
  Forall2 R (List.filter p l) a ->
  Forall2 R (List.filter (fun x => negb (p x)) l) b ->
  exists c, c ≡ₚ a ++ b /\ Forall2 R l c.
Proof.
  induction l as [|x l IH]; intros a b; cbn [List.filter].
  - intros ->%Forall2_nil_inv_l ->%Forall2_nil_inv_l. by exists [].
  - destruct (p x); cbn [negb].
    + intros (y & a' & Hy & Ha & ->)%Forall2_cons_inv_l Hb.
      destruct (IH _ _ Ha Hb) as (c & Hc & Hall).
      exists (y :: c). split; [cbn; by rewrite Hc|by constructor].
    + intros Ha (y & b' & Hy & Hb & ->)%Forall2_cons_inv_l.
      destruct (IH _ _ Ha Hb) as (c & Hc & Hall).
      exists (y :: c). split; [|by constructor].
      rewrite Hc. apply Permutation_middle.
Qed.

Lemma prepare_multi_extension de hdulist :
  NoDup (map hid hdulist) ->
  multi_extension hdulist = true ->
  exists L L0,
    _prepare_hdulist strip_structural hdulist de = Ok L
    /\ L ≡ₚ L0
    /\ Forall2 (prepared_above (highest_version hdulist) de) hdulist L0.
Proof.
  intros Hnd Hmulti. unfold _prepare_hdulist.
  destruct hdulist as [|first rest] eqn:Hl; [done|].
  unfold multi_extension in Hmulti. rewrite Hmulti. rewrite <- Hl in *.
  clear Hl Hmulti first rest.
  destruct (prepare_loop1_spec hdulist (mkPrepare [] 0 ∅)) as (Hn & Hr & Hh).
  set (st1 := foldl prepare_loop1_step (mkPrepare [] 0 ∅) hdulist) in *.
  cbn [new_list recognized highest_ver app] in Hn, Hr, Hh.
  destruct (prepare_loop2_spec de hdulist st1 Hnd) as (added & Hadd & Hall).
  { intros u Hu. rewrite Hr. split.
    - intros [H|(u' & Hu' & Hk' & Hid)]; [by apply not_elem_of_empty in H|].
      assert (u' = u) as <-; [|done].
      clear -Hnd Hu Hu' Hid.
      apply list_elem_of_lookup in Hu as [i Hi].
      apply list_elem_of_lookup in Hu' as [j Hj].
      assert (i = j) as ->; [|congruence].
      eapply NoDup_lookup; [exact Hnd| |].
      + by rewrite list_lookup_fmap, Hi.
      + rewrite list_lookup_fmap, Hj. cbn. by rewrite Hid.
    - intros Hk. right. eauto. }
  rewrite Hadd, Hn.
  assert (Hkept : Forall2 (prepared_above (highest_version hdulist) de)
                          (List.filter kept_by_first_loop hdulist)
                          (List.filter kept_by_first_loop hdulist)).
  { apply Forall_Forall2_diag, List.Forall_forall. intros e He.
    apply List.filter_In in He as [_ Hk]. by apply prepared_above_kept. }
  fold (highest_version hdulist) in Hh. rewrite Hh in Hall.
  destruct (Forall2_filter_merge _ _ _ _ _ Hkept Hall) as (c & Hc & Hfin).
  eexists _, c. split; [reflexivity|]. split; [|done].
  by rewrite sorted_perm, Hc.
Qed.

Lemma Forall_sorted {A} (P : A -> Prop) (key : A -> Z * string) (xs : list A) :
  Forall P xs -> Forall P (sorted key xs).
Proof.
  rewrite !List.Forall_forall. intros H x Hx. apply H.
  eapply Permutation_in; [apply sorted_perm|done].
Qed.

Lemma prepare_steps_identified de l : forall st,
  images_identified (new_list st) -> 0 <= highest_ver st ->
  (images_identified (new_list (foldl prepare_loop1_step st l))
   /\ 0 <= highest_ver (foldl prepare_loop1_step st l))
  /\ (images_identified (new_list (foldl (prepare_loop2_step de) st l))
      /\ 0 <= highest_ver (foldl (prepare_loop2_step de) st l)).
Proof.
  unfold images_identified.
  induction l as [|u l IH]; intros st Hall H0; cbn [foldl]; [done|].
  split.
  - apply IH.
    + rewrite prepare_loop1_step_kept.
      destruct (kept_by_first_loop u) eqn:Hk; [|done]. cbn [new_list].
      apply Forall_app. split; [done|]. constructor; [|constructor].
      intros Hi. apply image_not_primary in Hi.
      unfold kept_by_first_loop, named_and_versioned in Hk.
      rewrite Hi, orb_false_r in Hk.
      apply andb_true_iff in Hk as [Hv Hn%bool_decide_eq_true].
      by apply negb_true_iff in Hv.
    + rewrite prepare_loop1_step_kept.
      destruct (kept_by_first_loop u); [|done]. cbn.
      destruct (named_and_versioned u); lia.
  - apply IH.
    + unfold prepare_loop2_step.
      destruct (bool_decide (hid u ∈ recognized st)); [done|].
      destruct (is_image u) eqn:Hi; cbn [new_list].
      * apply Forall_app. split; [done|]. constructor; [|constructor].
        intros _. cbn [with_header hheader].
        destruct (EXTNAME (hheader u)) as [n|] eqn:En.
        -- rewrite bool_decide_eq_true_2 by by eexists.
           destruct (no_version (EXTVER (hheader u))) eqn:Hv; cbn.
           ++ rewrite En. split; [by eexists|].
              apply Z.eqb_neq. lia.
           ++ rewrite En. split; [by eexists|done].
        -- rewrite bool_decide_eq_false_2 by by intros [? ?].
           cbn. destruct (no_version (EXTVER (hheader u))) eqn:Hv; cbn.
           ++ split; [by eexists|]. apply Z.eqb_neq. lia.
           ++ split; [by eexists|done].
      * apply Forall_app. split; [done|]. constructor; [|constructor].
        congruence.
    + unfold prepare_loop2_step.
      destruct (bool_decide (hid u ∈ recognized st)); [done|].
      destruct (is_image u); cbn; lia.
Qed.


(** X7. A multi-extension list of distinct extension objects comes back
    complete: the result is the input in another order, sorted by the
    key, each extension the same object with the same class, data and
    cards; a name or a version that was present is never overwritten, and
    only image extensions are given one. *)
Theorem prepare_keeps_every_extension de hdulist :
  NoDup (map hid hdulist) ->
  multi_extension hdulist = true ->
  exists L L0,
    _prepare_hdulist strip_structural hdulist de = Ok L
    /\ L ≡ₚ L0
    /\ StronglySorted (key_le fits_ext_comp_key) L
    /\ Forall2 (fun e e' =>
                  hid e' = hid e /\ hclass e' = hclass e
                  /\ hdata e' = hdata e
                  /\ cards (hheader e') = cards (hheader e)
                  /\ (forall n, EXTNAME (hheader e) = Some n ->
                                EXTNAME (hheader e') = Some n)
                  /\ (no_version (EXTVER (hheader e)) = false ->
                      EXTVER (hheader e') = EXTVER (hheader e))
                  /\ (is_image e = false -> hheader e' = hheader e))
               hdulist L0.
Proof.
  intros Hnd Hmulti.
  destruct (prepare_multi_extension de hdulist Hnd Hmulti)
    as (L & L0 & HL & Hperm & Hall).
  exists L, L0. split; [done|]. split; [done|]. split.
  - unfold _prepare_hdulist in HL. destruct hdulist; [done|].
    destruct (_ || _); [|destruct (is_table _); [done|]];
      apply (f_equal (fun r => match r with Ok x => x | Raise _ => [] end)) in HL;
      cbv beta iota in HL; rewrite <- HL; apply sorted_sorted.
  - eapply Forall2_impl; [exact Hall|].
    intros e e' (H1 & H2 & H3 & H4 & H5 & H6).
    repeat (split; [done|]). split; [|split].
    + intros n Hn. rewrite H5, Hn. by destruct (is_image e).
    + intros Hv. rewrite Hv, andb_false_r in H6. done.
    + intros Hi. rewrite Hi in H5, H6. cbn in H6.
      destruct (hheader e), (hheader e'); cbn in *. congruence.
Qed.

(** X8. The versions [_prepare_hdulist] assigns are fresh: an image
    extension that comes without a version (absent or -1) leaves with a
    version that is at least 1 and greater than the version of every
    extension of the input that has both a name and a version. *)
Theorem prepare_assigns_fresh_versions de hdulist e :
  NoDup (map hid hdulist) ->
  multi_extension hdulist = true ->
  e ∈ hdulist -> is_image e = true ->
  no_version (EXTVER (hheader e)) = true ->
  exists L e' v,
    _prepare_hdulist strip_structural hdulist de = Ok L
    /\ e' ∈ L /\ hid e' = hid e /\ EXTVER (hheader e') = Some v
    /\ 1 <= v
    /\ forall u, u ∈ hdulist -> named_and_versioned u = true ->
                 default 0 (EXTVER (hheader u)) < v.
Proof.
  intros Hnd Hmulti He Hi Hv.
  destruct (prepare_multi_extension de hdulist Hnd Hmulti)
    as (L & L0 & HL & Hperm & Hall).
  apply list_elem_of_lookup in He as [i Hi'].
  destruct (Forall2_lookup_l _ _ _ _ _ Hall Hi') as (e' & He' & Hp).
  destruct Hp as (H1 & _ & _ & _ & _ & H6).
  rewrite Hi, Hv in H6. destruct H6 as (v & Hev & Hlt).
  destruct (highest_version_bounds hdulist) as [H0 Hmax].
  exists L, e', v. split; [done|]. split.
  - rewrite Hperm. by eapply list_elem_of_lookup_2.
  - repeat (split; [done|]). split; [lia|].
    intros u Hu Hnv. specialize (Hmax u Hu Hnv). lia.
Qed.

(** X9. A file of a single primary or image extension that has data is
    split in two: a primary extension with the header and no data, then
    an image extension with the data, named by the default name, of
    version 1, in that order. *)
Theorem prepare_single_image de first (d : Payload) :
  is_table first = false ->
  hdata first = Some d ->
  _prepare_hdulist strip_structural [first] de =
  Ok [mkHdu 0 PrimaryHDU (hheader first) None;
      mkHdu 1 ImageHDU
            (mkHeader (Some de) (Some 1)
                      (strip_structural (cards (hheader first))))
            (Some d)].
Proof.
  intros Htab Hd. unfold _prepare_hdulist. cbn [length].
  rewrite bool_decide_eq_false_2 by lia.
  rewrite (bool_decide_eq_false_2 (hdata first = None)) by congruence.
  rewrite andb_false_r. cbn [orb]. rewrite Htab, Hd. reflexivity.
Qed.

End PrepareFacts.

Lemma prepare_example_NoDup : NoDup (map hid prepare_example).
Proof. apply NoDup_ListNoDup. repeat constructor; cbn; lia. Qed.

Lemma prepare_keeps_every_extension_witness :
  NoDup (map hid prepare_example)
  /\ multi_extension prepare_example = true
  /\ exists L L0,
       _prepare_hdulist id prepare_example "SCI" = Ok L
       /\ L ≡ₚ L0
       /\ StronglySorted (key_le fits_ext_comp_key) L
       /\ Forall2 (fun e e' =>
                     hid e' = hid e /\ hclass e' = hclass e
                     /\ hdata e' = hdata e
                     /\ cards (hheader e') = cards (hheader e)
                     /\ (forall n, EXTNAME (hheader e) = Some n ->
                                   EXTNAME (hheader e') = Some n)
                     /\ (no_version (EXTVER (hheader e)) = false ->
                         EXTVER (hheader e') = EXTVER (hheader e))
                     /\ (is_image e = false -> hheader e' = hheader e))
                  prepare_example L0.
Proof.
  split; [exact prepare_example_NoDup|]. split; [reflexivity|].
  apply (prepare_keeps_every_extension id "SCI" prepare_example
           prepare_example_NoDup eq_refl).
Defined.

Lemma prepare_assigns_fresh_versions_witness :
  NoDup (map hid prepare_example)
  /\ multi_extension prepare_example = true
  /\ mkHdu 1 ImageHDU (mkHeader None None tt) (Some tt) ∈ prepare_example
  /\ exists L e' v,
       _prepare_hdulist id prepare_example "SCI" = Ok L
       /\ e' ∈ L /\ hid e' = 1%nat /\ EXTVER (hheader e') = Some v
       /\ 1 <= v
       /\ forall u, u ∈ prepare_example -> named_and_versioned u = true ->
                    default 0 (EXTVER (hheader u)) < v.
Proof.
  assert (Hin : mkHdu 1 ImageHDU (mkHeader None None tt) (Some tt)
                  ∈ prepare_example).
  { unfold prepare_example. right. left. }
  split; [exact prepare_example_NoDup|]. split; [reflexivity|].
  split; [exact Hin|].
  apply (prepare_assigns_fresh_versions id "SCI" prepare_example _
           prepare_example_NoDup eq_refl Hin eq_refl eq_refl).
Defined.

Lemma prepare_single_image_witness :
  _prepare_hdulist id
    [mkHdu 7 PrimaryHDU (mkHeader None None tt) (Some tt)] "SCI" =
  Ok [mkHdu 0 PrimaryHDU (mkHeader None None tt) None;
      mkHdu 1 ImageHDU (mkHeader (Some "SCI"%string) (Some 1) tt) (Some tt)].
Proof.
  apply (prepare_single_image id "SCI"
           (mkHdu 7 PrimaryHDU (mkHeader None None tt) (Some tt)) tt eq_refl
           eq_refl).
Defined.

Section PrepareOrder.
Context {Cards Payload : Type} (strip_structural : Cards -> Cards).
Implicit Types (e u : hdu Cards Payload) (l hdulist : list (hdu Cards Payload)).
Implicit Types (st : @prepare_state Cards Payload) (de : string).

Lemma prepare_steps_floor de l : forall st,
  versions_from_minus_one l ->
  versions_from_minus_one (new_list st) -> 0 <= highest_ver st ->
  (versions_from_minus_one (new_list (foldl prepare_loop1_step st l))
   /\ 0 <= highest_ver (foldl prepare_loop1_step st l))
  /\ (versions_from_minus_one (new_list (foldl (prepare_loop2_step de) st l))
      /\ 0 <= highest_ver (foldl (prepare_loop2_step de) st l)).
Proof.
  unfold versions_from_minus_one.
  induction l as [|u l IH]; intros st Hl Hall H0; cbn [foldl]; [done|].
  inversion Hl as [|? ? Hu Hl']; subst.
  split.
  - apply IH; [done| |].
    + rewrite prepare_loop1_step_kept.
      destruct (kept_by_first_loop u); [|done]. cbn [new_list].
      apply Forall_app. split; [done|]. by constructor.
    + rewrite prepare_loop1_step_kept.
      destruct (kept_by_first_loop u); [|done]. cbn.
      destruct (named_and_versioned u); lia.
  - apply IH; [done| |].
    + unfold prepare_loop2_step.
      destruct (bool_decide (hid u ∈ recognized st)); [done|].
      destruct (is_image u) eqn:Hi; cbn [new_list].
      * apply Forall_app. split; [done|]. constructor; [|constructor].
        intros _ v. cbn [with_header hheader].
        destruct (bool_decide (is_Some (EXTNAME (hheader u)))).
        -- destruct (no_version (EXTVER (hheader u))) eqn:Hv; cbn.
           ++ intros [= <-]. lia.
           ++ apply Hu. by apply image_not_primary.
        -- cbn. destruct (no_version (EXTVER (hheader u))) eqn:Hv; cbn.
           ++ intros [= <-]. lia.
           ++ apply Hu. by apply image_not_primary.
      * apply Forall_app. split; [done|]. by constructor.
    + unfold prepare_loop2_step.
      destruct (bool_decide (hid u ∈ recognized st)); [done|].
      destruct (is_image u); cbn; lia.
Qed.

Lemma prepare_loop2_extends de l : forall st,
  exists added,
    new_list (foldl (prepare_loop2_step de) st l) = new_list st ++ added.
Proof.
  induction l as [|u l IH]; intros st; cbn [foldl].
  - exists []. by rewrite app_nil_r.
  - destruct (IH (prepare_loop2_step de st u)) as (added & ->).
    unfold prepare_loop2_step.
    destruct (bool_decide (hid u ∈ recognized st)); [by eexists|].
    destruct (is_image u); cbn [new_list]; rewrite <- app_assoc; by eexists.
Qed.

Lemma primary_key e : is_primary e = true -> fits_ext_comp_key e = (-1, ""%string).
Proof. unfold fits_ext_comp_key. by intros ->. Qed.

Lemma key_above_primary e :
  is_primary e = false ->
  (forall v, EXTVER (hheader e) = Some v -> -1 <= v) ->
  key_leb (fits_ext_comp_key e) (-1, ""%string) = false.
Proof.
  intros Hp Hv. apply not_true_is_false. rewrite key_leb_spec.
  rewrite (key_not_primary e Hp). cbn [fst snd]. unfold version_of.
  destruct (EXTVER (hheader e)) as [v|] eqn:Ev; cbn.
  - specialize (Hv v eq_refl).
    destruct (v =? -1) eqn:E; [lia|]. apply Z.eqb_neq in E. cbn. lia.
  - lia.
Qed.

Lemma prepare_head_primary de hdulist p :
  multi_extension hdulist = true ->
  p ∈ hdulist -> is_primary p = true ->
  versions_from_minus_one hdulist ->
  exists p' rest,
    _prepare_hdulist strip_structural hdulist de = Ok (p' :: rest)
    /\ is_primary p' = true.
Proof.
  intros Hmulti Hp Hprim Hver. unfold _prepare_hdulist.
  destruct hdulist as [|first tl] eqn:Hl; [done|].
  unfold multi_extension in Hmulti. rewrite Hmulti. rewrite <- Hl in *.
  clear Hl Hmulti first tl.
  destruct (prepare_loop1_spec hdulist (mkPrepare [] 0 ∅)) as (Hn & _ & _).
  destruct (prepare_steps_floor de hdulist (mkPrepare [] 0 ∅) Hver)
    as [[Hf1 H01] _]; [constructor|done|].
  set (st1 := foldl prepare_loop1_step (mkPrepare [] 0 ∅) hdulist) in *.
  destruct (prepare_steps_floor de hdulist st1 Hver Hf1 H01) as [_ [Hf2 _]].
  destruct (prepare_loop2_extends de hdulist st1) as (added & Hadd).
  set (st2 := foldl (prepare_loop2_step de) st1 hdulist) in *.
  assert (Hin : p ∈ sorted fits_ext_comp_key (new_list st2)).
  { rewrite sorted_perm, Hadd, Hn. cbn [new_list app].
    apply elem_of_app. left. apply list_elem_of_In, List.filter_In.
    split; [by apply list_elem_of_In|].
    unfold kept_by_first_loop. by rewrite Hprim, orb_true_r. }
  assert (Hfloor : versions_from_minus_one
                     (sorted fits_ext_comp_key (new_list st2))).
  { by apply Forall_sorted. }
  pose proof (sorted_sorted fits_ext_comp_key (new_list st2)) as Hsorted.
  destruct (sorted fits_ext_comp_key (new_list st2)) as [|h rest];
    [by apply elem_of_nil in Hin|].
  exists h, rest. split; [done|].
  destruct (is_primary h) eqn:Hh; [done|]. exfalso.
  apply elem_of_cons in Hin as [->|Hin]; [congruence|].
  inversion Hsorted as [|? ? _ Hle]; subst.
  rewrite List.Forall_forall in Hle.
  specialize (Hle p ltac:(by apply list_elem_of_In)).
  unfold key_le in Hle. rewrite (primary_key p Hprim) in Hle.
  inversion Hfloor as [|? ? Hfh _]; subst.
  rewrite key_above_primary in Hle; [done|done|by apply Hfh].
Qed.

(** X10. When no extension has a version below -1, a multi-extension
    list that holds a primary extension comes back with a primary
    extension first, wherever it stood in the input. *)
Theorem prepare_primary_first de hdulist p :
  multi_extension hdulist = true ->
  p ∈ hdulist -> is_primary p = true ->
  versions_from_minus_one hdulist ->
  exists p' rest,
    _prepare_hdulist strip_structural hdulist de = Ok (p' :: rest)
    /\ is_primary p' = true.
Proof. apply prepare_head_primary. Qed.

End PrepareOrder.

Lemma prepare_primary_first_witness :
  multi_extension prepare_example = true
  /\ mkHdu 0 PrimaryHDU (mkHeader None None tt) None ∈ prepare_example
  /\ versions_from_minus_one prepare_example
  /\ exists p' rest,
       _prepare_hdulist id prepare_example "SCI" = Ok (p' :: rest)
       /\ is_primary p' = true.
Proof.
  assert (Hin : mkHdu 0 PrimaryHDU (mkHeader None None tt) None
                  ∈ prepare_example) by left.
  assert (Hver : versions_from_minus_one prepare_example).
  { unfold versions_from_minus_one, prepare_example.
    repeat constructor; cbn; intros; simplify_eq; lia. }
  split; [reflexivity|]. split; [exact Hin|]. split; [exact Hver|].
  apply (prepare_primary_first id "SCI" prepare_example _ eq_refl Hin eq_refl
           Hver).
Defined.

(** ** The blocks of [windowedOp], and the calls without blocks *)

Section BoxFacts.
Context {px Tbl W Cards : Type}.
Context (junk : list Z -> px) (zero : px) (no_cards : Cards).
Implicit Types (shp kernel : list Z).

Lemma length_cart_product {A} (ls : list (list A)) :
  length (cart_product ls) = foldr Nat.mul 1%nat (map length ls).
Proof.
  induction ls as [|l ls IH]; cbn [cart_product map foldr]; [done|].
  rewrite <- IH. clear IH.
  induction l as [|x l IHl]; cbn [flat_map length]; [done|].
  rewrite length_app, length_map, IHl. lia.
Qed.

Lemma cart_product_empty_factor {A} (ls : list (list A)) :
  [] ∈ ls -> cart_product ls = [].
Proof.
  intros Hin. apply length_zero_iff_nil. rewrite length_cart_product.
  induction ls as [|l ls IH]; [by apply elem_of_nil in Hin|].
  cbn [map foldr]. apply elem_of_cons in Hin as [<-|Hin]; [done|].
  rewrite IH by done. lia.
Qed.

Lemma range_len_ceil axis step :
  0 < step -> 0 <= axis -> Py.range_len 0 axis step = ceil_div axis step.
Proof.
  intros Hs Ha. unfold Py.range_len, ceil_div.
  assert ((0 <? step) = true) as -> by lia.
  destruct (0 <? axis) eqn:E.
  - replace (axis + step - 1) with (axis - 0 - 1 + 1 * step) by lia.
    rewrite Z.div_add by lia. done.
  - assert (axis = 0) as -> by lia. cbn. symmetry. apply Z.div_small. lia.
Qed.

(** X11. [generate_boxes] makes one block per step along every axis, the
    last one of an axis partial when the step does not divide it: for
    positive steps the number of blocks is the product over the axes of
    the axis length divided by the step, rounded up. *)
Theorem generate_boxes_count shp kernel :
  length shp = length kernel ->
  Forall (fun step => 0 < step) kernel ->
  Forall (fun axis => 0 <= axis) shp ->
  exists boxes,
    Windowed.generate_boxes shp kernel = Ok boxes
    /\ Z.of_nat (length boxes) = block_count shp kernel.
Proof.
  intros Hlen Hpos Hshp. unfold Windowed.generate_boxes.
  rewrite decide_True by done.
  destruct (all_ticks_ok shp kernel Hlen Hpos) as (ticks & -> & Hall). cbn.
  eexists. split; [done|]. rewrite length_cart_product. unfold block_count.
  clear Hlen.
  induction Hall as [|t axis step ticks shp kernel Ht Hall IH];
    cbn [map foldr zip_with]; [done|].
  inversion Hpos as [|? ? Hs Hpos']; subst.
  inversion Hshp as [|? ? Ha Hshp']; subst.
  rewrite Nat2Z.inj_mul, IH by done. f_equal.
  rewrite length_map, range_length. by apply range_len_ceil.
Qed.

Lemma all_ticks_outcome shp : forall kernel,
  length shp = length kernel ->
  match Windowed.all_ticks shp kernel with
  | Ok ticks =>
      (0 ∉ kernel)
      /\ Forall3 (fun t axis step =>
                    t = map (fun x => (x, x + step)) (Py.range 0 axis step))
                 ticks shp kernel
  | Raise e => e = ValueError /\ 0 ∈ kernel
  end.
Proof.
  induction shp as [|axis shp IH]; intros [|step kernel] Hlen;
    try discriminate; cbn [Windowed.all_ticks].
  - split; [apply not_elem_of_nil|constructor].
  - unfold Windowed.axis_ticks. destruct (step =? 0) eqn:E.
    + apply Z.eqb_eq in E as ->. cbn. split; [done|left].
    + apply Z.eqb_neq in E. cbn [mbind result_bind rbind].
      specialize (IH kernel ltac:(by injection Hlen)).
      destruct (Windowed.all_ticks shp kernel) as [ticks|e]; cbn.
      * destruct IH as [Hk Hall]. split; [|by constructor].
        rewrite not_elem_of_cons. split; [congruence|done].
      * destruct IH as [-> Hk]. split; [done|by right].
Qed.

(** X12. [generate_boxes] fails in two ways only: with [AssertionError]
    exactly when the shape and the kernel differ in length, and with the
    [ValueError] of [range] exactly when they agree in length and a step
    of the kernel is zero. *)
Theorem generate_boxes_errors shp kernel :
  (Windowed.generate_boxes shp kernel = Raise AssertionError <->
   length shp <> length kernel)
  /\ (Windowed.generate_boxes shp kernel = Raise ValueError <->
      length shp = length kernel /\ 0 ∈ kernel)
  /\ (forall e, Windowed.generate_boxes shp kernel = Raise e ->
                e = AssertionError \/ e = ValueError).
Proof.
  unfold Windowed.generate_boxes.
  destruct (decide (length shp = length kernel)) as [Hlen|Hlen].
  - pose proof (all_ticks_outcome shp kernel Hlen) as Hout.
    destruct (Windowed.all_ticks shp kernel) as [ticks|e]; cbn.
    + destruct Hout as [Hk _]. split; [split; done|].
      split; [split; [done|by intros [_ ?]]|done].
    + destruct Hout as [-> Hk]. split; [split; done|].
      split; [split; done|]. intros e [= <-]. by right.
  - split; [split; done|]. split; [split; [done|by intros [? _]]|].
    intros e [= <-]. by left.
Qed.

Lemma generate_boxes_negative_step shp kernel :
  length shp = length kernel ->
  0 ∉ kernel ->
  Forall (fun axis => 0 <= axis) shp ->
  Exists (fun step => step < 0) kernel ->
  Windowed.generate_boxes shp kernel = Ok [].
Proof.
  intros Hlen H0 Hshp Hneg. unfold Windowed.generate_boxes.
  rewrite decide_True by done.
  pose proof (all_ticks_outcome shp kernel Hlen) as Hout.
  destruct (Windowed.all_ticks shp kernel) as [ticks|e]; cbn;
    [|by destruct Hout].
  destruct Hout as [_ Hall]. f_equal. apply cart_product_empty_factor.
  clear Hlen H0.
  induction Hall as [|t axis step ticks shp kernel Ht Hall IH];
    [by inversion Hneg|].
  inversion Hshp as [|? ? Ha Hshp']; subst.
  inversion Hneg as [? ? Hs|? ? Hneg']; subst.
  - rewrite elem_of_cons. left. unfold Py.range, Py.range_len.
    assert ((0 <? step) = false) as -> by lia.
    assert ((step <? 0) = true) as -> by lia.
    assert ((axis <? 0) = false) as -> by lia. done.
  - right. by apply IH.
Qed.

(** X13. A kernel without a zero step but with a negative one gives no
    block at all: called with a shape and a dtype, [windowedOp] then
    allocates the result, never calls the function, restores the log
    level and returns the result as allocated, without auxiliary
    objects. *)
Theorem windowedOp_negative_step_no_call func
    (first : NDData (Np.ndarray px) Tbl W Cards) rest shp kernel
    with_uncertainty with_mask :
  length shp = length kernel ->
  0 ∉ kernel ->
  Forall (fun axis => 0 <= axis) shp ->
  Exists (fun step => step < 0) kernel ->
  Windowed.windowedOp junk zero no_cards func (first :: rest) kernel
    (Some shp) true with_uncertainty with_mask =
  ([Windowed.EvAllocate shp; Windowed.EvSetLogLevel;
    Windowed.EvResetLogLevel],
   Ok (mkND (mkPlanes (Np.empty junk shp)
                      (if with_uncertainty
                       then Some (Np.mkArray shp (fun _ => zero)) else None)
                      (if with_mask then Some (Np.empty junk shp) else None))
            (nd_wcs first) (nd_header first) (nd_ver first) [] ∅)).
Proof.
  intros Hlen H0 Hshp Hneg. unfold Windowed.windowedOp.
  cbn [Windowed.resolve_shape Windowed.resolve_dtype].
  rewrite (proj2 (valid_dims_Forall shp) Hshp). cbn [negb].
  by rewrite (generate_boxes_negative_step shp kernel Hlen H0 Hshp Hneg).
Qed.

(** X14. On an empty sequence [windowedOp] always raises and never
    calls the function.  It raises [IndexError], with one exception: a
    shape with a negative length passed together with a dtype makes the
    allocation of the result raise [ValueError] before [sequence[0]] is
    read. *)
Theorem windowedOp_empty_sequence func kernel (shp : option (list Z))
    dtype_given with_uncertainty with_mask :
  snd (Windowed.windowedOp (Tbl := Tbl) (W := W) junk zero no_cards func []
         kernel shp dtype_given with_uncertainty with_mask)
    = (match shp with
       | Some s =>
           if dtype_given && negb (Np.valid_dims s)
           then Raise ValueError else Raise IndexError
       | None => Raise IndexError
       end)
  /\ Forall (fun ev => forall coords, ev <> Windowed.EvCall coords)
            (fst (Windowed.windowedOp (Tbl := Tbl) (W := W) junk zero no_cards
                    func [] kernel shp dtype_given with_uncertainty
                    with_mask)).
Proof.
  unfold Windowed.windowedOp, Windowed.resolve_shape, Windowed.resolve_dtype.
  destruct shp as [shp|]; cbn.
  - destruct dtype_given; cbn; [|split; [done|constructor]].
    destruct (Np.valid_dims shp); cbn; (split; [done|]);
      by repeat constructor.
  - rewrite size_empty. cbn. split; [done|constructor].
Qed.









End BoxFacts.

Lemma generate_boxes_count_witness :
  length [5; 4] = length [2; 4]
  /\ Forall (fun step => 0 < step) [2; 4]
  /\ Forall (fun axis => 0 <= axis) [5; 4]
  /\ exists boxes,
       Windowed.generate_boxes [5; 4] [2; 4] = Ok boxes
       /\ Z.of_nat (length boxes) = block_count [5; 4] [2; 4].
Proof.
  assert (Hpos : Forall (fun step => 0 < step) [2; 4])
    by (repeat constructor; lia).
  assert (Hshp : Forall (fun axis => 0 <= axis) [5; 4])
    by (repeat constructor; lia).
  split; [reflexivity|]. split; [exact Hpos|]. split; [exact Hshp|].
  apply (generate_boxes_count [5; 4] [2; 4] eq_refl Hpos Hshp).
Defined.

Lemma windowedOp_negative_step_no_call_witness :
  length [3; 5] = length [2; -2]
  /\ (0 ∉ [2; -2])
  /\ Forall (fun axis => 0 <= axis) [3; 5]
  /\ Exists (fun step => step < 0) [2; -2]
  /\ Windowed.windowedOp (fun _ => 0) 0 tt
       (Windowed.identity_func (fun _ => 0))
       [Samples.unit_of Samples.grid] [2; -2] (Some [3; 5]) true false false =
     ([Windowed.EvAllocate [3; 5]; Windowed.EvSetLogLevel;
       Windowed.EvResetLogLevel],
      Ok (mkND (mkPlanes (Np.empty (fun _ => 0) [3; 5]) None None)
               (nd_wcs (Samples.unit_of Samples.grid))
               (nd_header (Samples.unit_of Samples.grid))
               (nd_ver (Samples.unit_of Samples.grid)) [] ∅)).
Proof.
  assert (H0 : 0 ∉ [2; -2]).
  { rewrite !not_elem_of_cons. repeat split; try lia. apply not_elem_of_nil. }
  assert (Hshp : Forall (fun axis => 0 <= axis) [3; 5])
    by (repeat constructor; lia).
  assert (Hneg : Exists (fun step => step < 0) [2; -2])
    by (right; left; lia).
  split; [reflexivity|]. split; [exact H0|]. split; [exact Hshp|].
  split; [exact Hneg|].
  apply (windowedOp_negative_step_no_call (fun _ => 0) 0 tt
           (Windowed.identity_func (fun _ => 0))
           (Samples.unit_of Samples.grid) [] [3; 5] [2; -2] false false
           eq_refl H0 Hshp Hneg).
Defined.


(** ** Cropping: clipping, repetition and the shapes of the planes *)

Section CropMoreFacts.
Context {px Tbl W Cards : Type}.
Implicit Types (a b : Np.ndarray px) (p : planes (Np.ndarray px)).

Lemma slice_axes_whole (rest : list Z) :
  Np.slice_axes rest [] = Ok (map (fun n => (0, n, 1)) rest).
Proof. by destruct rest. Qed.

Lemma window_axes rows cols rest x1 y1 x2 y2 :
  Np.slice_axes (rows :: cols :: rest) (Crop.window x1 y1 x2 y2) =
  Ok ((Py.adjust_bound rows 0 rows y1, Py.adjust_bound rows 0 rows (y2 + 1), 1)
      :: (Py.adjust_bound cols 0 cols x1,
          Py.adjust_bound cols 0 cols (x2 + 1), 1)
      :: map (fun n => (0, n, 1)) rest).
Proof.
  unfold Crop.window. cbn [Np.slice_axes].
  rewrite slice_axes_whole. reflexivity.
Qed.

Lemma window_needs_two_axes a x1 y1 x2 y2 :
  (Np.ndim a < 2)%nat ->
  Np.getslices a (Crop.window x1 y1 x2 y2) = Raise IndexError.
Proof.
  unfold Np.ndim, Np.getslices. intros Hdim.
  destruct (Np.shape a) as [|n [|m rest]]; cbn in Hdim; try lia; done.
Qed.

Lemma whole_axes_len (rest : list Z) :
  Forall (fun n => 0 <= n) rest ->
  map Np.axis_len (map (fun n => (0, n, 1)) rest) = rest.
Proof.
  induction 1 as [|n rest Hn _ IH]; cbn [map]; [done|].
  rewrite IH. f_equal. unfold Np.axis_len, Py.range_len. cbn.
  destruct (0 <? n) eqn:E; [|lia].
  rewrite Z.div_1_r. lia.
Qed.

Lemma whole_axes_src (rest r : list Z) :
  length r = length rest ->
  zip_with Np.axis_src (map (fun n => (0, n, 1)) rest) r = r.
Proof.
  revert r. induction rest as [|n rest IH]; intros [|k r] Hlen;
    try discriminate; cbn; [done|].
  rewrite IH by (by injection Hlen). f_equal. lia.
Qed.

Lemma clipped_axis_len lo hi n :
  0 <= lo -> -1 <= hi -> 0 <= n ->
  Np.axis_len (Py.adjust_bound n 0 n lo, Py.adjust_bound n 0 n (hi + 1), 1)
  = clipped_len lo hi n
  /\ Py.adjust_bound n 0 n lo = Z.min lo n.
Proof.
  intros Hlo Hhi Hn. unfold Np.axis_len, Py.adjust_bound, clipped_len.
  assert ((lo <? 0) = false) as -> by lia.
  assert ((hi + 1 <? 0) = false) as -> by lia.
  split; [|done]. unfold Py.range_len. cbn.
  destruct (Z.min lo n <? Z.min (hi + 1) n) eqn:E.
  - rewrite Z.div_1_r. lia.
  - lia.
Qed.

Lemma window_clipped a rows cols rest x1 y1 x2 y2 :
  Np.shape a = rows :: cols :: rest -> valid_shape a ->
  0 <= x1 -> 0 <= y1 -> -1 <= x2 -> -1 <= y2 ->
  exists b,
    Np.getslices a (Crop.window x1 y1 x2 y2) = Ok b
    /\ Np.shape b = clipped_len y1 y2 rows :: clipped_len x1 x2 cols :: rest
    /\ forall i j r, length r = length rest ->
         Np.item b (i :: j :: r) =
         Np.item a (Z.min y1 rows + i :: Z.min x1 cols + j :: r).
Proof.
  intros Hshape Hvalid Hx1 Hy1 Hx2 Hy2. unfold valid_shape in Hvalid.
  rewrite Hshape in Hvalid.
  inversion Hvalid as [|? ? Hrows Hv']; subst.
  inversion Hv' as [|? ? Hcols Hrest]; subst.
  unfold Np.getslices. rewrite Hshape, window_axes.
  cbn [mbind result_bind rbind]. eexists. split; [done|].
  destruct (clipped_axis_len y1 y2 rows Hy1 Hy2 Hrows) as [Hly Hsy].
  destruct (clipped_axis_len x1 x2 cols Hx1 Hx2 Hcols) as [Hlx Hsx].
  cbn [Np.shape Np.item map]. split.
  - by rewrite Hly, Hlx, whole_axes_len.
  - intros i j r Hr. cbn [zip_with]. rewrite whole_axes_src by done.
    unfold Np.axis_src. rewrite Hsy, Hsx. do 3 f_equal; lia.
Qed.

(** X16. The window [[y1:y2+1, x1:x2+1]] that [_crop_nd] takes is
    clipped to the array and never raises for coordinates out of range:
    for non-negative coordinates the two leading axes keep what lies
    between the bounds and inside the array (nothing when the window is
    outside), the other axes are whole, and the element at [(i, j, ...)]
    is the one of the array at [(min(y1, rows) + i, min(x1, cols) + j,
    ...)]. *)
Theorem crop_window_is_clipped a rows cols rest x1 y1 x2 y2 :
  Np.shape a = rows :: cols :: rest -> valid_shape a ->
  0 <= x1 -> 0 <= y1 -> -1 <= x2 -> -1 <= y2 ->
  exists b,
    is_window_of x1 y1 x2 y2 a b
    /\ Np.shape b = clipped_len y1 y2 rows :: clipped_len x1 x2 cols :: rest
    /\ forall i j r, length r = length rest ->
         Np.item b (i :: j :: r) =
         Np.item a (Z.min y1 rows + i :: Z.min x1 cols + j :: r).
Proof. apply window_clipped. Qed.

Lemma window_again a b x1 y1 x2 y2 :
  valid_shape a -> 0 <= x1 <= x2 -> 0 <= y1 <= y2 ->
  Np.getslices a (Crop.window x1 y1 x2 y2) = Ok b ->
  exists c, Np.getslices b (Crop.window 0 0 (x2 - x1) (y2 - y1)) = Ok c
            /\ Np.same_array c b /\ valid_shape b.
Proof.
  intros Hvalid Hx Hy Hb.
  destruct (Np.shape a) as [|rows [|cols rest]] eqn:Hshape.
  - unfold Np.getslices in Hb. by rewrite Hshape in Hb.
  - unfold Np.getslices in Hb. by rewrite Hshape in Hb.
  - destruct (window_clipped a rows cols rest x1 y1 x2 y2)
      as (b' & Hb' & Hsb & Hib); [done|done|lia..|].
    assert (b' = b) as -> by congruence. clear Hb'.
    assert (Hvb : valid_shape b).
    { unfold valid_shape in *. rewrite Hsb. rewrite Hshape in Hvalid.
      inversion Hvalid as [|? ? _ Hv']; subst.
      inversion Hv' as [|? ? _ Hrest]; subst.
      unfold clipped_len. repeat constructor; [lia|lia|done]. }
    destruct (window_clipped b _ _ rest 0 0 (x2 - x1) (y2 - y1) Hsb Hvb)
      as (c & Hc & Hsc & Hic); [lia..|].
    exists c. split; [done|]. split; [|done].
    assert (Hs : Np.shape c = Np.shape b).
    { rewrite Hsc, Hsb. unfold clipped_len. f_equal; [lia|]. f_equal. lia. }
    split; [done|]. intros idx Hin. rewrite Hs, Hsb in Hin.
    unfold Np.in_bounds in Hin.
    apply Forall2_cons_inv_l in Hin as (i & idx1 & Hi & Hin & ->).
    apply Forall2_cons_inv_l in Hin as (j & r & Hj & Hin & ->).
    apply Forall2_length in Hin.
    rewrite Hic by done. unfold clipped_len in *. do 2 f_equal; [lia|].
    f_equal. lia.
Qed.

Lemma crop_opt_again x1 y1 x2 y2 (o o' : option (Np.ndarray px)) :
  from_option valid_shape True o -> 0 <= x1 <= x2 -> 0 <= y1 <= y2 ->
  Crop.crop_opt x1 y1 x2 y2 o = Ok o' ->
  exists o'', Crop.crop_opt 0 0 (x2 - x1) (y2 - y1) o' = Ok o''
              /\ option_Forall2 Np.same_array o'' o'.
Proof.
  intros Hvalid Hx Hy. destruct o as [a|]; cbn.
  - intros (b & Hb & [= <-])%rbind_ok.
    destruct (window_again a b x1 y1 x2 y2 Hvalid Hx Hy Hb) as (c & Hc & Hs & _).
    cbn. rewrite Hc. cbn. eexists. split; [done|by constructor].
  - intros [= <-]. cbn. eexists. split; [done|constructor].
Qed.

(** X17. Cropping again with the bounds of the window itself changes
    nothing: after [_crop_nd] with [0 <= x1 <= x2] and [0 <= y1 <= y2],
    [_crop_nd] with [(0, 0, x2 - x1, y2 - y1)] returns planes of the same
    shapes with the same elements. *)
Theorem crop_nd_again p p' x1 y1 x2 y2 :
  planes_valid p -> 0 <= x1 <= x2 -> 0 <= y1 <= y2 ->
  Crop._crop_nd p x1 y1 x2 y2 = Ok p' ->
  exists p'',
    Crop._crop_nd p' 0 0 (x2 - x1) (y2 - y1) = Ok p''
    /\ same_planes p'' p'.
Proof.
  intros (Hd & Hu & Hm) Hx Hy. unfold Crop._crop_nd.
  intros (d & Hdd & (u & Huu & (m & Hmm & [= <-])%rbind_ok)%rbind_ok)%rbind_ok.
  cbn [p_data p_uncertainty p_mask].
  destruct (window_again _ d x1 y1 x2 y2 Hd Hx Hy Hdd) as (d' & -> & Hsd & _).
  destruct (crop_opt_again x1 y1 x2 y2 _ u Hu Hx Hy Huu) as (u' & -> & Hsu).
  destruct (crop_opt_again x1 y1 x2 y2 _ m Hm Hx Hy Hmm) as (m' & -> & Hsm).
  cbn. eexists. split; [done|]. unfold same_planes. cbn.
  split; [exact Hsd|]. split; [exact Hsu|exact Hsm].
Qed.

Lemma getslices_shape a b a' sl :
  Np.shape a = Np.shape a' ->
  Np.getslices a sl = Ok b ->
  exists b', Np.getslices a' sl = Ok b' /\ Np.shape b' = Np.shape b.
Proof.
  unfold Np.getslices. intros <-.
  intros (axes & -> & [= <-])%rbind_ok. cbn. eauto.
Qed.

(** X18. Cropping keeps the planes of an object in step: when the
    uncertainty and the mask have the shape of the data before
    [_crop_nd], they have the shape of the data after it. *)
Theorem crop_nd_keeps_planes_aligned p p' x1 y1 x2 y2 :
  planes_aligned p ->
  Crop._crop_nd p x1 y1 x2 y2 = Ok p' ->
  planes_aligned p'.
Proof.
  intros [Hu Hm]. unfold Crop._crop_nd.
  intros (d & Hd & (u & Huu & (m & Hmm & [= <-])%rbind_ok)%rbind_ok)%rbind_ok.
  unfold planes_aligned. cbn [p_data p_uncertainty p_mask]. split.
  - destruct (p_uncertainty p) as [a|]; cbn in *.
    + apply rbind_ok in Huu as (b & Hb & [= <-]). cbn.
      destruct (getslices_shape _ _ _ _ Hu Hb) as (d' & Hd' & Hs).
      congruence.
    + by injection Huu as <-.
  - destruct (p_mask p) as [a|]; cbn in *.
    + apply rbind_ok in Hmm as (b & Hb & [= <-]). cbn.
      destruct (getslices_shape _ _ _ _ Hm Hb) as (d' & Hd' & Hs).
      congruence.
    + by injection Hmm as <-.
Qed.

(** X19. [crop] needs two axes: when the first unit of a provider has
    data of fewer than two axes, the call raises [IndexError]. *)
Theorem crop_needs_two_axes (ad : provider (Np.ndarray px) Tbl W Cards)
    nd rest x1 y1 x2 y2 :
  _nddata ad = nd :: rest ->
  (Np.ndim (p_data (nd_planes nd)) < 2)%nat ->
  Crop.crop ad x1 y1 x2 y2 = Raise IndexError.
Proof.
  intros Hnds Hdim. unfold Crop.crop. rewrite Hnds.
  cbn [Crop._crop_impl]. unfold Crop.crop_unit, Crop._crop_nd.
  by rewrite window_needs_two_axes.
Qed.

(** X20. A provider whose units are croppable (planes of two axes or
    more, no plain array of the shape of the primary array among the
    auxiliary objects) is cropped without error, whatever the
    coordinates: every unit keeps its header, version and transform, its
    planes and the auxiliary [NDData] objects of its shape become their
    windows, and the primary header and the tables of the container are
    untouched. *)
Theorem crop_croppable_provider (ad : provider (Np.ndarray px) Tbl W Cards)
    x1 y1 x2 y2 :
  Forall croppable (_nddata ad) ->
  exists ad',
    Crop.crop ad x1 y1 x2 y2 = Ok ad'
    /\ phu ad' = phu ad /\ _tables ad' = _tables ad
    /\ Forall2 (unit_cropped x1 y1 x2 y2) (_nddata ad) (_nddata ad').
Proof.
  intros Hall. unfold Crop.crop.
  destruct (crop_impl_total x1 y1 x2 y2 _ Hall) as (nds' & Hnds).
  rewrite Hnds. cbn. eexists. split; [done|]. cbn.
  repeat split. by apply crop_impl_spec.
Qed.

End CropMoreFacts.

Lemma crop_window_is_clipped_witness :
  Np.shape Samples.grid = [3; 5] /\ valid_shape Samples.grid
  /\ exists b,
       is_window_of 1 2 9 9 Samples.grid b
       /\ Np.shape b = [clipped_len 2 9 3; clipped_len 1 9 5]
       /\ forall i j r, length r = length (@nil Z) ->
            Np.item b (i :: j :: r) =
            Np.item Samples.grid (Z.min 2 3 + i :: Z.min 1 5 + j :: r).
Proof.
  assert (Hv : valid_shape Samples.grid).
  { unfold valid_shape. cbn. repeat constructor; lia. }
  split; [reflexivity|]. split; [exact Hv|].
  apply (crop_window_is_clipped Samples.grid 3 5 [] 1 2 9 9 eq_refl Hv);
    lia.
Defined.

Lemma crop_nd_again_witness :
  planes_valid (mkPlanes Samples.grid None None)
  /\ 0 <= 1 <= 3 /\ 0 <= 0 <= 1
  /\ exists p' p'',
       Crop._crop_nd (mkPlanes Samples.grid None None) 1 0 3 1 = Ok p'
       /\ Crop._crop_nd p' 0 0 (3 - 1) (1 - 0) = Ok p''
       /\ same_planes p'' p'.
Proof.
  assert (Hv : planes_valid (mkPlanes Samples.grid None None)).
  { unfold planes_valid, valid_shape. cbn. repeat constructor; lia. }
  split; [exact Hv|]. split; [lia|]. split; [lia|].
  eexists.
  destruct (crop_nd_again (mkPlanes Samples.grid None None) _ 1 0 3 1 Hv
              ltac:(lia) ltac:(lia) eq_refl) as (p'' & H1 & H2).
  exists p''. split; [reflexivity|]. split; [exact H1|exact H2].
Defined.

Lemma crop_nd_keeps_planes_aligned_witness :
  planes_aligned (mkPlanes Samples.grid (Some Samples.grid) None)
  /\ exists p',
       Crop._crop_nd (mkPlanes Samples.grid (Some Samples.grid) None) 1 0 3 1
         = Ok p'
       /\ planes_aligned p'.
Proof.
  assert (Ha : planes_aligned (mkPlanes Samples.grid (Some Samples.grid) None)).
  { by split. }
  split; [exact Ha|]. eexists. split; [reflexivity|].
  apply (crop_nd_keeps_planes_aligned
           (mkPlanes Samples.grid (Some Samples.grid) None) _ 1 0 3 1 Ha
           eq_refl).
Defined.

Lemma crop_needs_two_axes_witness :
  Crop.crop
    (mkProvider (mkHeader None None tt)
       [Samples.unit_of (Np.mkArray [4] (fun _ => 0))]
       (∅ : gmap string unit))
    0 0 1 1 = Raise IndexError.
Proof.
  apply (crop_needs_two_axes
           (mkProvider (mkHeader None None tt)
              [Samples.unit_of (Np.mkArray [4] (fun _ => 0))]
              (∅ : gmap string unit))
           (Samples.unit_of (Np.mkArray [4] (fun _ => 0))) [] 0 0 1 1
           eq_refl).
  cbn. lia.
Defined.

Lemma crop_croppable_provider_witness :
  Forall croppable
    (_nddata (mkProvider (mkHeader None None tt)
                [Samples.unit_of Samples.grid] (∅ : gmap string unit)))
  /\ exists ad',
       Crop.crop
         (mkProvider (mkHeader None None tt) [Samples.unit_of Samples.grid]
            (∅ : gmap string unit)) 1 0 3 1 = Ok ad'
       /\ phu ad' = mkHeader None None tt /\ _tables ad' = ∅
       /\ Forall2 (unit_cropped 1 0 3 1) [Samples.unit_of Samples.grid]
                  (_nddata ad').
Proof.
  assert (Hc : Forall croppable
                 (_nddata (mkProvider (mkHeader None None tt)
                             [Samples.unit_of Samples.grid]
                             (∅ : gmap string unit)))).
  { repeat constructor; cbn; lia. }
  split; [exact Hc|].
  apply (crop_croppable_provider
           (mkProvider (mkHeader None None tt) [Samples.unit_of Samples.grid]
              (∅ : gmap string unit)) 1 0 3 1 Hc).
Defined.

(** ** The codec: what the decoder hands to the parser *)

Section CodecRoundTrip.
Context {Arr Tbl W Cards : Type}.
Context (asdf_serialize : W -> option (list Byte.byte)).
Context (column_cards : col_format -> nat -> Cards).
Context (asdf_open : list Byte.byte -> option (option W)).

Lemma splitlines_go_line (l : list ascii) : forall cur s,
  plain_line l ->
  Codec.splitlines_go cur (l ++ "010"%char :: s) =
  string_of_list_ascii (rev cur ++ l) :: Codec.splitlines_go [] s.
Proof.
  induction l as [|c l IH]; intros cur s Hl; cbn [app Codec.splitlines_go].
  - rewrite app_nil_r. reflexivity.
  - inversion Hl as [|? ? [Hcr Hlb] Hl']; subst.
    rewrite Hcr, Hlb, IH by done. cbn [rev]. by rewrite <- app_assoc.
Qed.

Lemma splitlines_unlines (ls : list (list ascii)) :
  Forall plain_line ls ->
  Codec.splitlines (unlines ls) = map string_of_list_ascii ls.
Proof.
  unfold Codec.splitlines.
  induction 1 as [|l ls Hl _ IH]; cbn [unlines flat_map map]; [done|].
  rewrite <- app_assoc. cbn [app].
  rewrite splitlines_go_line by done. cbn [rev app]. f_equal. exact IH.
Qed.

Lemma list_ascii_of_string_app (s1 s2 : string) :
  list_ascii_of_string (s1 ++ s2) =
  list_ascii_of_string s1 ++ list_ascii_of_string s2.
Proof. induction s1 as [|c s1 IH]; simpl; [done|]. by rewrite IH. Qed.

Lemma join_lines_chars (l : list ascii) (ls : list (list ascii)) :
  Reader.join_lines (map string_of_list_ascii (l :: ls)) =
  map byte_of_ascii (l ++ flat_map (fun l' => "010"%char :: l') ls).
Proof.
  unfold Reader.join_lines. cbn [map]. f_equal.
  assert (H : forall acc : string,
            list_ascii_of_string
              (foldl (fun acc l => (acc ++ String "010" l)%string) acc
                     (map string_of_list_ascii ls)) =
            list_ascii_of_string acc
              ++ flat_map (fun l' => "010"%char :: l') ls).
  { induction ls as [|l' ls IH]; intros acc; cbn [map foldl flat_map].
    - by rewrite app_nil_r.
    - rewrite IH, list_ascii_of_string_app. cbn [list_ascii_of_string].
      rewrite list_ascii_of_string_of_list_ascii, <- app_assoc. done. }
  by rewrite H, list_ascii_of_string_of_list_ascii.
Qed.

Lemma removelast_unlines (l : list ascii) (ls : list (list ascii)) :
  removelast (unlines (l :: ls)) =
  l ++ flat_map (fun l' => "010"%char :: l') ls.
Proof.
  revert l. induction ls as [|l' ls IH]; intros l.
  - cbn [unlines flat_map]. rewrite !app_nil_r.
    by rewrite removelast_last.
  - change (unlines (l :: l' :: ls))
      with ((l ++ ["010"%char]) ++ unlines (l' :: ls)).
    rewrite removelast_app.
    + rewrite IH. cbn [flat_map]. by rewrite <- app_assoc.
    + cbn [unlines flat_map]. by destruct l'.
Qed.

Lemma removelast_map {A B} (f : A -> B) (xs : list A) :
  removelast (map f xs) = map f (removelast xs).
Proof.
  induction xs as [|x [|y xs] IH]; cbn [map removelast] in *; [done..|].
  by rewrite IH.
Qed.

Lemma decode_ascii_bytes buf text :
  Codec.decode_ascii buf = Some text -> buf = map byte_of_ascii text.
Proof.
  intros [_ ->]%decode_ascii_Some. rewrite map_map.
  rewrite <- (map_id buf) at 1. apply map_ext.
  intros b. by rewrite byte_of_ascii_of_byte.
Qed.

(** X21. The text form of the codec loses only the final line feed: for
    a serialized document of lines ended by line feeds,
    [wcs_to_asdftablehdu] makes an extension without logging, and
    [asdftablehdu_to_wcs] on that extension returns what the parser
    makes of the document without its last byte. *)
Theorem codec_text_round_trip hid w extver buf (ls : list (list ascii)) :
  asdf_serialize w = Some buf ->
  Codec.decode_ascii buf = Some (unlines ls) ->
  ls <> [] -> Forall plain_line ls ->
  exists e,
    Codec.wcs_to_asdftablehdu (Arr := Reader.raw_image Arr) (Tbl := Tbl)
      asdf_serialize column_cards hid w extver = ([], Ok e)
    /\ Reader.asdftablehdu_to_wcs asdf_open e =
       mjoin (asdf_open (removelast buf)).
Proof.
  intros Hser Hdec Hne Hplain. unfold Codec.wcs_to_asdftablehdu.
  rewrite Hser, Hdec, splitlines_unlines by done.
  destruct ls as [|l ls]; [done|].
  destruct (max_len_ok (map string_of_list_ascii (l :: ls)))
    as (width & Hw & _); [done|].
  rewrite Hw. cbn [mbind result_bind rbind]. eexists. split; [done|].
  unfold Reader.asdftablehdu_to_wcs, Reader.is_table_class.
  cbn [hclass hdata]. rewrite (bool_decide_eq_true_2 (TableHDU = TableHDU))
    by done.
  rewrite orb_true_r.
  change (("gWCS" =? "gWCS")%string) with true. cbv iota.
  rewrite join_lines_chars, <- removelast_unlines, <- removelast_map.
  by rewrite <- (decode_ascii_bytes buf _ Hdec).
Qed.

(** X22. The binary fallback of the codec is exact: when a byte of the
    serialized document is not ASCII, [asdftablehdu_to_wcs] on the
    extension [wcs_to_asdftablehdu] makes hands the parser the very
    bytes that were serialized. *)
Theorem codec_binary_round_trip hid w extver buf :
  asdf_serialize w = Some buf ->
  Exists (fun b => (128 <= Byte.to_N b)%N) buf ->
  exists e,
    Codec.wcs_to_asdftablehdu (Arr := Reader.raw_image Arr) (Tbl := Tbl)
      asdf_serialize column_cards hid w extver =
      ([WarnAsciiFallback extver], Ok e)
    /\ Reader.asdftablehdu_to_wcs asdf_open e = mjoin (asdf_open buf).
Proof.
  intros Hser Hex. unfold Codec.wcs_to_asdftablehdu.
  apply decode_ascii_None in Hex. rewrite Hser, Hex.
  eexists. split; [done|].
  unfold Reader.asdftablehdu_to_wcs, Reader.is_table_class.
  cbn [hclass hdata].
  rewrite (bool_decide_eq_true_2 (BinTableHDU = BinTableHDU)) by done.
  cbn [orb]. by change (("gWCS" =? "gWCS")%string) with true.
Qed.

End CodecRoundTrip.

Lemma codec_text_round_trip_witness :
  Codec.decode_ascii [Byte.x23; Byte.x0a] = Some (unlines [["#"%char]])
  /\ [["#"%char]] <> []
  /\ Forall plain_line [["#"%char]]
  /\ exists e,
       Codec.wcs_to_asdftablehdu (Arr := Reader.raw_image unit) (Tbl := unit)
         (fun _ : unit => Some [Byte.x23; Byte.x0a])
         (fun _ _ => tt) 0 tt (Some 1) = ([], Ok e)
       /\ Reader.asdftablehdu_to_wcs (fun _ => Some (Some tt)) e =
          mjoin (Some (Some tt)).
Proof.
  assert (Hne : [["#"%char]] <> []) by done.
  assert (Hplain : Forall plain_line [["#"%char]]).
  { repeat constructor. }
  split; [reflexivity|]. split; [exact Hne|]. split; [exact Hplain|].
  apply (codec_text_round_trip (Arr := unit) (Tbl := unit)
           (fun _ : unit => Some [Byte.x23; Byte.x0a]) (fun _ _ => tt)
           (fun _ => Some (Some tt)) 0 tt (Some 1) [Byte.x23; Byte.x0a]
           [["#"%char]] eq_refl eq_refl Hne Hplain).
Defined.

Lemma codec_binary_round_trip_witness :
  Exists (fun b => (128 <= Byte.to_N b)%N) [Byte.xff]
  /\ exists e,
       Codec.wcs_to_asdftablehdu (Arr := Reader.raw_image unit) (Tbl := unit)
         (fun _ : unit => Some [Byte.xff])
         (fun _ _ => tt) 0 tt (Some 1) = ([WarnAsciiFallback (Some 1)], Ok e)
       /\ Reader.asdftablehdu_to_wcs (fun _ => Some (Some tt)) e =
          mjoin (Some (Some tt)).
Proof.
  assert (Hex : Exists (fun b => (128 <= Byte.to_N b)%N) [Byte.xff]).
  { left. cbn. lia. }
  split; [exact Hex|].
  apply (codec_binary_round_trip (Arr := unit) (Tbl := unit)
           (fun _ : unit => Some [Byte.xff]) (fun _ _ => tt)
           (fun _ => Some (Some tt)) 0 tt (Some 1) [Byte.xff] eq_refl Hex).
Defined.

(** ** Views, and the deletion of attributes *)

Section ViewFacts.
Context {Provider : Type}.

(** X23. Iterating a view yields single views of the same provider that
    together hold the unit indices of the view, in order; none of them
    can be sliced again ([TypeError]) or have items removed. *)
Theorem proxy_iter_single_views (p : Proxy.t Provider) :
  Forall (fun q => Proxy.is_single q = true
                   /\ Proxy._provider q = Proxy._provider p
                   /\ (forall slc, Proxy.getitem q slc = Raise TypeError)
                   /\ (forall idx, Proxy.delitem q idx = Raise TypeError))
         (Proxy.iter p)
  /\ flat_map Proxy._mapping (Proxy.iter p) = Proxy._mapping p.
Proof.
  unfold Proxy.iter. destruct (Proxy._single p) eqn:Hs.
  - split.
    + constructor; [|constructor]. unfold Proxy.getitem, Proxy.is_single.
      by rewrite Hs.
    + cbn. by rewrite app_nil_r.
  - split.
    + apply List.Forall_forall. intros q Hq.
      apply in_map_iff in Hq as (n & <- & _). done.
    + induction (Proxy._mapping p) as [|n l IH]; cbn; [done|]. by rewrite IH.
Qed.

End ViewFacts.

Section AttrFacts.
Context {Arr Tbl W Cards : Type} (isupper : string -> bool).
Implicit Types (tables : gmap string Tbl) (names : gset string).
Implicit Types (nd : NDData Arr Tbl W Cards) (attribute : string).

(** X24. [FitsProvider.__delattr__] refuses a name that is not upper
    case with [ValueError] before it touches anything.  For an upper-case
    name, the table of that name is gone after the call and the other
    tables are as before, whether the call returns or raises: it returns
    exactly when the name was a table and an attribute of the instance,
    and raises [AttributeError] otherwise, also after it has deleted a
    table that was no attribute of the instance. *)
Theorem provider_delattr_contract tables names attribute :
  (if isupper attribute then
     fst (fst (Attr.provider_delattr isupper tables names attribute)) =
       delete attribute tables
     /\ snd (fst (Attr.provider_delattr isupper tables names attribute)) =
          (if bool_decide (is_Some (tables !! attribute))
           then names ∖ {[attribute]} else names)
     /\ (snd (Attr.provider_delattr isupper tables names attribute) = Ok tt <->
         is_Some (tables !! attribute) /\ attribute ∈ names)
     /\ (snd (Attr.provider_delattr isupper tables names attribute) =
           Raise AttributeError <->
         tables !! attribute = None \/ attribute ∉ names)
   else
     Attr.provider_delattr isupper tables names attribute =
       (tables, names, Raise ValueError)).
Proof.
  unfold Attr.provider_delattr. destruct (isupper attribute); cbn [negb]; [|done].
  destruct (tables !! attribute) as [t|] eqn:Ht.
  - rewrite (bool_decide_eq_true_2 (is_Some (Some t))) by by eexists.
    destruct (decide (attribute ∈ names)) as [Hin|Hnin].
    + rewrite bool_decide_eq_true_2 by done. cbn.
      split; [done|]. split; [done|]. split.
      * split; [by eauto|done].
      * split; [done|]. by intros [?|?].
    + rewrite bool_decide_eq_false_2 by done. cbn.
      split; [done|]. split.
      * apply set_eq. intros x. rewrite elem_of_difference, elem_of_singleton.
        split; [|tauto]. intros Hx. split; [done|]. by intros ->.
      * split; [split; [done|tauto]|]. split; [by right|done].
  - rewrite (bool_decide_eq_false_2 (is_Some None)) by by intros [? ?].
    cbn. split; [by rewrite delete_id|]. split; [done|].
    split; [split; [done|by intros [[? ?] _]]|]. split; [by left|done].
Qed.

(** X25. [FitsProviderProxy.__delattr__] checks the name first and the
    view second: a name that is not upper case is a [ValueError] also on
    a multi view, an upper-case name on a multi view is a [TypeError].
    On a single view it removes the auxiliary object of that name and
    its header and keeps the other objects in their order, or raises
    [AttributeError] when there is no such object; the unit is untouched
    whenever it raises, and a second deletion of the same name always
    raises. *)
Theorem proxy_delattr_contract single nd attribute :
  (snd (Attr.proxy_delattr isupper single nd attribute) =
     (if negb (isupper attribute) then Raise ValueError
      else if negb single then Raise TypeError
      else if bool_decide (attribute ∈ map fst (nd_other nd)) then Ok tt
      else Raise AttributeError))
  /\ (snd (Attr.proxy_delattr isupper single nd attribute) <> Ok tt ->
      fst (Attr.proxy_delattr isupper single nd attribute) = nd)
  /\ (snd (Attr.proxy_delattr isupper single nd attribute) = Ok tt ->
      let nd' := fst (Attr.proxy_delattr isupper single nd attribute) in
      nd_other nd' = List.filter (fun kv => negb (String.eqb (fst kv) attribute))
                                 (nd_other nd)
      /\ nd_other_header nd' !! attribute = None
      /\ (forall name, name <> attribute ->
            nd_other_header nd' !! name = nd_other_header nd !! name)
      /\ nd_planes nd' = nd_planes nd /\ nd_header nd' = nd_header nd
      /\ snd (Attr.proxy_delattr isupper single nd' attribute) =
           Raise AttributeError).
Proof.
  unfold Attr.proxy_delattr.
  destruct (isupper attribute) eqn:Hup; cbn [negb]; [|done].
  destruct single; cbn [negb]; [|done].
  assert (Hdel : Windowed.dict_del attribute (nd_other nd) =
                 List.filter (fun kv => negb (String.eqb (fst kv) attribute))
                             (nd_other nd)).
  { unfold Windowed.dict_del.
    induction (nd_other nd) as [|[k v] l IH]; [done|].
    rewrite filter_cons. cbn [List.filter fst].
    destruct (decide (k <> attribute)) as [Hne|Heq].
    - apply String.eqb_neq in Hne. rewrite Hne. cbn. by rewrite IH.
    - assert (k = attribute) as -> by (by destruct (decide (k = attribute))).
      rewrite String.eqb_refl. cbn. exact IH. }
  destruct (bool_decide (attribute ∈ map fst (nd_other nd))) eqn:Hin;
    cbn [fst snd].
  - split; [done|]. split; [done|]. intros _. cbn.
    split; [exact Hdel|]. split; [apply lookup_delete_eq|].
    split; [intros name Hne; by apply lookup_delete_ne|].
    split; [done|]. split; [done|].
    rewrite bool_decide_eq_false_2; [done|].
    rewrite Hdel. intros Hm. apply list_elem_of_In, in_map_iff in Hm
      as ([k v] & Hk & Hkv). cbn in Hk. subst k.
    apply List.filter_In in Hkv as [_ Hkv]. cbn in Hkv.
    by rewrite String.eqb_refl in Hkv.
  - split; [done|]. split; [done|]. done.
Qed.

End AttrFacts.

(** ** What the writer and the reader refuse *)

Section WriterRefusals.
Context {Arr Tbl W Cards D : Type}.
Context (gwcs_to_fits : NDData Arr Tbl W Cards -> header Cards -> gwcs_result D).
Context (approximate : D -> bool).
Context (strip_wcs_keywords : Cards -> Cards).
Context (header_update : Cards -> D -> Cards).
Context (header_for_table : Tbl -> result exn (header Cards)).
Context (asdf_serialize : W -> option (list Byte.byte)).
Context (column_cards : col_format -> nat -> Cards).

Lemma write_others_known (ext : NDData Arr Tbl W Cards) h items : forall st st',
  Writer.write_others header_for_table ext h st items = Ok st' ->
  Forall (fun item : string * aux Arr Tbl => snd item <> AuxOpaque) items.
Proof.
  induction items as [|[name o] items IH]; intros st st'; cbn; [constructor|].
  intros (st1 & H1 & Hrest)%rbind_ok. constructor; [|by eapply IH].
  cbn. by destruct o.
Qed.

Lemma write_units_known phu_header exts : forall st st',
  Writer.write_units gwcs_to_fits approximate strip_wcs_keywords header_update
    header_for_table asdf_serialize column_cards phu_header st exts = Ok st' ->
  Forall (fun ext => Forall (fun item : string * aux Arr Tbl =>
                               snd item <> AuxOpaque) (nd_other ext)) exts.
Proof.
  induction exts as [|ext exts IH]; intros st st'; cbn; [constructor|].
  intros (st1 & H1 & Hrest)%rbind_ok. constructor; [|by eapply IH].
  unfold Writer.write_unit in H1.
  apply rbind_ok in H1 as ([[h wcs] msgs] & _ & H1).
  apply rbind_ok in H1 as (st2 & _ & H1).
  by eapply write_others_known.
Qed.

(** X26. [write_fits] never passes over an auxiliary object silently:
    when a unit holds one that is neither a table, an array nor an
    [NDData] object, the call raises and hands nothing to [writeto]. *)
Theorem write_fits_refuses_unknown_auxiliary
    (ad : provider Arr Tbl W Cards) nd name :
  nd ∈ _nddata ad -> (name, AuxOpaque) ∈ nd_other nd ->
  forall st,
    Writer.write_fits gwcs_to_fits approximate strip_wcs_keywords
      header_update header_for_table asdf_serialize column_cards ad <> Ok st.
Proof.
  intros Hnd Hin st. unfold Writer.write_fits.
  intros (st1 & H1 & _)%rbind_ok.
  apply write_units_known in H1. rewrite List.Forall_forall in H1.
  specialize (H1 nd ltac:(by apply list_elem_of_In)).
  rewrite List.Forall_forall in H1.
  by apply (H1 (name, AuxOpaque) ltac:(by apply list_elem_of_In)).
Qed.

End WriterRefusals.

Section ReaderRefusals.
Context {Arr Tbl W Cards : Type}.
Context (rescale : Q -> Q -> Arr -> Arr).
Context (astropy_data : Reader.raw_image Arr -> Arr).
Context (asdf_open : list Byte.byte -> option (option W)).
Context (fitswcs_to_gwcs : header Cards -> result exn (option W)).
Context (with_origname : Cards -> Cards).
Context (strip_structural : Cards -> Cards).
Context (column_table : payload (Reader.raw_image Arr) Tbl -> option Tbl).
Context (fresh_table_name : gmap string Tbl -> string).
Implicit Types (u e : hdu Cards (payload (Reader.raw_image Arr) Tbl)).
Implicit Types (l : list (hdu Cards (payload (Reader.raw_image Arr) Tbl))).

Lemma associated_extensions_named l v : forall xs,
  Reader.associated_extensions l v = Ok xs ->
  forall u, u ∈ l -> EXTVER (hheader u) = Some v ->
            is_Some (EXTNAME (hheader u)).
Proof.
  induction l as [|x l IH]; intros xs Hok u Hu Hv.
  - by apply elem_of_nil in Hu.
  - cbn [Reader.associated_extensions] in Hok.
    destruct (decide (EXTVER (hheader x) = Some v)) as [Hx|Hx].
    + rewrite bool_decide_eq_true_2 in Hok by done.
      destruct (EXTNAME (hheader x)) as [name|] eqn:En; [|done].
      apply rbind_ok in Hok as (others & Hothers & _).
      apply elem_of_cons in Hu as [->|Hu]; [by rewrite En|].
      by eapply IH.
    + rewrite bool_decide_eq_false_2 in Hok by done.
      apply elem_of_cons in Hu as [->|Hu]; [done|].
      by eapply IH.
Qed.

Lemma read_units_associated memmap l phu_header units : forall st st',
  Reader.read_units rescale astropy_data asdf_open fitswcs_to_gwcs
    column_table memmap l phu_header st units = Ok st' ->
  forall u, u ∈ units ->
    exists xs, Reader.associated_extensions l
                 (default (-1) (EXTVER (hheader u))) = Ok xs.
Proof.
  induction units as [|x units IH]; intros st st' Hok u Hu.
  - by apply elem_of_nil in Hu.
  - cbn [Reader.read_units] in Hok.
    apply rbind_ok in Hok as (st1 & H1 & Hrest).
    apply elem_of_cons in Hu as [->|Hu]; [|by eapply IH].
    unfold Reader.read_unit in H1.
    apply rbind_ok in H1 as (xs & Hxs & _). eauto.
Qed.

(** X27. A table extension without [EXTNAME] that carries the [EXTVER]
    of a [SCI] image makes the whole read fail: in a multi-extension
    file with a primary extension and no version below -1, [read_fits]
    returns no provider, because [associated_extensions] reads
    [header['EXTNAME']] of every extension of the version of the
    unit. *)
Theorem read_fits_nameless_table_aborts memmap
    (source : list (hdu Cards (payload (Reader.raw_image Arr) Tbl)))
    p sci t v :
  multi_extension source = true -> NoDup (map hid source) ->
  versions_from_minus_one source ->
  p ∈ source -> is_primary p = true ->
  sci ∈ source -> is_image sci = true ->
  EXTNAME (hheader sci) = Some DEFAULT_EXTENSION ->
  EXTVER (hheader sci) = Some v -> v <> -1 ->
  t ∈ source -> is_image t = false -> is_primary t = false ->
  EXTNAME (hheader t) = None -> EXTVER (hheader t) = Some v ->
  forall ad,
    Reader.read_fits rescale astropy_data asdf_open fitswcs_to_gwcs
      with_origname strip_structural column_table fresh_table_name
      memmap source <> Ok ad.
Proof.
  intros Hmulti Hnd Hver Hp Hprim Hsci Hsi Hsn Hsv Hv1 Ht Hti Htp Htn Htv ad.
  destruct (prepare_multi_extension strip_structural DEFAULT_EXTENSION source
              Hnd Hmulti) as (L & L0 & HL & Hperm & Hall).
  destruct (prepare_head_primary strip_structural DEFAULT_EXTENSION source p
              Hmulti Hp Hprim Hver) as (first & rest & HL' & Hfirst).
  assert (L = first :: rest) as -> by congruence. clear HL'.
  (* the image and the table, as they come out of the preparation *)
  apply list_elem_of_lookup in Hsci as [i Hi].
  destruct (Forall2_lookup_l _ _ _ _ _ Hall Hi)
    as (sci' & Hsci' & (_ & Hsc & _ & _ & Hsn' & Hsv')).
  apply list_elem_of_lookup in Ht as [j Hj].
  destruct (Forall2_lookup_l _ _ _ _ _ Hall Hj)
    as (t' & Ht' & (_ & Htc & _ & _ & Htn' & Htv')).
  rewrite Hsi, Hsn in Hsn'. cbn in Hsn'.
  rewrite Hsi, Hsv in Hsv'. cbn in Hsv'.
  assert ((v =? -1) = false) as Hv1' by lia. rewrite Hv1' in Hsv'.
  rewrite Hti, Htn in Htn'. rewrite Hti in Htv'. cbn in Htv'.
  rewrite Htv in Htv'.
  assert (Hsr : sci' ∈ rest).
  { assert (Hin : sci' ∈ first :: rest).
    { rewrite Hperm. by eapply list_elem_of_lookup_2. }
    apply elem_of_cons in Hin as [->|Hin]; [|done].
    unfold is_primary, is_image in *.
    apply bool_decide_eq_true in Hfirst, Hsi. congruence. }
  assert (Htr : t' ∈ rest).
  { assert (Hin : t' ∈ first :: rest).
    { rewrite Hperm. by eapply list_elem_of_lookup_2. }
    apply elem_of_cons in Hin as [->|Hin]; [|done].
    unfold is_primary in *.
    apply bool_decide_eq_true in Hfirst. apply bool_decide_eq_false in Htp.
    congruence. }
  unfold Reader.read_fits. rewrite HL. cbn [mbind result_bind rbind].
  intros (st & Hunits & _)%rbind_ok.
  eapply read_units_associated in Hunits as (xs & Hxs).
  - rewrite Hsv' in Hxs. cbn [default] in Hxs.
    destruct (associated_extensions_named _ _ _ Hxs t') as [n Hn];
      [by right|done|]. congruence.
  - apply list_elem_of_filter. by split.
Qed.

End ReaderRefusals.

Lemma write_fits_refuses_unknown_auxiliary_witness :
  mkND (mkPlanes [1; 2] None None) (NoWCS : wcs_obj unit)
       (mkHeader (Some "SCI"%string) (Some 1) tt) 1
       [("X"%string, AuxOpaque)] ∅
    ∈ [mkND (mkPlanes [1; 2] None None) (NoWCS : wcs_obj unit)
            (mkHeader (Some "SCI"%string) (Some 1) tt) 1
            [("X"%string, (AuxOpaque : aux (list Z) unit))] ∅]
  /\ forall st,
       Fixture.write
         (mkProvider (mkHeader None None tt)
            [mkND (mkPlanes [1; 2] None None) NoWCS
                  (mkHeader (Some "SCI"%string) (Some 1) tt) 1
                  [("X"%string, AuxOpaque)] ∅] ∅) <> Ok st.
Proof.
  split; [left|]. unfold Fixture.write.
  apply (write_fits_refuses_unknown_auxiliary (D := unit) _ _ _ _ _ _ _
           (mkProvider (mkHeader None None tt)
              [mkND (mkPlanes [1; 2] None None) NoWCS
                    (mkHeader (Some "SCI"%string) (Some 1) tt) 1
                    [("X"%string, AuxOpaque)] ∅] ∅)
           (mkND (mkPlanes [1; 2] None None) NoWCS
                 (mkHeader (Some "SCI"%string) (Some 1) tt) 1
                 [("X"%string, AuxOpaque)] ∅)
           "X"%string).
  - cbn. left.
  - cbn. left.
Defined.

Lemma nameless_table_example_NoDup : NoDup (map hid nameless_table_example).
Proof. apply NoDup_ListNoDup. repeat constructor; cbn; lia. Qed.

Lemma read_fits_nameless_table_aborts_witness :
  multi_extension nameless_table_example = true
  /\ NoDup (map hid nameless_table_example)
  /\ versions_from_minus_one nameless_table_example
  /\ forall ad, Fixture.read true nameless_table_example <> Ok ad.
Proof.
  assert (Hver : versions_from_minus_one nameless_table_example).
  { unfold versions_from_minus_one, nameless_table_example.
    repeat constructor; cbn; intros; simplify_eq; lia. }
  split; [reflexivity|]. split; [exact nameless_table_example_NoDup|].
  split; [exact Hver|]. unfold Fixture.read.
  apply (read_fits_nameless_table_aborts _ _ _ _ _ _ _ _ true
           nameless_table_example
           (mkHdu 0 PrimaryHDU (mkHeader None None tt) None)
           (mkHdu 1 ImageHDU (mkHeader (Some "SCI"%string) (Some 1) tt)
                  (Some (ImageData (Reader.mkRaw 1%Q 0%Q [1; 2]))))
           (mkHdu 2 BinTableHDU (mkHeader None (Some 1) tt)
                  (Some (TableData tt)))
           1 eq_refl nameless_table_example_NoDup Hver);
    try reflexivity; try lia.
  - left.
  - right. left.
  - right. right. left.
Defined.

(** ** The round trip: read, write, read again *)

(** *** The stable sort and the selection of extensions *)

Section SortFilter.
Context {A : Type} (key : A -> Z * string).
Context (P : A -> Prop) `{forall x, Decision (P x)}.

Lemma sorted_insert_least x (l : list A) :
  Forall (key_le key x) l -> sorted_insert key x l = x :: l.
Proof.
  destruct l as [|y l]; [done|]. intros [Hy _]%Forall_cons.
  cbn. unfold key_le in Hy. by rewrite Hy.
Qed.

Lemma sorted_insert_filter x (l : list A) :
  StronglySorted (key_le key) l ->
  filter P (sorted_insert key x l) =
  if decide (P x) then sorted_insert key x (filter P l) else filter P l.
Proof.
  induction 1 as [|y l Hl IH Hy]; cbn [sorted_insert].
  - rewrite filter_cons, filter_nil. by destruct (decide (P x)).
  - destruct (key_leb (key x) (key y)) eqn:Hxy.
    + rewrite (filter_cons _ x). destruct (decide (P x)); [|done].
      rewrite sorted_insert_least; [done|].
      apply Forall_forall. intros z Hz.
      apply list_elem_of_filter in Hz as [_ Hz].
      apply elem_of_cons in Hz as [->|Hz]; [done|].
      rewrite Forall_forall in Hy. unfold key_le in *.
      eapply key_leb_trans; [exact Hxy|]. by apply Hy.
    + rewrite !(filter_cons _ y), IH.
      destruct (decide (P y)), (decide (P x)); cbn [sorted_insert];
        rewrite ?Hxy; done.
Qed.

(** The sort is stable: it commutes with the selection of elements. *)
Lemma filter_sorted (l : list A) :
  filter P (sorted key l) = sorted key (filter P l).
Proof.
  induction l as [|x l IH]; [done|].
  change (sorted key (x :: l)) with (sorted_insert key x (sorted key l)).
  rewrite sorted_insert_filter by apply sorted_sorted.
  rewrite filter_cons, IH. by destruct (decide (P x)).
Qed.

Lemma sorted_cons_least x (l : list A) :
  Forall (key_le key x) l -> sorted key (x :: l) = x :: sorted key l.
Proof.
  intros Hx.
  change (sorted key (x :: l)) with (sorted_insert key x (sorted key l)).
  apply sorted_insert_least. by apply Forall_sorted.
Qed.

End SortFilter.

Lemma StronglySorted_same_keys {A B} (key : A -> Z * string)
    (key' : B -> Z * string) (l : list A) (l' : list B) :
  Forall2 (fun a b => key a = key' b) l l' ->
  StronglySorted (key_le key) l -> StronglySorted (key_le key') l'.
Proof.
  intros Hall Hs. revert l' Hall.
  induction Hs as [|x l Hl IH Hx]; intros l' Hall.
  - apply Forall2_nil_inv_l in Hall as ->. constructor.
  - apply Forall2_cons_inv_l in Hall as (y & l'' & Hxy & Hall & ->).
    constructor; [by apply IH|].
    apply Forall_forall. intros z Hz.
    apply list_elem_of_lookup in Hz as [i Hi].
    destruct (Forall2_lookup_r _ _ _ _ _ Hall Hi) as (w & Hw & Hwz).
    rewrite Forall_forall in Hx. unfold key_le in *.
    rewrite <- Hxy, <- Hwz. apply Hx. by eapply list_elem_of_lookup_2.
Qed.

Lemma filter_and_Forall {A} (P Q : A -> Prop) `{forall x, Decision (P x)}
    `{forall x, Decision (Q x)} (l : list A) :
  Forall (fun x => P x -> Q x) l ->
  filter P l = filter (fun x => P x /\ Q x) l.
Proof.
  induction 1 as [|x l Hx Hl IH]; [done|].
  rewrite !filter_cons, IH.
  destruct (decide (P x)), (decide (P x /\ Q x)); tauto || done.
Qed.

Lemma filter_iff_Forall {A} (P Q : A -> Prop) `{forall x, Decision (P x)}
    `{forall x, Decision (Q x)} (l : list A) :
  Forall (fun x => P x <-> Q x) l -> filter P l = filter Q l.
Proof.
  induction 1 as [|x l Hx Hl IH]; [done|].
  rewrite !filter_cons, IH.
  destruct (decide (P x)), (decide (Q x)); tauto || done.
Qed.

Lemma filter_none {A} (P : A -> Prop) `{forall x, Decision (P x)} (l : list A) :
  Forall (fun x => ~ P x) l -> filter P l = [].
Proof.
  induction 1 as [|x l Hx Hl IH]; [done|].
  rewrite filter_cons, IH. by destruct (decide (P x)).
Qed.

(** *** The list prepared of a file that starts with its primary
    extension *)

Section PrepareShape.
Context {Cards Payload : Type} (strip_structural : Cards -> Cards).
Implicit Types (e u p : hdu Cards Payload) (l R : list (hdu Cards Payload)).

Lemma key_primary_least p e :
  is_primary p = true -> is_primary e = false ->
  (forall v, EXTVER (hheader e) = Some v -> -1 <= v) ->
  key_le fits_ext_comp_key p e.
Proof.
  intros Hp He Hv. unfold key_le. rewrite (primary_key p Hp).
  apply key_leb_spec. left. rewrite (key_not_primary e He). cbn [fst].
  unfold version_of.
  destruct (EXTVER (hheader e)) as [v|] eqn:Ev; cbn; [|lia].
  specialize (Hv v eq_refl).
  destruct (v =? -1) eqn:E; [lia|]. apply Z.eqb_neq in E. cbn. lia.
Qed.

(** The multi-extension branch on a list that starts with its one
    primary extension: it stays first, and the others follow in the
    order of their keys. *)
Lemma prepare_primary_head de p R :
  is_primary p = true -> Forall (fun e => is_primary e = false) R ->
  NoDup (map hid (p :: R)) -> versions_from_minus_one (p :: R) ->
  multi_extension (p :: R) = true ->
  exists added,
    _prepare_hdulist strip_structural (p :: R) de =
      Ok (p :: sorted fits_ext_comp_key
                  (List.filter kept_by_first_loop R ++ added))
    /\ Forall2 (prepared_above (highest_version (p :: R)) de)
               (List.filter (fun u => negb (kept_by_first_loop u)) R) added
    /\ versions_from_minus_one (List.filter kept_by_first_loop R ++ added).
Proof.
  intros Hp HR Hnd Hver Hmulti. unfold _prepare_hdulist.
  unfold multi_extension in Hmulti. rewrite Hmulti.
  set (hdulist := p :: R) in *.
  destruct (prepare_loop1_spec hdulist (mkPrepare [] 0 ∅)) as (Hn & Hr & Hh).
  destruct (prepare_steps_floor de hdulist (mkPrepare [] 0 ∅) Hver)
    as [[Hf1 H01] _]; [constructor|done|].
  set (st1 := foldl prepare_loop1_step (mkPrepare [] 0 ∅) hdulist) in *.
  destruct (prepare_steps_floor de hdulist st1 Hver Hf1 H01) as [_ [Hf2 _]].
  cbn [new_list recognized highest_ver app] in Hn, Hr, Hh.
  destruct (prepare_loop2_spec de hdulist st1 Hnd) as (added & Hadd & Hall).
  { intros u Hu. rewrite Hr. split.
    - intros [H|(u' & Hu' & Hk' & Hid)]; [by apply not_elem_of_empty in H|].
      assert (u' = u) as <-; [|done].
      clear -Hnd Hu Hu' Hid.
      apply list_elem_of_lookup in Hu as [i Hi].
      apply list_elem_of_lookup in Hu' as [j Hj].
      assert (i = j) as ->; [|congruence].
      eapply NoDup_lookup; [exact Hnd| |].
      + by rewrite list_lookup_fmap, Hi.
      + rewrite list_lookup_fmap, Hj. cbn. by rewrite Hid.
    - intros Hk. right. eauto. }
  assert (Hkp : kept_by_first_loop p = true).
  { unfold kept_by_first_loop. by rewrite Hp, orb_true_r. }
  subst hdulist. cbn [List.filter] in Hn, Hall. rewrite Hkp in Hn, Hall.
  cbn [negb] in Hall. fold (highest_version (p :: R)) in Hh.
  rewrite Hh in Hall. rewrite Hadd, Hn in Hf2 |- *. cbn [app] in Hf2 |- *.
  exists added. apply Forall_cons in Hf2 as [_ Hf2].
  split; [|done]. f_equal. apply sorted_cons_least.
  assert (Hprim : Forall (fun e => is_primary e = false)
                         (List.filter kept_by_first_loop R ++ added)).
  { apply Forall_app. split.
    - apply Forall_forall. intros e He.
      apply list_elem_of_In, List.filter_In in He as [He _].
      rewrite Forall_forall in HR. by apply HR, list_elem_of_In.
    - apply Forall_forall. intros e' He'.
      apply list_elem_of_lookup in He' as [i Hi].
      destruct (Forall2_lookup_r _ _ _ _ _ Hall Hi) as (e & He & Hee').
      destruct Hee' as (_ & Hc & _).
      assert (e ∈ R) as HeR.
      { apply list_elem_of_lookup_2 in He.
        apply list_elem_of_In, List.filter_In in He as [He _].
        by apply list_elem_of_In. }
      rewrite Forall_forall in HR. specialize (HR e HeR).
      unfold is_primary in *. by rewrite Hc. }
  apply Forall_forall. intros e He.
  rewrite Forall_forall in Hprim, Hf2.
  apply key_primary_least; [done|by apply Hprim|by apply Hf2, Hprim].
Qed.

End PrepareShape.

(** *** Lists in step *)

Section ListMore.
Context {A B C : Type}.

Lemma Forall2_Forall_both (R : A -> B -> Prop) (P : A -> Prop) l k :
  Forall2 R l k -> Forall P l -> Forall2 (fun a b => P a /\ R a b) l k.
Proof.
  induction 1 as [|a b l k Hab Hlk IH]; intros HP; [constructor|].
  apply Forall_cons in HP as [Ha HP]. constructor; [done|by apply IH].
Qed.

Lemma Forall2_made (R : A -> B -> Prop) l k :
  Forall2 R l k -> Forall (fun b => exists a, a ∈ l /\ R a b) k.
Proof.
  induction 1 as [|a b l k Hab Hlk IH]; constructor.
  - exists a. split; [left|done].
  - eapply Forall_impl; [exact IH|]. intros b' (a' & Ha' & Hab').
    exists a'. split; [by right|done].
Qed.

Lemma Forall2_same_left (R : A -> B -> Prop) (T : A -> C -> Prop)
    (U : B -> C -> Prop) l k m :
  Forall2 R l k -> Forall2 T l m ->
  (forall a b c, R a b -> T a c -> U b c) -> Forall2 U k m.
Proof.
  intros HR. revert m.
  induction HR as [|a b l k Hab Hlk IH]; intros m HT HU.
  - apply Forall2_nil_inv_l in HT as ->. constructor.
  - apply Forall2_cons_inv_l in HT as (c & m' & Hac & HT & ->).
    constructor; [by eapply HU|by apply IH].
Qed.

Lemma Forall2_map_eq (f : A -> C) (g : B -> C) l k :
  Forall2 (fun a b => f a = g b) l k -> map f l = map g k.
Proof. induction 1; cbn; congruence. Qed.

Lemma map_eq_Forall2 (f : A -> C) (g : B -> C) l k :
  map f l = map g k -> Forall2 (fun a b => f a = g b) l k.
Proof.
  revert k. induction l as [|a l IH]; intros [|b k] Heq; try done.
  injection Heq as Hab Heq. constructor; [done|by apply IH].
Qed.

Lemma List_filter_complement (f : A -> bool) (l : list A) :
  List.filter f l ++ List.filter (fun a => negb (f a)) l ≡ₚ l.
Proof.
  induction l as [|a l IH]; cbn; [done|]. destruct (f a); cbn.
  - by rewrite IH.
  - by rewrite <- Permutation_middle, IH.
Qed.

Lemma filter_List_filter (Q : A -> Prop) `{forall a, Decision (Q a)}
    (f : A -> bool) (l : list A) :
  Forall (fun a => Q a -> f a = true) l ->
  filter Q (List.filter f l) = filter Q l.
Proof.
  induction 1 as [|a l Ha Hl IH]; [done|]. cbn [List.filter].
  rewrite (filter_cons _ a l). destruct (decide (Q a)) as [HQ|HQ].
  - rewrite (Ha HQ), filter_cons, decide_True by done. by rewrite IH.
  - destruct (f a); [rewrite filter_cons, decide_False by done|]; done.
Qed.

Lemma Forall_imap (P : B -> Prop) (l : list A) : forall f : nat -> A -> B,
  Forall (fun a => forall i, P (f i a)) l -> Forall P (imap f l).
Proof.
  induction l as [|a l IH]; intros f Hl; cbn; [constructor|].
  apply Forall_cons in Hl as [Ha Hl]. constructor; [done|].
  apply IH. eapply Forall_impl; [exact Hl|]. intros a' Ha' i. apply Ha'.
Qed.

End ListMore.

Section PreparedMore.
Context {Cards Payload : Type} (strip_structural : Cards -> Cards).
Implicit Types (e u p : hdu Cards Payload) (l R : list (hdu Cards Payload)).

Lemma prepare_identified de l L :
  _prepare_hdulist strip_structural l de = Ok L -> images_identified L.
Proof.
  unfold _prepare_hdulist. destruct l as [|first rest] eqn:Hl; [done|].
  rewrite <- Hl.
  destruct (bool_decide (1 < length l)%nat
            || bool_decide (length l = 1%nat)
               && bool_decide (hdata first = None)).
  - intros [= <-].
    destruct (prepare_steps_identified de l (mkPrepare [] 0 ∅))
      as [[H1 H01] _]; [constructor|done|].
    destruct (prepare_steps_identified de l
                (foldl prepare_loop1_step (mkPrepare [] 0 ∅) l))
      as [_ [H2 _]]; [done|done|].
    unfold images_identified in *. by apply Forall_sorted.
  - destruct (is_table first); [done|]. intros [= <-].
    unfold images_identified.
    constructor; [done|]. constructor; [|constructor].
    intros _. cbn. split; [by eexists|done].
Qed.

Lemma prepared_hids floor de R added :
  Forall2 (prepared_above floor de)
          (List.filter (fun u => negb (kept_by_first_loop u)) R) added ->
  map hid (List.filter kept_by_first_loop R ++ added) ≡ₚ map hid R.
Proof.
  intros Hall.
  rewrite <- (List_filter_complement kept_by_first_loop R) at 2.
  rewrite !map_app. f_equiv.
  assert (map hid added =
          map hid (List.filter (fun u => negb (kept_by_first_loop u)) R))
    as ->; [|done].
  symmetry. apply Forall2_map_eq. eapply Forall2_impl; [exact Hall|].
  by intros e e' (-> & _).
Qed.

Lemma prepared_not_primary floor de R added :
  Forall (fun e => is_primary e = false) R ->
  Forall2 (prepared_above floor de)
          (List.filter (fun u => negb (kept_by_first_loop u)) R) added ->
  Forall (fun e => is_primary e = false)
         (List.filter kept_by_first_loop R ++ added).
Proof.
  intros HR Hall. rewrite Forall_forall in HR. apply Forall_app. split.
  - apply Forall_forall. intros e He.
    apply list_elem_of_In, List.filter_In in He as [He _].
    by apply HR, list_elem_of_In.
  - apply Forall_forall. intros e' He'.
    apply list_elem_of_lookup in He' as [i Hi].
    destruct (Forall2_lookup_r _ _ _ _ _ Hall Hi) as (e & He & Hee').
    destruct Hee' as (_ & Hc & _).
    assert (e ∈ R) as HeR.
    { apply list_elem_of_lookup_2 in He.
      apply list_elem_of_In, List.filter_In in He as [He _].
      by apply list_elem_of_In. }
    specialize (HR e HeR). unfold is_primary in *. by rewrite Hc.
Qed.

(** The list the preparation makes of a file that starts with its one
    primary extension: distinct objects, that extension first, the
    others in the order of their keys, every image with a name and a
    version. *)
Lemma prepared_source de p R first rest :
  is_primary p = true -> Forall (fun e => is_primary e = false) R ->
  NoDup (map hid (p :: R)) -> versions_from_minus_one (p :: R) ->
  _prepare_hdulist strip_structural (p :: R) de = Ok (first :: rest) ->
  NoDup (map hid (first :: rest))
  /\ StronglySorted (key_le fits_ext_comp_key) rest
  /\ Forall (fun e => is_primary e = false) rest
  /\ images_identified rest.
Proof.
  intros Hp HR Hnd Hver Hprep.
  pose proof (prepare_identified _ _ _ Hprep) as Hid.
  apply Forall_cons in Hid as [_ Hid].
  destruct (multi_extension (p :: R)) eqn:Hmulti.
  - destruct (prepare_primary_head strip_structural de p R Hp HR Hnd Hver
                Hmulti) as (added & Heq & Hall & _).
    rewrite Heq in Hprep. injection Hprep as <- <-.
    split; [|split; [apply sorted_sorted|split; [|done]]].
    + cbn [map] in *. rewrite sorted_perm, (prepared_hids _ _ _ _ Hall).
      done.
    + apply Forall_sorted. by eapply prepared_not_primary.
  - unfold _prepare_hdulist in Hprep. unfold multi_extension in Hmulti.
    rewrite Hmulti in Hprep.
    assert (is_table p = false) as Htab.
    { unfold is_table, is_primary in *. apply bool_decide_eq_true in Hp.
      by rewrite Hp. }
    rewrite Htab in Hprep. cbn in Hprep. injection Hprep as <- <-.
    split; [|split; [|split; [|done]]].
    + apply NoDup_ListNoDup. repeat constructor; cbn; lia.
    + repeat constructor.
    + by repeat constructor.
Qed.

End PreparedMore.

(** *** The units a read makes of the prepared list *)

Section ReaderUnits.
Context {Arr Tbl W Cards : Type}.
Context (rescale : Q -> Q -> Arr -> Arr).
Context (astropy_data : Reader.raw_image Arr -> Arr).
Context (asdf_open : list Byte.byte -> option (option W)).
Context (fitswcs_to_gwcs : header Cards -> result exn (option W)).
Context (with_origname : Cards -> Cards).
Context (strip_structural : Cards -> Cards).
Context (column_table : payload (Reader.raw_image Arr) Tbl -> option Tbl).
Context (fresh_table_name : gmap string Tbl -> string).
Implicit Types (u x : hdu Cards (payload (Reader.raw_image Arr) Tbl)).
Implicit Types (l : list (hdu Cards (payload (Reader.raw_image Arr) Tbl))).
Implicit Types (nd : NDData Arr Tbl W Cards).
Implicit Types (st : @Reader.rstate Arr Tbl W Cards).

Lemma associated_extensions_filter l ver : forall xs,
  Reader.associated_extensions l ver = Ok xs ->
  xs = filter (fun x => associated ver x = true) l.
Proof.
  induction l as [|x l IH]; intros xs Hok;
    cbn [Reader.associated_extensions] in Hok.
  - by injection Hok as <-.
  - rewrite filter_cons.
    assert (Ha : associated ver x =
                 bool_decide (EXTVER (hheader x) = Some ver)
                 && match EXTNAME (hheader x) with
                    | Some name =>
                        negb (bool_decide (name ∈ Reader.skip_names))
                    | None => false
                    end).
    { unfold associated. destruct (EXTNAME (hheader x)); [|done].
      by rewrite bool_decide_not. }
    rewrite Ha. clear Ha.
    destruct (bool_decide (EXTVER (hheader x) = Some ver)); cbn [andb].
    + destruct (EXTNAME (hheader x)) as [name|]; [|done].
      apply rbind_ok in Hok as (others & Hothers & Hok).
      apply IH in Hothers as ->.
      destruct (bool_decide (name ∈ Reader.skip_names)); cbn;
        by injection Hok as <-.
    + cbn. by apply IH.
Qed.

Lemma dict_set_Forall {V} (P : string * V -> Prop) key (v : V) d :
  Forall P d -> P (key, v) -> Forall P (Windowed.dict_set key v d).
Proof.
  intros Hd Hv. induction Hd as [|[k y] d Hy Hd IH]; cbn.
  - by constructor.
  - destruct (decide (k = key)) as [->|]; constructor; done.
Qed.

Lemma append_other_spec nd x nd' :
  Reader.append_other astropy_data column_table nd x = Ok nd' ->
  associated (nd_ver nd) x = true -> read_auxiliaries nd ->
  nd_planes nd' = nd_planes nd /\ nd_wcs nd' = nd_wcs nd
  /\ nd_header nd' = nd_header nd /\ nd_ver nd' = nd_ver nd
  /\ read_auxiliaries nd'.
Proof.
  unfold Reader.append_other, associated. intros Hok Hx [Ho Hh].
  apply andb_true_iff in Hx as [Hv%bool_decide_eq_true Hn].
  destruct (EXTNAME (hheader x)) as [name|]; [|done].
  apply bool_decide_eq_true in Hn.
  destruct (Reader.is_table_class x).
  - destruct (Reader.table_of column_table x) as [t|]; [|done].
    injection Hok as <-. cbn. repeat (split; [done|]). split; [|done].
    by apply dict_set_Forall.
  - destruct (hdata x) as [[r| | |]|]; try done.
    injection Hok as <-. cbn. repeat (split; [done|]). split.
    + by apply dict_set_Forall.
    + by apply map_Forall_insert_2.
Qed.

Lemma append_others_spec xs : forall nd nd',
  Reader.append_others astropy_data column_table nd xs = Ok nd' ->
  Forall (fun x => associated (nd_ver nd) x = true) xs ->
  read_auxiliaries nd ->
  nd_planes nd' = nd_planes nd /\ nd_wcs nd' = nd_wcs nd
  /\ nd_header nd' = nd_header nd /\ nd_ver nd' = nd_ver nd
  /\ read_auxiliaries nd'.
Proof.
  induction xs as [|x xs IH]; intros nd nd' Hok Hxs Haux; cbn in Hok.
  - by injection Hok as <-.
  - apply rbind_ok in Hok as (nd1 & H1 & Hok).
    apply Forall_cons in Hxs as [Hx Hxs].
    destruct (append_other_spec _ _ _ H1 Hx Haux) as (Hp & Hw & Hh & Hv & Ha).
    destruct (IH _ _ Hok) as (Hp' & Hw' & Hh' & Hv' & Ha');
      [by rewrite Hv|done|].
    repeat (split; [congruence|]). done.
Qed.

Lemma foldl_add_part_other xs : forall p x,
  x ∈ Reader.part_other (foldl Reader.add_part p xs) ->
  x ∈ Reader.part_other p \/ x ∈ xs.
Proof.
  induction xs as [|y xs IH]; intros p x Hx; cbn in Hx; [by left|].
  apply IH in Hx as [Hx|Hx]; [|right; by right].
  unfold Reader.add_part in Hx.
  repeat (destruct (bool_decide _) in Hx; [by left|]).
  cbn in Hx. apply elem_of_app in Hx as [Hx|Hx]; [by left|].
  apply list_elem_of_singleton in Hx as ->. right. left.
Qed.

Lemma read_unit_spec memmap l phu_header st unit st' :
  Reader.read_unit rescale astropy_data asdf_open fitswcs_to_gwcs
    column_table memmap l phu_header st unit = Ok st' ->
  Reader.r_tables st' = Reader.r_tables st
  /\ Reader.seen st' =
       Reader.seen st ∪ {[hid unit]}
       ∪ list_to_set
           (hid <$> filter (fun x => associated
                              (default (-1) (EXTVER (hheader unit))) x = true) l)
  /\ exists nd,
       Reader.r_units st' = Reader.r_units st ++ [nd]
       /\ made_of (Reader._scale rescale) unit nd
       /\ read_auxiliaries nd.
Proof.
  unfold Reader.read_unit. intros Hok.
  apply rbind_ok in Hok as (extras & Hextras & Hok).
  apply associated_extensions_filter in Hextras as Hfil.
  destruct memmap.
  - apply rbind_ok in Hok as (data & Hdata & Hok).
    apply rbind_ok in Hok as (unc & _ & Hok).
    apply rbind_ok in Hok as (mask & _ & Hok).
    apply rbind_ok in Hok as (wcs & _ & Hok).
    apply rbind_ok in Hok as (nd & Hnd & Hok).
    injection Hok as <-. cbn. rewrite <- Hfil. repeat (split; [done|]).
    exists nd. split; [done|].
    apply append_others_spec in Hnd as (Hp & Hw & Hh & Hv & Ha); cbn.
    + cbn in *. split; [|done]. unfold made_of. rewrite Hh, Hv, Hp. cbn.
      repeat (split; [done|]).
      unfold Reader.image_of in Hdata.
      destruct (hdata unit) as [[r| | |]|]; try done.
      injection Hdata as <-. by exists r.
    + apply Forall_forall. intros x Hx.
      apply foldl_add_part_other in Hx as [Hx|Hx];
        [by apply elem_of_nil in Hx|].
      rewrite Hfil in Hx. by apply list_elem_of_filter in Hx as [Hx _].
    + split; [constructor|]. cbn. apply map_Forall_empty.
  - apply rbind_ok in Hok as (? & _ & Hok).
    apply rbind_ok in Hok as (? & _ & Hok).
    apply rbind_ok in Hok as (? & _ & Hok). done.
Qed.

Lemma read_units_spec memmap l phu_header units : forall st st',
  Reader.read_units rescale astropy_data asdf_open fitswcs_to_gwcs
    column_table memmap l phu_header st units = Ok st' ->
  Reader.r_tables st' = Reader.r_tables st
  /\ (forall i, i ∈ Reader.seen st' <->
        i ∈ Reader.seen st
        \/ exists u, u ∈ units
             /\ (i = hid u
                 \/ exists x, x ∈ l /\ hid x = i
                      /\ associated (default (-1) (EXTVER (hheader u))) x
                         = true))
  /\ exists new,
       Reader.r_units st' = Reader.r_units st ++ new
       /\ Forall2 (made_of (Reader._scale rescale)) units new
       /\ Forall read_auxiliaries new.
Proof.
  induction units as [|unit units IH]; intros st st' Hok; cbn in Hok.
  - injection Hok as <-. split; [done|]. split.
    + intros i. split; [by left|]. intros [H|(u & Hu & _)]; [done|].
      by apply elem_of_nil in Hu.
    + exists []. by rewrite app_nil_r.
  - apply rbind_ok in Hok as (st1 & H1 & Hok).
    apply read_unit_spec in H1 as (Ht1 & Hs1 & nd & Hu1 & Hm1 & Ha1).
    apply IH in Hok as (Ht & Hs & new & Hu & Hm & Ha).
    split; [congruence|]. split.
    + intros i. rewrite Hs, Hs1. rewrite !elem_of_union, elem_of_singleton.
      rewrite elem_of_list_to_set, list_elem_of_fmap.
      split.
      * intros [[[H| ->]|(x & -> & Hx)]|(u & Hu' & H)].
        -- by left.
        -- right. exists unit. split; [left|by left].
        -- apply list_elem_of_filter in Hx as [Hx Hxl].
           right. exists unit. split; [left|]. right. eauto.
        -- right. exists u. split; [by right|done].
      * intros [H|(u & Hu' & H)]; [by left; left; left|].
        apply elem_of_cons in Hu' as [->|Hu'].
        -- left. destruct H as [->|(x & Hxl & <- & Hx)]; [left; by right|].
           right. exists x. split; [done|]. by apply list_elem_of_filter.
        -- right. eauto.
    + exists (nd :: new). rewrite Hu, Hu1, <- app_assoc.
      split; [done|]. split; by constructor.
Qed.

Lemma image_class_not_table x :
  hclass x = ImageHDU -> Reader.is_table_class x = false.
Proof. unfold Reader.is_table_class. by intros ->. Qed.

Lemma read_leftovers_spec l : forall st st',
  Reader.read_leftovers astropy_data column_table fresh_table_name st l
    = Ok st' ->
  Reader.seen st' = Reader.seen st
  /\ exists new,
       Reader.r_units st' = Reader.r_units st ++ new
       /\ Forall2 (made_of astropy_data)
            (filter (fun x => (hid x ∉ Reader.seen st)
                              /\ leftover_image x = true) l) new
       /\ Forall plain_unit new.
Proof.
  induction l as [|x l IH]; intros st st' Hok; cbn in Hok.
  - injection Hok as <-. split; [done|]. exists []. by rewrite app_nil_r.
  - apply rbind_ok in Hok as (st1 & H1 & Hok).
    apply IH in Hok as (Hs & new & Hu & Hm & Hp).
    rewrite filter_cons. unfold Reader.read_leftover in H1.
    destruct (decide (hid x ∈ Reader.seen st)) as [Hin|Hnin].
    { rewrite bool_decide_eq_true_2 in H1 by done. injection H1 as <-.
      rewrite decide_False by tauto. eauto. }
    rewrite bool_decide_eq_false_2 in H1 by done.
    destruct (leftover_image x) eqn:Hli.
    + unfold leftover_image in Hli.
      apply andb_true_iff in Hli as [Hc%bool_decide_eq_true Hd].
      unfold image_data in Hd.
      rewrite (image_class_not_table x Hc), Hc in H1.
      destruct (hdata x) as [[r| | |]|] eqn:Hd'; try done.
      injection H1 as <-. cbn in *. rewrite decide_True by done.
      split; [done|].
      exists (mkND (mkPlanes (astropy_data r) None None) NoWCS (hheader x)
                   (default (-1) (EXTVER (hheader x))) [] ∅ :: new).
      rewrite Hu, <- app_assoc. split; [done|]. split.
      * constructor; [|done]. unfold made_of. cbn. rewrite Hd'.
        repeat (split; [done|]). by exists r.
      * constructor; [|done]. by unfold plain_unit.
    + rewrite decide_False by (intros [_ ?]; done).
      assert (Reader.seen st1 = Reader.seen st
              /\ Reader.r_units st1 = Reader.r_units st) as [Hs1 Hu1].
      { destruct (Reader.is_table_class x).
        - destruct (Reader.table_of column_table x).
          + by injection H1 as <-.
          + destruct (EXTNAME (hheader x)); [|done]. by injection H1 as <-.
        - unfold leftover_image, image_data in Hli.
          destruct (hclass x); cbn in Hli;
            destruct (hdata x) as [[r| | |]|]; try done;
            destruct (EXTNAME (hheader x)); try done; by injection H1 as <-. }
      rewrite Hs1 in Hs, Hm. rewrite Hu1 in Hu. eauto.
Qed.

Lemma hid_inj l x y :
  NoDup (map hid l) -> x ∈ l -> y ∈ l -> hid x = hid y -> x = y.
Proof.
  intros Hnd Hx Hy Hid.
  apply list_elem_of_lookup in Hx as [i Hi].
  apply list_elem_of_lookup in Hy as [j Hj].
  assert (i = j) as ->; [|congruence].
  eapply NoDup_lookup; [exact Hnd| |].
  - by rewrite list_lookup_fmap, Hi.
  - rewrite list_lookup_fmap, Hj. cbn. by rewrite Hid.
Qed.

(** The units of a provider read, from the list the preparation gives:
    one of each extension named [SCI], in the order of the list, then
    one of each image extension that no unit claimed. *)
Lemma read_fits_units memmap source ad :
  Reader.read_fits rescale astropy_data asdf_open fitswcs_to_gwcs
    with_origname strip_structural column_table fresh_table_name
    memmap source = Ok ad ->
  exists first rest,
    _prepare_hdulist strip_structural source DEFAULT_EXTENSION
      = Ok (first :: rest)
    /\ phu ad = mkHeader (EXTNAME (hheader first)) (EXTVER (hheader first))
                         (with_origname (cards (hheader first)))
    /\ (NoDup (map hid (first :: rest)) ->
        exists S F,
          _nddata ad = S ++ F
          /\ Forall2 (made_of (Reader._scale rescale))
               (filter (fun x => EXTNAME (hheader x) = Some DEFAULT_EXTENSION)
                       rest) S
          /\ Forall read_auxiliaries S
          /\ Forall2 (made_of astropy_data)
               (filter (fun x => claimed (sci_versions rest) x = false
                                 /\ leftover_image x = true) rest) F
          /\ Forall plain_unit F).
Proof.
  unfold Reader.read_fits. intros Hok.
  apply rbind_ok in Hok as (hdulist & Hprep & Hok).
  destruct hdulist as [|first rest]; [done|].
  apply rbind_ok in Hok as (st1 & Hunits & Hok).
  apply rbind_ok in Hok as (st2 & Hleft & Hok).
  injection Hok as <-. exists first, rest. split; [done|]. split; [done|].
  intros Hnd. cbn [_nddata].
  apply read_units_spec in Hunits as (_ & Hseen & S & HS & HmS & HaS).
  apply read_leftovers_spec in Hleft as (_ & F & HF & HmF & HpF).
  cbn [Reader.r_units Reader.seen app] in *. subst S.
  exists (Reader.r_units st1), F. split; [done|]. split; [done|].
  split; [done|]. split; [|done].
  set (sci := filter (fun x => EXTNAME (hheader x) = Some DEFAULT_EXTENSION)
                     rest) in *.
  rewrite filter_cons in HmF. rewrite decide_False in HmF.
  2:{ intros [Hn _]. apply Hn, Hseen. left. cbn. set_solver. }
  erewrite filter_iff_Forall; [exact HmF|].
  apply Forall_forall. intros x Hx. cbn beta.
  assert (Hrest : forall y, y ∈ rest -> hid y = hid x -> y = x).
  { intros y Hy Hid. eapply (hid_inj (first :: rest));
      [done|by right|by right|done]. }
  assert (Hfirst : hid first <> hid x).
  { intros Hid. cbn [map] in Hnd. apply NoDup_cons in Hnd as [Hnd _].
    apply Hnd. rewrite Hid.
    apply list_elem_of_In, in_map, list_elem_of_In, Hx. }
  assert (Hclaimed : claimed (sci_versions rest) x = true
                     <-> hid x ∈ Reader.seen st1).
  { rewrite Hseen. unfold claimed, sci_versions. fold sci.
    rewrite orb_true_iff, bool_decide_eq_true, existsb_exists. split.
    - intros [Hn|(v & Hv & Ha)].
      + right. exists x. split; [by apply list_elem_of_filter|by left].
      + apply list_elem_of_In, list_elem_of_fmap in Hv as (u & -> & Hu).
        right. exists u. split; [done|]. right. exists x.
        split; [by right|done].
    - intros [Hin|(u & Hu & [Hid|(y & Hy & Hid & Ha)])].
      + apply elem_of_singleton in Hin. congruence.
      + apply list_elem_of_filter in Hu as Hu'. destruct Hu' as [Hn Hur].
        left. by rewrite <- (Hrest u Hur (eq_sym Hid)).
      + right. exists (default (-1) (EXTVER (hheader u))). split.
        * apply list_elem_of_In, list_elem_of_fmap. eauto.
        * apply elem_of_cons in Hy as [->|Hy]; [done|].
          by rewrite <- (Hrest y Hy Hid). }
  rewrite <- Hclaimed. destruct (claimed (sci_versions rest) x); split;
    intros [? ?]; split; congruence || done.
Qed.

End ReaderUnits.

(** *** The extensions written for the units read *)

Section RoundTripFacts.
Context {Arr Tbl W Cards D : Type}.
Context (gwcs_to_fits : NDData Arr Tbl W Cards -> header Cards -> gwcs_result D).
Context (approximate : D -> bool).
Context (strip_wcs_keywords : Cards -> Cards).
Context (header_update : Cards -> D -> Cards).
Context (header_for_table : Tbl -> result exn (header Cards)).
Context (asdf_serialize : W -> option (list Byte.byte)).
Context (column_cards : col_format -> nat -> Cards).
Context (store : Arr -> Reader.raw_image Arr).
Context (table_versions : forall t h v,
           header_for_table t = Ok h -> EXTVER h = Some v -> -1 <= v).

Implicit Types (nd : NDData Arr Tbl W Cards) (h : header Cards).
Implicit Types (x y : hdu Cards (payload (Reader.raw_image Arr) Tbl)).
Implicit Types (v : hdu_class * header Cards * option (payload Arr Tbl)).
Implicit Types (versions : list Z).

#[local] Abbreviation written_header' :=
  (written_header gwcs_to_fits strip_wcs_keywords header_update).
#[local] Abbreviation unit_layout'' :=
  (unit_layout gwcs_to_fits approximate strip_wcs_keywords header_update
     header_for_table asdf_serialize column_cards).

(** The extension named [SCI] that holds an image, and the image that no
    unit of the [versions] claims. *)
#[local] Abbreviation sci_image :=
  (fun x => EXTNAME (hheader x) = Some DEFAULT_EXTENSION
            /\ image_data x = true).
#[local] Abbreviation free_image :=
  (fun versions x => claimed versions x = false /\ leftover_image x = true).

(** An extension that is neither, and is settled. *)
#[local] Abbreviation extra :=
  (fun versions x => ~ sci_image x /\ ~ free_image versions x /\ settled x).

Lemma on_disk_views (hdul : list (hdu Cards (payload Arr Tbl))) :
  on_disk store hdul = imap (read_back store) (map ext_view hdul).
Proof. unfold on_disk. rewrite imap_fmap. by apply imap_ext. Qed.

Lemma map_erase_imap {V}
    (g : V -> hdu Cards (payload (Reader.raw_image Arr) Tbl))
    (bs : list V) : forall f,
  (forall i b, erase (f i b) = g b) -> map erase (imap f bs) = map g bs.
Proof.
  induction bs as [|b bs IH]; intros f Hf; cbn; [done|].
  rewrite Hf. f_equal. apply IH. intros i b'. apply Hf.
Qed.

Lemma map_hid_imap
    (vs : list (hdu_class * header Cards * option (payload Arr Tbl))) :
  forall n,
  map hid (imap (fun i => read_back store (n + i)) vs) = seq n (length vs).
Proof.
  induction vs as [|v vs IH]; intros n; cbn; [done|].
  rewrite Nat.add_0_r. f_equal. rewrite <- IH. f_equal.
  apply imap_ext. intros i v' _. cbn. f_equal. lia.
Qed.

Lemma filter_erase (Q : hdu Cards (payload (Reader.raw_image Arr) Tbl) -> Prop)
    `{forall x, Decision (Q x)} (l : list _) :
  (forall x, Q x <-> Q (erase x)) ->
  map erase (filter Q l) = filter Q (map erase l).
Proof.
  intros HQ. induction l as [|x l IH]; [done|]. cbn [map].
  rewrite !filter_cons. specialize (HQ x).
  destruct (decide (Q x)), (decide (Q (erase x))); cbn [map];
    rewrite ?IH; tauto || done.
Qed.

Lemma written_header_names phu_header nd :
  EXTNAME (written_header' phu_header nd) = EXTNAME (nd_header nd)
  /\ EXTVER (written_header' phu_header nd) = EXTVER (nd_header nd).
Proof. unfold written_header. by destruct (down_conversion _ _ _). Qed.

Lemma not_skipped name :
  name ∉ Reader.skip_names <->
  name <> "SCI"%string /\ name <> "REFCAT"%string /\ name <> "MDF"%string.
Proof.
  unfold Reader.skip_names, DEFAULT_EXTENSION.
  rewrite !not_elem_of_cons. pose proof (not_elem_of_nil name). tauto.
Qed.

Lemma extra_table versions v :
  fst (fst v) = BinTableHDU \/ fst (fst v) = TableHDU ->
  (forall ver, EXTVER (snd (fst v)) = Some ver -> -1 <= ver) ->
  (forall a, snd v <> Some (ImageData a)) ->
  forall i, extra versions (read_back store i v).
Proof.
  destruct v as [[c h] d]. cbn [fst snd]. intros Hc Hv Hd i.
  assert (Hi : image_data (read_back store i (c, h, d)) = false).
  { unfold image_data, read_back. cbn. destruct d as [[a| | |]|]; try done.
    by destruct (Hd a). }
  unfold settled, leftover_image. rewrite Hi, andb_false_r.
  split; [intros [_ ?]; done|]. split; [intros [_ ?]; done|].
  split; [|done]. unfold is_primary. cbn. apply bool_decide_eq_false.
  destruct Hc as [-> | ->]; done.
Qed.

Lemma extra_image versions (a : Arr) h name ver :
  EXTVER h = Some ver -> 0 < ver -> ver ∈ versions ->
  name ∉ Reader.skip_names ->
  forall i, extra versions (read_back store i (image_view a h (Some name))).
Proof.
  intros Hv Hpos Hin Hname i. unfold read_back, image_view. cbn [fst snd].
  apply not_skipped in Hname as Hn. split; [|split].
  - intros [Hs _]. cbn in Hs. unfold DEFAULT_EXTENSION in Hs.
    destruct Hn as [Hn _]. congruence.
  - intros [Hc _]. unfold claimed in Hc.
    apply orb_false_iff in Hc as [_ Hc].
    apply not_true_iff_false in Hc. apply Hc.
    apply existsb_exists. exists ver. split; [by apply list_elem_of_In|].
    unfold associated. cbn. rewrite Hv.
    apply andb_true_iff. split; by apply bool_decide_eq_true_2.
  - unfold settled. cbn. split; [done|]. split.
    + rewrite Hv. intros ? [= <-]. lia.
    + intros _. unfold kept_by_first_loop, named_and_versioned. cbn.
      rewrite Hv. cbn. assert ((ver =? -1) = false) as -> by lia. cbn.
      first [done|rewrite bool_decide_eq_true_2; [done|by eexists]].
Qed.

Lemma codec_extension (hid : nat) (w : W) (ver : option Z)
    (e : hdu Cards (payload Arr Tbl)) :
  snd (Codec.wcs_to_asdftablehdu asdf_serialize column_cards hid w ver)
    = Ok e ->
  (hclass e = BinTableHDU \/ hclass e = TableHDU)
  /\ EXTVER (hheader e) = ver
  /\ forall a, hdata e <> Some (ImageData a).
Proof.
  unfold Codec.wcs_to_asdftablehdu.
  destruct (asdf_serialize w) as [buf|]; [|done].
  destruct (Codec.decode_ascii buf); cbn.
  - destruct (Codec.max_len _); cbn; [|done]. intros [= <-]. cbn. eauto.
  - intros [= <-]. cbn. eauto.
Qed.

Lemma comprehension_Forall2 {A B} (f : A -> result exn B) (l : list A) :
  forall ys, Py.comprehension f l = Ok ys ->
             Forall2 (fun a b => f a = Ok b) l ys.
Proof.
  induction l as [|a l IH]; intros ys Hok; cbn in Hok.
  - injection Hok as <-. constructor.
  - apply rbind_ok in Hok as (y & Hy & Hok).
    apply rbind_ok in Hok as (ys' & Hys & Hok).
    injection Hok as <-. constructor; [done|by apply IH].
Qed.

Lemma table_view_extra versions (t : Tbl) role v :
  table_view header_for_table t role = Ok v ->
  forall i, extra versions (read_back store i v).
Proof.
  unfold table_view. intros Hok.
  apply rbind_ok in Hok as (h & Hh & Hok). injection Hok as <-.
  apply extra_table; cbn [fst snd]; [by left| |done].
  intros ver. destruct role as [name|]; [|by apply (table_versions t)].
  destruct (String.eqb name ""); cbn; by apply (table_versions t).
Qed.

(** The extensions written for a unit the reader made of an extension
    named [SCI]: its image first, and nothing else that a later read
    would take for a unit. *)
Lemma sci_unit_written versions phu_header nd vs :
  unit_layout'' phu_header nd = Ok vs ->
  EXTNAME (nd_header nd) = Some DEFAULT_EXTENSION ->
  EXTVER (nd_header nd) = Some (nd_ver nd) -> 0 < nd_ver nd ->
  nd_ver nd ∈ versions -> read_auxiliaries nd ->
  exists others,
    vs = image_view (p_data (nd_planes nd)) (written_header' phu_header nd)
                    None :: others
    /\ Forall (fun v => forall i, extra versions (read_back store i v)) others.
Proof.
  intros Hok Hname Hver Hpos Hin [Hother Hheaders].
  unfold unit_layout in Hok.
  destruct (fatal_conversion _ _ _); [done|]. cbn zeta in Hok.
  destruct (written_header_names phu_header nd) as [Hn Hv].
  set (h := written_header' phu_header nd) in *.
  rewrite Hname in Hn. rewrite Hver in Hv.
  apply rbind_ok in Hok as (transform & Htr & Hok).
  apply rbind_ok in Hok as (auxiliaries & Haux & Hok).
  injection Hok as <-. eexists. split; [reflexivity|].
  assert (Hopt : forall plane name, name ∉ Reader.skip_names ->
            Forall (fun v => forall i, extra versions (read_back store i v))
                   (optional_image plane h name)).
  { intros [a|] name Hs; cbn; [|constructor].
    constructor; [|constructor]. intros i. by eapply extra_image. }
  repeat apply Forall_app_2.
  - apply Hopt. apply not_skipped. done.
  - apply Hopt. apply not_skipped. done.
  - unfold transform_layout in Htr.
    destruct (nd_wcs nd) as [|w|]; try (injection Htr as <-; constructor).
    destruct (suppressed _ _ _ _); [injection Htr as <-; constructor|].
    apply rbind_ok in Htr as (e & He & Htr). injection Htr as <-.
    constructor; [|constructor].
    apply codec_extension in He as (Hc & Hev & Hd).
    apply extra_table; cbn [ext_view fst snd]; [done| |done].
    rewrite Hev. intros ? [= <-]. lia.
  - apply comprehension_Forall2 in Haux.
    clear -Haux Hother Hheaders Hv Hpos Hin table_versions.
    induction Haux as [|[name o] v items auxs Hitem Hitems IH];
      [constructor|].
    apply Forall_cons in Hother as [[Hs Ho] Hother].
    constructor; [|by apply IH]. cbn [fst snd] in *.
    unfold aux_layout in Hitem. cbn [fst snd] in Hitem.
    destruct o as [t|a|o|]; try done.
    + by eapply table_view_extra.
    + injection Hitem as <-. intros i. eapply extra_image; [|done..].
      destruct (nd_other_header nd !! name) as [h0|] eqn:Hh0; cbn; [|done].
      by apply (Hheaders name).
Qed.

Lemma plain_unit_written phu_header nd vs :
  unit_layout'' phu_header nd = Ok vs -> plain_unit nd ->
  vs = [image_view (p_data (nd_planes nd)) (nd_header nd) None].
Proof.
  intros Hok (Ho & Hw & Hu & Hm). unfold unit_layout in Hok.
  unfold fatal_conversion, transform_layout, written_header, down_conversion
    in Hok.
  rewrite Ho, Hw, Hu, Hm in Hok. cbn in Hok. by injection Hok as <-.
Qed.

Lemma sci_image_written (a : Arr) h i versions ver :
  EXTNAME h = Some DEFAULT_EXTENSION -> EXTVER h = Some ver -> 0 < ver ->
  sci_image (read_back store i (image_view (Tbl := Tbl) a h None))
  /\ ~ free_image versions (read_back store i (image_view (Tbl := Tbl) a h None))
  /\ settled (read_back store i (image_view (Tbl := Tbl) a h None)).
Proof.
  intros Hn Hv Hpos. unfold read_back, image_view. cbn [fst snd].
  split; [done|]. split.
  - intros [Hc _]. unfold claimed in Hc. cbn in Hc.
    rewrite bool_decide_eq_true_2 in Hc; done.
  - unfold settled. cbn. split; [done|]. split.
    + rewrite Hv. intros ? [= <-]. lia.
    + intros _. unfold kept_by_first_loop, named_and_versioned. cbn.
      rewrite Hv, Hn. cbn. assert ((ver =? -1) = false) as -> by lia. cbn.
      first [done|rewrite bool_decide_eq_true_2; [done|by eexists]].
Qed.

Lemma free_image_written (a : Arr) h i versions ver :
  is_Some (EXTNAME h) -> EXTVER h = Some ver -> 0 < ver ->
  (forall x, hheader x = h -> claimed versions x = false) ->
  ~ sci_image (read_back store i (image_view (Tbl := Tbl) a h None))
  /\ free_image versions (read_back store i (image_view (Tbl := Tbl) a h None))
  /\ settled (read_back store i (image_view (Tbl := Tbl) a h None)).
Proof.
  intros Hn Hv Hpos Hc. unfold read_back, image_view. cbn [fst snd].
  set (x := mkHdu i ImageHDU h (Some (ImageData (store a)))).
  specialize (Hc x eq_refl). split; [|split].
  - intros [Hs _]. unfold claimed in Hc.
    apply orb_false_iff in Hc as [Hc _].
    by apply bool_decide_eq_false in Hc.
  - done.
  - unfold settled. cbn. split; [done|]. split.
    + rewrite Hv. intros ? [= <-]. lia.
    + intros _. unfold kept_by_first_loop, named_and_versioned. cbn.
      rewrite Hv. cbn. assert ((ver =? -1) = false) as -> by lia. cbn.
      first [done|rewrite bool_decide_eq_true_2; done].
Qed.


(** *** The second read *)

Context (rescale : Q -> Q -> Arr -> Arr).
Context (astropy_data : Reader.raw_image Arr -> Arr).
Context (asdf_open : list Byte.byte -> option (option W)).
Context (fitswcs_to_gwcs : header Cards -> result exn (option W)).
Context (with_origname : Cards -> Cards).
Context (strip_structural : Cards -> Cards).
Context (column_table : payload (Reader.raw_image Arr) Tbl -> option Tbl).
Context (fresh_table_name : gmap string Tbl -> string).

#[local] Abbreviation read_fits' :=
  (Reader.read_fits rescale astropy_data asdf_open fitswcs_to_gwcs
     with_origname strip_structural column_table fresh_table_name).
#[local] Abbreviation write_fits' :=
  (Writer.write_fits gwcs_to_fits approximate strip_wcs_keywords
     header_update header_for_table asdf_serialize column_cards).
#[local] Abbreviation key :=
  (fits_ext_comp_key (Cards := Cards)
     (Payload := payload (Reader.raw_image Arr) Tbl)).

Lemma write_fits_views (ad : provider Arr Tbl W Cards) st :
  write_fits' ad = Ok st ->
  exists us tabs,
    map ext_view (Writer.hdul st) =
      (PrimaryHDU, phu ad, None) :: concat us ++ tabs
    /\ Forall2 (fun nd vs => unit_layout'' (phu ad) nd = Ok vs) (_nddata ad) us
    /\ Forall2 (fun item v => table_layout header_for_table item = Ok v)
               (Writer.sorted_tables (_tables ad)) tabs.
Proof.
  unfold Writer.write_fits. intros Hok.
  apply rbind_ok in Hok as (st1 & Hunits & Htables).
  pose proof (write_units_layout gwcs_to_fits approximate strip_wcs_keywords
                header_update header_for_table asdf_serialize column_cards
                (phu ad) (_nddata ad)
                (Writer.append (Writer.mkW [] [])
                   (fun hid => mkHdu hid PrimaryHDU (phu ad) None))) as Hu.
  rewrite Hunits in Hu. cbn [result_map] in Hu.
  destruct (Py.comprehension _ (_nddata ad)) as [us|] eqn:Hus; [|done].
  pose proof (write_tables_layout header_for_table
                (Writer.sorted_tables (_tables ad)) st1) as Ht.
  rewrite Htables in Ht. cbn [result_map] in Ht.
  destruct (Py.comprehension _ (Writer.sorted_tables _)) as [tabs|] eqn:Htabs;
    [|done].
  exists us, tabs. cbn in Hu, Ht. injection Hu as Hu. injection Ht as Ht.
  rewrite Ht, Hu. split; [done|].
  split; by apply comprehension_Forall2.
Qed.

Lemma key_of_header x y :
  is_primary x = false -> is_primary y = false ->
  EXTNAME (hheader x) = EXTNAME (hheader y) ->
  EXTVER (hheader x) = EXTVER (hheader y) -> key x = key y.
Proof.
  intros Hx Hy Hn Hv. rewrite (key_not_primary x Hx), (key_not_primary y Hy).
  unfold version_of. by rewrite Hn, Hv.
Qed.

Lemma claimed_header versions x y :
  hheader x = hheader y -> claimed versions x = claimed versions y.
Proof.
  intros Hh. unfold claimed, associated. by rewrite Hh.
Qed.

Lemma made_of_info array_of x nd :
  made_of array_of x nd -> ext_info array_of x = Some (unit_info nd).
Proof.
  intros (Hh & Hv & r & Hd & Ha). unfold ext_info, unit_info, unit_id.
  by rewrite Hd, Hh, Hv, Ha.
Qed.

(** The units made of a list of extensions are those of the units
    [units], when the list is, identities apart, what [image] gives for
    them and [image] keeps what a unit is known by. *)
Lemma unit_info_of array_of (l : list _)
    (made units : list (NDData Arr Tbl W Cards))
    (image : NDData Arr Tbl W Cards -> _) :
  Forall2 (made_of array_of) l made ->
  map erase l = map image units ->
  Forall (fun nd => ext_info array_of (image nd) = Some (unit_info nd)) units ->
  map unit_info made = map unit_info units.
Proof.
  intros Hmade. revert units.
  induction Hmade as [|x nd l made Hx _ IH]; intros [|nd1 units] Heq Hinfo;
    try done.
  cbn [map] in Heq. injection Heq as He Heq.
  apply Forall_cons in Hinfo as [Hi Hinfo].
  cbn [map]. f_equal; [|by apply IH].
  apply made_of_info in Hx. unfold ext_info in Hx, Hi.
  rewrite <- He in Hi. cbn in Hi. congruence.
Qed.

(** What a selection of image extensions finds in the list prepared of
    settled extensions: what it finds in the list as written, in that
    order, when that is the order of the keys. *)
Lemma selection_after_prepare
    (Q : hdu Cards (payload (Reader.raw_image Arr) Tbl) -> Prop)
    `{forall x, Decision (Q x)} floor de
    (written added selected : list _) :
  (forall x, Q x -> image_data x = true) ->
  (forall x, Q x <-> Q (erase x)) ->
  Forall settled written ->
  Forall2 (prepared_above floor de)
          (List.filter (fun u => negb (kept_by_first_loop u)) written) added ->
  filter Q (map erase written) = selected ->
  StronglySorted (key_le key) selected ->
  exists l,
    filter Q (sorted key (List.filter kept_by_first_loop written ++ added)) = l
    /\ map erase l = selected.
Proof.
  intros Himg Herase Hsettled Hadded Hsel Hsorted.
  rewrite filter_sorted, filter_app.
  rewrite filter_List_filter.
  2:{ eapply Forall_impl; [exact Hsettled|]. intros x (_ & _ & Hk) HQ.
      by apply Hk, Himg. }
  rewrite (filter_none Q added), app_nil_r.
  2:{ apply Forall_forall. intros a Ha HQ.
      apply list_elem_of_lookup in Ha as [i Hi].
      destruct (Forall2_lookup_r _ _ _ _ _ Hadded Hi) as (e & He & Hea).
      apply list_elem_of_lookup_2, list_elem_of_In, List.filter_In in He
        as [He Hk].
      rewrite Forall_forall in Hsettled.
      destruct (Hsettled e) as (_ & _ & Hke); [by apply list_elem_of_In|].
      destruct Hea as (_ & _ & Hd & _).
      apply Himg in HQ. unfold image_data in HQ, Hke. rewrite Hd in HQ.
      rewrite (Hke HQ) in Hk. done. }
  rewrite <- filter_erase in Hsel by done.
  eexists. split; [reflexivity|].
  rewrite sorted_id; [done|].
  eapply StronglySorted_same_keys; [|exact Hsorted].
  rewrite <- Hsel. apply Forall2_fmap_l, Forall_Forall2_diag.
  by apply Forall_forall.
Qed.

Lemma filter_heads
    (Q : hdu Cards (payload (Reader.raw_image Arr) Tbl) -> Prop)
    `{forall x, Decision (Q x)}
    (head : NDData Arr Tbl W Cards -> _) units us :
  Forall2 (fun nd vs => exists others,
             vs = head nd :: others /\ Q (read_back store 0 (head nd))
             /\ Forall (fun v => ~ Q (read_back store 0 v)) others) units us ->
  filter Q (map (read_back store 0) (concat us)) =
  map (fun nd => read_back store 0 (head nd)) units.
Proof.
  induction 1 as [|nd vs units us (others & -> & Hhead & Hothers) _ IH];
    [done|].
  cbn [concat map app]. rewrite map_app, filter_cons, decide_True by done.
  rewrite filter_app, IH, filter_none; [done|].
  by apply Forall_fmap.
Qed.

Lemma filter_no_heads
    (Q : hdu Cards (payload (Reader.raw_image Arr) Tbl) -> Prop)
    `{forall x, Decision (Q x)} (units : list (NDData Arr Tbl W Cards)) us :
  Forall2 (fun nd vs => Forall (fun v => ~ Q (read_back store 0 v)) vs)
          units us ->
  filter Q (map (read_back store 0) (concat us)) = [].
Proof.
  induction 1 as [|nd vs units us Hvs _ IH]; [done|].
  cbn [concat]. rewrite map_app, filter_app, IH, filter_none; [done|].
  by apply Forall_fmap.
Qed.


(** C1.  A container that is read, written and read again gives the
    units it gave at first: the same names and versions in the same
    order, and the same primary arrays.  The container starts with its
    one primary extension, its extensions are distinct objects and none
    has a version below -1; the units read have positive versions, as
    the spec has them; the file gives back every array as it was stored,
    and the header made for a table has no version below -1.  The two
    reads and the write are taken to return; either read may be
    memory-mapped or not. *)
Theorem round_trip_units memmap memmap' source p R ad1 st ad2 :
  (forall a, Reader._scale rescale (store a) = a) ->
  (forall a, astropy_data (store a) = a) ->
  source = p :: R -> is_primary p = true ->
  Forall (fun e => is_primary e = false) R ->
  NoDup (map hid source) -> versions_from_minus_one source ->
  read_fits' memmap source = Ok ad1 ->
  Forall (fun nd => 0 < nd_ver nd) (_nddata ad1) ->
  write_fits' ad1 = Ok st ->
  read_fits' memmap' (on_disk store (Writer.hdul st)) = Ok ad2 ->
  map unit_id (_nddata ad2) = map unit_id (_nddata ad1)
  /\ map (fun nd => p_data (nd_planes nd)) (_nddata ad2) =
     map (fun nd => p_data (nd_planes nd)) (_nddata ad1).
Proof.
  intros Hscale Hdata -> Hp HR Hnd Hver Hread1 Hpos Hwrite Hread2.
  cut (map unit_info (_nddata ad2) = map unit_info (_nddata ad1)).
  { intros Heq. split.
    - apply (f_equal (map fst)) in Heq. by rewrite !map_map in Heq.
    - apply (f_equal (map snd)) in Heq. by rewrite !map_map in Heq. }
  (* the first read *)
  apply read_fits_units in Hread1
    as (first1 & rest1 & Hprep1 & Hphu1 & Hunits1).
  destruct (prepared_source _ _ _ _ _ _ Hp HR Hnd Hver Hprep1)
    as (Hnd1 & Hsorted1 & Hnp1 & Hid1).
  destruct (Hunits1 Hnd1) as (S1 & F1 & HU1 & HmS1 & HaS1 & HmF1 & HpF1).
  clear Hunits1. set (V := sci_versions rest1) in *.
  rewrite HU1 in Hpos |- *. apply Forall_app in Hpos as [HposS HposF].
  assert (Hfilter_sorted : forall (Q : _ -> Prop) `{forall x, Decision (Q x)},
            StronglySorted (key_le key) (filter Q rest1)).
  { intros Q ?. rewrite <- (sorted_id key rest1 Hsorted1), filter_sorted.
    apply sorted_sorted. }
  (* what is known of the units made of the extensions named SCI *)
  assert (HS1 : Forall2 (fun x nd =>
                  is_primary x = false /\ hheader x = nd_header nd
                  /\ EXTNAME (nd_header nd) = Some DEFAULT_EXTENSION
                  /\ EXTVER (nd_header nd) = Some (nd_ver nd)
                  /\ 0 < nd_ver nd /\ nd_ver nd ∈ V)
                (filter (fun x => EXTNAME (hheader x) = Some DEFAULT_EXTENSION)
                        rest1) S1).
  { apply Forall2_flip in HmS1.
    pose proof (Forall2_Forall_both _ _ _ _ HmS1 HposS) as H.
    apply Forall2_flip in H.
    apply Forall2_same_length_lookup. split; [by eapply Forall2_length|].
    intros i x nd Hx Hnd'.
    destruct (Forall2_lookup_lr _ _ _ _ _ _ H Hx Hnd')
      as [Hpos' (Hh & Hv & _)].
    apply list_elem_of_lookup_2 in Hx as Hx'.
    apply list_elem_of_filter in Hx' as [Hname Hin].
    rewrite Forall_forall in Hnp1.
    split; [by apply Hnp1|]. split; [done|]. rewrite Hh.
    split; [done|]. split.
    - destruct (EXTVER (hheader x)); cbn in Hv; [congruence|lia].
    - split; [done|]. unfold V, sci_versions. rewrite Hv.
      apply list_elem_of_fmap. eexists. split; [reflexivity|].
      by eapply list_elem_of_lookup_2. }
  assert (HV : V = map nd_ver S1).
  { unfold V, sci_versions. apply Forall2_map_eq.
    eapply Forall2_impl; [exact HS1|].
    intros x nd (_ & -> & _ & -> & _). done. }
  (* and of the units made of the images left over *)
  assert (HF1 : Forall2 (fun x nd =>
                  is_primary x = false /\ hheader x = nd_header nd
                  /\ is_Some (EXTNAME (nd_header nd))
                  /\ EXTVER (nd_header nd) = Some (nd_ver nd)
                  /\ 0 < nd_ver nd
                  /\ forall y, hheader y = nd_header nd ->
                               claimed V y = false)
                (filter (fun x => claimed V x = false
                                  /\ leftover_image x = true) rest1) F1).
  { apply Forall2_flip in HmF1.
    pose proof (Forall2_Forall_both _ _ _ _ HmF1 HposF) as H.
    apply Forall2_flip in H.
    apply Forall2_same_length_lookup. split; [by eapply Forall2_length|].
    intros i x nd Hx Hnd'.
    destruct (Forall2_lookup_lr _ _ _ _ _ _ H Hx Hnd')
      as [Hpos' (Hh & Hv & _)].
    apply list_elem_of_lookup_2 in Hx as Hx'.
    apply list_elem_of_filter in Hx' as [[Hc Hl] Hin].
    unfold leftover_image in Hl.
    apply andb_true_iff in Hl as [Hcl%bool_decide_eq_true _].
    assert (is_image x = true) as Hi by by apply bool_decide_eq_true_2.
    unfold images_identified in Hid1. rewrite Forall_forall in Hid1.
    destruct (Hid1 x Hin Hi) as [Hnamed _].
    split; [by apply image_not_primary|]. split; [done|]. rewrite Hh.
    split; [done|]. split.
    - destruct (EXTVER (hheader x)); cbn in Hv; [congruence|lia].
    - split; [done|]. intros y Hy. by rewrite (claimed_header V y x). }
  (* what the writer makes of them *)
  apply write_fits_views in Hwrite as (us & tabs & Hviews & Hus & Htabs).
  rewrite HU1 in Hus.
  apply Forall2_app_inv_l in Hus as (usS & usF & HusS & HusF & ->).
  set (imageS := fun nd : NDData Arr Tbl W Cards =>
         image_view (Tbl := Tbl) (p_data (nd_planes nd))
                    (written_header' (phu ad1) nd) None).
  set (imageF := fun nd : NDData Arr Tbl W Cards =>
         image_view (Tbl := Tbl) (p_data (nd_planes nd)) (nd_header nd) None).
  assert (HwS : Forall2 (fun nd vs => exists others,
                   vs = imageS nd :: others
                   /\ (forall i, sci_image (read_back store i (imageS nd))
                         /\ ~ free_image V (read_back store i (imageS nd))
                         /\ settled (read_back store i (imageS nd)))
                   /\ Forall (fun v => forall i,
                                extra V (read_back store i v)) others)
                 S1 usS).
  { apply Forall2_same_length_lookup. split; [by eapply Forall2_length|].
    intros i nd vs Hnd' Hvs.
    pose proof (Forall2_lookup_lr _ _ _ _ _ _ HusS Hnd' Hvs) as Hlay.
    destruct (Forall2_lookup_r _ _ _ _ _ HS1 Hnd')
      as (x & _ & (_ & _ & Hn & Hv & Hpos' & HinV)).
    rewrite Forall_forall in HaS1.
    destruct (sci_unit_written V _ _ _ Hlay Hn Hv Hpos' HinV)
      as (others & -> & Hothers);
      [by eapply HaS1, list_elem_of_lookup_2|].
    exists others. split; [done|]. split; [|done].
    intros j. destruct (written_header_names (phu ad1) nd) as [Hwn Hwv].
    eapply sci_image_written; [by rewrite Hwn|by rewrite Hwv|done]. }
  assert (HwF : Forall2 (fun nd vs =>
                   vs = [imageF nd]
                   /\ forall i, ~ sci_image (read_back store i (imageF nd))
                         /\ free_image V (read_back store i (imageF nd))
                         /\ settled (read_back store i (imageF nd)))
                 F1 usF).
  { apply Forall2_same_length_lookup. split; [by eapply Forall2_length|].
    intros i nd vs Hnd' Hvs.
    pose proof (Forall2_lookup_lr _ _ _ _ _ _ HusF Hnd' Hvs) as Hlay.
    destruct (Forall2_lookup_r _ _ _ _ _ HF1 Hnd')
      as (x & _ & (_ & _ & Hn & Hv & Hpos' & Hc)).
    rewrite Forall_forall in HpF1.
    apply plain_unit_written in Hlay as ->;
      [|by eapply HpF1, list_elem_of_lookup_2].
    split; [done|]. intros j. by eapply free_image_written. }
  assert (HwT : Forall (fun v => forall i, extra V (read_back store i v)) tabs).
  { apply Forall_forall. intros v Hv.
    apply list_elem_of_lookup in Hv as [i Hi].
    destruct (Forall2_lookup_r _ _ _ _ _ Htabs Hi) as ([name t] & _ & Ht).
    by eapply table_view_extra. }
  (* the file read back *)
  rewrite on_disk_views, Hviews in Hread2.
  cbn [imap] in Hread2.
  set (p0 := read_back store 0 (PrimaryHDU, phu ad1, None)) in *.
  set (written := imap (read_back store ∘ S)
                       (concat (usS ++ usF) ++ tabs)) in *.
  assert (Herased : map erase written =
                    map (read_back store 0) (concat usS)
                    ++ map (read_back store 0) (concat usF)
                    ++ map (read_back store 0) tabs).
  { unfold written. rewrite (map_erase_imap (read_back store 0)) by done.
    by rewrite concat_app, !map_app, <- app_assoc. }
  assert (Hsettled : Forall settled written).
  { apply Forall_imap. rewrite concat_app. repeat apply Forall_app_2.
    - apply Forall_concat. apply Forall_forall. intros vs Hvs.
      apply list_elem_of_lookup in Hvs as [i Hi].
      destruct (Forall2_lookup_r _ _ _ _ _ HwS Hi)
        as (nd & _ & others & -> & Hhead & Hothers).
      constructor; [intros j; apply Hhead|].
      eapply Forall_impl; [exact Hothers|]. intros v Hv j. apply Hv.
    - apply Forall_concat. apply Forall_forall. intros vs Hvs.
      apply list_elem_of_lookup in Hvs as [i Hi].
      destruct (Forall2_lookup_r _ _ _ _ _ HwF Hi) as (nd & _ & -> & Hhead).
      constructor; [intros j; apply Hhead|constructor].
    - eapply Forall_impl; [exact HwT|]. intros v Hv j. apply Hv. }
  assert (Hsci : filter sci_image (map erase written) =
                 map (fun nd => read_back store 0 (imageS nd)) S1).
  { rewrite Herased, !filter_app.
    rewrite (filter_heads _ imageS S1 usS).
    2:{ eapply Forall2_impl; [exact HwS|].
        intros nd vs (others & -> & Hhead & Hothers).
        exists others. split; [done|]. split; [apply Hhead|].
        eapply Forall_impl; [exact Hothers|]. intros v Hv. apply Hv. }
    rewrite (filter_no_heads _ F1 usF).
    2:{ eapply Forall2_impl; [exact HwF|]. intros nd vs (-> & Hhead).
        constructor; [apply Hhead|constructor]. }
    rewrite filter_none, !app_nil_r; [done|].
    apply Forall_fmap. eapply Forall_impl; [exact HwT|].
    intros v Hv. apply Hv. }
  assert (Hfree : filter (free_image V) (map erase written) =
                  map (fun nd => read_back store 0 (imageF nd)) F1).
  { rewrite Herased, !filter_app.
    rewrite (filter_no_heads _ S1 usS).
    2:{ eapply Forall2_impl; [exact HwS|].
        intros nd vs (others & -> & Hhead & Hothers).
        constructor; [apply Hhead|].
        eapply Forall_impl; [exact Hothers|]. intros v Hv. apply Hv. }
    rewrite (filter_heads _ imageF F1 usF).
    2:{ eapply Forall2_impl; [exact HwF|]. intros nd vs (-> & Hhead).
        exists []. split; [done|]. split; [apply Hhead|constructor]. }
    rewrite filter_none, !app_nil_r; [done|].
    apply Forall_fmap. eapply Forall_impl; [exact HwT|].
    intros v Hv. apply Hv. }
  (* its preparation *)
  assert (HndD : NoDup (map hid (p0 :: written))).
  { assert (map hid (p0 :: written) =
            seq 0 (length ((PrimaryHDU, phu ad1, @None (payload Arr Tbl))
                           :: concat (usS ++ usF) ++ tabs))) as ->;
      [|apply NoDup_seq].
    rewrite <- map_hid_imap. done. }
  assert (Hnp : Forall (fun e => is_primary e = false) written).
  { eapply Forall_impl; [exact Hsettled|]. by intros x (? & _). }
  destruct (prepare_primary_head strip_structural DEFAULT_EXTENSION
              p0 written) as (added & Hprep2 & Hadded & _);
    [done|done|done| |by destruct written|].
  { constructor; [done|]. eapply Forall_impl; [exact Hsettled|].
    by intros x (_ & ? & _). }
  apply read_fits_units in Hread2
    as (first2 & rest2 & Hprep2' & _ & Hunits2).
  rewrite Hprep2 in Hprep2'. injection Hprep2' as <- <-.
  destruct Hunits2 as (S2 & F2 & -> & HmS2 & _ & HmF2 & _).
  { cbn [map] in *. by rewrite sorted_perm, (prepared_hids _ _ _ _ Hadded). }
  set (rest2 := sorted fits_ext_comp_key
                       (List.filter kept_by_first_loop written ++ added)) in *.
  (* the units of the extensions named SCI *)
  destruct (selection_after_prepare sci_image _ _ written added _
              ltac:(by intros x [_ ?]) ltac:(done) Hsettled Hadded Hsci)
    as (sci2 & Hsci2 & Hsci2');
    [|].
  { eapply StronglySorted_same_keys;
      [|exact (Hfilter_sorted
                 (fun x => EXTNAME (hheader x) = Some DEFAULT_EXTENSION) _)].
    apply Forall2_fmap_r. eapply Forall2_impl; [exact HS1|].
    intros x nd (Hx & Hh & _). cbn beta.
    destruct (written_header_names (phu ad1) nd) as [Hwn Hwv].
    apply key_of_header; [done|done| |]; cbn; by rewrite Hh. }
  fold rest2 in Hsci2.
  assert (Hnamed : filter (fun x => EXTNAME (hheader x)
                             = Some DEFAULT_EXTENSION) rest2 = sci2).
  { rewrite <- Hsci2. apply filter_and_Forall. apply Forall_forall.
    intros x Hx Hn.
    assert (x ∈ filter (fun x => EXTNAME (hheader x)
                          = Some DEFAULT_EXTENSION) rest2) as Hin
      by by apply list_elem_of_filter.
    apply list_elem_of_lookup in Hin as [i Hi].
    destruct (Forall2_lookup_l _ _ _ _ _ HmS2 Hi)
      as (nd & _ & (_ & _ & r & Hr & _)).
    unfold image_data. by rewrite Hr. }
  rewrite Hnamed in HmS2.
  assert (HV2 : sci_versions rest2 = V).
  { unfold sci_versions at 1. rewrite Hnamed, HV.
    change (map (fun u => default (-1) (EXTVER (hheader u))) sci2)
      with (map (fun u => default (-1) (EXTVER (hheader (erase u)))) sci2).
    rewrite <- (map_map erase (fun u => default (-1) (EXTVER (hheader u)))).
    rewrite Hsci2', map_map. apply Forall2_map_eq, Forall_Forall2_diag.
    apply Forall_forall. intros nd Hnd'.
    apply list_elem_of_lookup in Hnd' as [i Hi].
    destruct (Forall2_lookup_r _ _ _ _ _ HS1 Hi)
      as (x & _ & (_ & _ & _ & Hv & _)).
    destruct (written_header_names (phu ad1) nd) as [_ Hwv]. cbn.
    by rewrite Hwv, Hv. }
  rewrite HV2 in HmF2.
  (* the units of the images left over *)
  destruct (selection_after_prepare (free_image V) _ _ written added _
              ltac:(by intros x [_ [_ ?]%andb_true_iff]) ltac:(done)
              Hsettled Hadded Hfree)
    as (free2 & Hfree2 & Hfree2').
  { eapply StronglySorted_same_keys;
      [|exact (Hfilter_sorted
                 (fun x => claimed V x = false /\ leftover_image x = true) _)].
    apply Forall2_fmap_r. eapply Forall2_impl; [exact HF1|].
    intros x nd (Hx & Hh & _). cbn beta.
    apply key_of_header; [done|done| |]; cbn; by rewrite Hh. }
  fold rest2 in Hfree2. rewrite Hfree2 in HmF2.
  rewrite !map_app. f_equal.
  - eapply unit_info_of; [exact HmS2|exact Hsci2'|].
    apply Forall_forall. intros nd Hnd'.
    apply list_elem_of_lookup in Hnd' as [i Hi].
    destruct (Forall2_lookup_r _ _ _ _ _ HS1 Hi)
      as (x & _ & (_ & _ & _ & Hv & _)).
    destruct (written_header_names (phu ad1) nd) as [Hwn Hwv].
    unfold ext_info, unit_info, unit_id. cbn.
    by rewrite Hwn, Hwv, Hv, Hscale.
  - eapply unit_info_of; [exact HmF2|exact Hfree2'|].
    apply Forall_forall. intros nd Hnd'.
    apply list_elem_of_lookup in Hnd' as [i Hi].
    destruct (Forall2_lookup_r _ _ _ _ _ HF1 Hi)
      as (x & _ & (_ & _ & _ & Hv & _)).
    unfold ext_info, unit_info, unit_id. cbn.
    by rewrite Hv, Hdata.
Qed.

End RoundTripFacts.

Lemma round_trip_units_witness :
  exists ad1 st ad2,
    Fixture.read true Fixture.scenario = Ok ad1
    /\ Forall (fun nd => 0 < nd_ver nd) (_nddata ad1)
    /\ Fixture.write ad1 = Ok st
    /\ Fixture.read true (on_disk Fixture.store (Writer.hdul st)) = Ok ad2
    /\ map unit_id (_nddata ad2) = map unit_id (_nddata ad1)
    /\ map (fun nd => p_data (nd_planes nd)) (_nddata ad2) =
       map (fun nd => p_data (nd_planes nd)) (_nddata ad1).
Proof.
  unfold Fixture.read, Fixture.write.
  eexists _, _, _.
  split; [vm_compute; reflexivity|].
  split; [repeat constructor|].
  split; [vm_compute; reflexivity|].
  split; [vm_compute; reflexivity|].
  eapply round_trip_units
    with (gwcs_to_fits := fun _ _ => GwcsRaise (D := unit) ValueError)
         (approximate := fun _ => false) (strip_wcs_keywords := fun c => c)
         (header_update := fun c _ => c)
         (header_for_table := fun _ => Ok (mkHeader None None tt))
         (asdf_serialize := fun _ => None) (column_cards := fun _ _ => tt)
         (store := Fixture.store) (rescale := fun _ _ a => a)
         (astropy_data := Reader.raw_data) (asdf_open := fun _ => None)
         (fitswcs_to_gwcs := fun _ => Ok None) (with_origname := fun c => c)
         (strip_structural := fun c => c) (column_table := fun _ => None)
         (fresh_table_name := fun _ => "TABLE1"%string)
         (memmap := true) (memmap' := true) (source := Fixture.scenario).
  - intros t h v [= <-]. done.
  - reflexivity.
  - reflexivity.
  - reflexivity.
  - reflexivity.
  - repeat constructor.
  - apply NoDup_ListNoDup. repeat constructor; cbn; lia.
  - unfold versions_from_minus_one.
    repeat constructor; cbn; intros; simplify_eq; lia.
  - vm_compute; reflexivity.
  - repeat constructor.
  - vm_compute; reflexivity.
  - vm_compute; reflexivity.
Defined.
